(** * Wavelength calibration of an MKID array: the per-pixel fit engine

    A shallow embedding of [mkidpipeline/calibration/wavecal.py]
    (classes [Configuration], [Calibrator] and [Solution]) and the
    properties of its configuration step, histogram construction, model
    selection, calibration steps, result collection and persistence.

    Conventions used throughout:
    - arrival times ([photon_list['Time']], integer microseconds) are [Z];
      bin counts are [Z];
    - every Python/NumPy float (phases, widths, AIC values, sigmas) is an
      exact rational [Q]; rounding, infinities and NaN are left out, except
      for the one division by zero the code can reach, which is written out;
    - [np.sqrt] is not rational-valued, so it is a parameter [np_sqrt] of the
      sections that use it;
    - the model layer ([wavecal_models]: [fit], [guess],
      [has_good_solution]) is not part of this file's source: it is a
      parameter of the sections that call it;
    - [np.argsort] is a parameter bound by what NumPy promises of it (the
      positions of the array, in an order that sorts its values), since the
      order it gives to equal values is not fixed;
    - a raised exception is [None] (or a dedicated constructor). *)

From Stdlib Require Import ZArith QArith Qabs Qround Qpower Lia Lqa Bool String.
From stdpp Require Import base option list sorting strings pretty gmap.

Local Open Scope Z_scope.

(** ** Rational helpers *)

Definition Qltb (a b : Q) : bool := negb (Qle_bool b a).

(** ** NumPy array primitives used by the calibrator *)

Module Np.

(** [np.diff a]: [a[i+1] - a[i]]. *)
Definition diff (a : list Z) : list Z :=
  zip_with (fun lo hi => hi - lo) a (tail a).

Definition diffQ (a : list Q) : list Q :=
  zip_with (fun lo hi => (hi - lo)%Q) a (tail a).

(** [a[logic]] for a boolean array [logic]: the entries of [a] whose mask
    is set; an index error when the two lengths differ. *)
Fixpoint select {A} (a : list A) (logic : list bool) : list A :=
  match a, logic with
  | v :: a', b :: logic' =>
      if b then v :: select a' logic' else select a' logic'
  | _, _ => []
  end.

Definition mask {A} (a : list A) (logic : list bool) : option (list A) :=
  if decide (length a = length logic) then Some (select a logic) else None.

End Np.

(** ** Photon lists and the arrival-time cut *)

Record photon := mkPhoton { Time : Z; Wavelength : Q }.

Definition time_le (p q : photon) : Prop := Time p <= Time q.

#[global] Instance time_le_dec (p q : photon) : Decision (time_le p q).
Proof. unfold time_le. apply _. Defined.

#[global] Instance time_le_total : Total time_le.
Proof. intros p q. unfold time_le. lia. Qed.

#[global] Instance time_le_trans : Transitive time_le.
Proof. intros p q r. unfold time_le. lia. Qed.

(** [photon_list[np.argsort(photon_list['Time'])]] *)
Definition sort_by_time (photon_list : list photon) : list photon :=
  merge_sort time_le photon_list.

(** [Calibrator._remove_tail_riding_photons], with [dt] for [self.cfg.dt]. *)
Definition _remove_tail_riding_photons (dt : Q) (photon_list : list photon)
  : option (list photon) :=
  let photon_list := sort_by_time photon_list in
  let logic :=
    true :: map (fun d => Qltb dt (inject_Z d)) (Np.diff (map Time photon_list)) in
  Np.mask photon_list logic.

(** The cut as the specification words it: an event is kept when its gap
    from the previous KEPT event exceeds [dt]. *)
Fixpoint keep_after_kept (dt : Q) (last : Z) (l : list photon) : list photon :=
  match l with
  | [] => []
  | p :: r =>
      if Qltb dt (inject_Z (Time p - last))
      then p :: keep_after_kept dt (Time p) r
      else keep_after_kept dt last r
  end.

Definition tail_riding_as_specified (dt : Q) (photon_list : list photon)
  : list photon :=
  match sort_by_time photon_list with
  | [] => []
  | p :: r => p :: keep_after_kept dt (Time p) r
  end.

(** The cut the code performs: an event is kept when its gap from the
    event just before it in time order, kept or not, exceeds [dt]. *)
Fixpoint keep_after_gap (dt : Q) (prev : Z) (l : list photon) : list photon :=
  match l with
  | [] => []
  | p :: r =>
      if Qltb dt (inject_Z (Time p - prev))
      then p :: keep_after_gap dt (Time p) r
      else keep_after_gap dt (Time p) r
  end.

Definition tail_riding_by_predecessor (dt : Q) (photon_list : list photon)
  : list photon :=
  match sort_by_time photon_list with
  | [] => []
  | p :: r => p :: keep_after_gap dt (Time p) r
  end.

(** ** Histogram construction *)

Module Histogram.
Local Open Scope Q_scope.

(** [np.arange(start, stop, step)]: [ceil((stop - start) / step)] values
    [start + i * step]; a zero step is an error. *)
Definition arange (start stop step : Q) : option (list Q) :=
  if Qeq_bool step 0 then None
  else
    let n := Z.to_nat (Qceiling ((stop - start) / step)) in
    Some (map (fun i : nat => start + inject_Z (Z.of_nat i) * step) (seq 0 n)).

Fixpoint monotonic (edges : list Q) : bool :=
  match edges with
  | a :: (b :: _) as rest => Qle_bool a b && monotonic rest
  | _ => true
  end.

Definition count_if (f : Q -> bool) (a : list Q) : Z :=
  Z.of_nat (length (filter (fun v => f v = true) a)).

(** Counts of [np.histogram(a, bins=edges)]: every bin is half open
    [lo <= v < hi], but the last one, which is closed. *)
Fixpoint bin_counts (a : list Q) (edges : list Q) : list Z :=
  match edges with
  | lo :: (hi :: more) as rest =>
      match more with
      | [] => [count_if (fun v => Qle_bool lo v && Qle_bool v hi) a]
      | _ => count_if (fun v => Qle_bool lo v && Qltb v hi) a :: bin_counts a rest
      end
  | _ => []
  end.

Definition np_histogram (a : list Q) (bins : list Q) : option (list Z * list Q) :=
  if monotonic bins then Some (bin_counts a bins, bins) else None.

(** [(x0[:-1] + x0[1:]) / 2.0] *)
Definition bin_centers (x0 : list Q) : list Q :=
  zip_with (fun lo hi => (lo + hi) / 2) x0 (tail x0).

(** [np.min], [np.max]: a zero-size array is an error. *)
Definition np_minQ (a : list Q) : option Q :=
  match a with
  | [] => None
  | v :: r => Some (fold_left (fun m w => if Qltb w m then w else m) r v)
  end.

Definition np_maxQ (a : list Q) : option Q :=
  match a with
  | [] => None
  | v :: r => Some (fold_left (fun m w => if Qltb m w then w else m) r v)
  end.

Definition np_maxZ (a : list Z) : option Z :=
  match a with
  | [] => None
  | v :: r => Some (fold_left Z.max r v)
  end.

(** One binning attempt, as the loop body of [_histogram] performs it. *)
Record attempt := mkAttempt {
  a_bin_width : Q;
  a_bin_edges : list Q;
  a_centers : list Q;
  a_counts : list Z;
  a_max_count : Z
}.

(** The local variables of [_histogram] that the loop reads and writes. *)
Record locals := mkLocals {
  max_count : Z;
  update : nat;
  centers : option (list Q);
  counts : option (list Z)
}.

Inductive outcome :=
| Returned (centers : option (list Q)) (counts : option (list Z))
| Raised
| OutOfFuel.

Section WithConfig.
Variable cfg_bin_width : Q.

Definition loop_condition (st : locals) : bool :=
  (max_count st <? 400)%Z && (update st <? 3)%nat.

Definition loop_body (min_phase max_phase : Q) (phase_list : list Q)
    (st : locals) : option (attempt * locals) :=
  let bin_width := cfg_bin_width * 2 ^ Z.of_nat (update st) in
  edges ← arange max_phase (min_phase - bin_width) (- bin_width);
  let bin_edges := rev edges in
  '(counts, x0) ← np_histogram phase_list bin_edges;
  let centers := bin_centers x0 in
  max_count ← np_maxZ counts;
  Some (mkAttempt bin_width bin_edges centers counts max_count,
        mkLocals max_count (S (update st)) (Some centers) (Some counts)).

(** The [while] loop, with the attempts it made. *)
Fixpoint loop (fuel : nat) (min_phase max_phase : Q) (phase_list : list Q)
    (st : locals) : list attempt * outcome :=
  if loop_condition st then
    match fuel with
    | O => ([], OutOfFuel)
    | S fuel' =>
        match loop_body min_phase max_phase phase_list st with
        | None => ([], Raised)
        | Some (a, st') =>
            let '(tr, out) := loop fuel' min_phase max_phase phase_list st' in
            (a :: tr, out)
        end
    end
  else ([], Returned (centers st) (counts st)).

(** [Calibrator._histogram] *)
Definition _histogram_trace (fuel : nat) (phase_list : list Q)
    : list attempt * outcome :=
  match np_minQ phase_list, np_maxQ phase_list with
  | Some min_phase, Some max_phase =>
      loop fuel min_phase max_phase phase_list (mkLocals 0 0 None None)
  | _, _ => ([], Raised)
  end.

Definition _histogram (phase_list : list Q) : outcome :=
  snd (_histogram_trace 3 phase_list).
End WithConfig.

(** What binning attempt number [k] (counted from 0) of a run with
    configured width [cfg_bin_width] on [phase_list] has to look like. *)
Definition attempt_ok (cfg_bin_width max_phase : Q) (phase_list : list Q)
    (k : nat) (a : attempt) : Prop :=
  a_bin_width a = (cfg_bin_width * 2 ^ Z.of_nat k)%Q /\
  (exists n : nat,
      a_bin_edges a =
      rev (map (fun i : nat =>
                  (max_phase + inject_Z (Z.of_nat i) * - a_bin_width a)%Q)
               (seq 0 n))) /\
  a_centers a = bin_centers (a_bin_edges a) /\
  a_counts a = bin_counts phase_list (a_bin_edges a) /\
  np_maxZ (a_counts a) = Some (a_max_count a) /\
  (k < 3)%nat.

End Histogram.

(** ** The fit state kept for each pixel *)

(** An [lmfit] parameter, as far as the calibrator reads it. *)
Record Param := mkParam {
  p_name : string;
  p_value : Q;
  p_stderr : Q
}.

(** [model.best_fit_result] *)
Record FitResult := mkFitResult {
  aic : Q;
  success : bool;
  params : list Param
}.

(** A histogram model object: an instance of the class named [h_class],
    one of [wavecal_models]' subclasses of [PartialLinearModel]. *)
Record HistogramModel := mkHistogramModel {
  h_class : string;
  h_pixel : Z * Z;
  h_res_id : Z;
  h_x : option (list Q);
  h_y : option (list Z);
  h_variance : option (list Q);
  h_flag : Z;
  h_best_fit_result : option FitResult;
  h_best_fit_result_good : option bool
}.

Definition h_set_flag (flag : Z) (m : HistogramModel) : HistogramModel :=
  mkHistogramModel (h_class m) (h_pixel m) (h_res_id m) (h_x m) (h_y m)
    (h_variance m) flag (h_best_fit_result m) (h_best_fit_result_good m).

Definition h_set_data (x : option (list Q)) (y : option (list Z))
    (variance : option (list Q)) (m : HistogramModel) : HistogramModel :=
  mkHistogramModel (h_class m) (h_pixel m) (h_res_id m) x y variance
    (h_flag m) (h_best_fit_result m) (h_best_fit_result_good m).

Definition h_clear_fit (m : HistogramModel) : HistogramModel :=
  mkHistogramModel (h_class m) (h_pixel m) (h_res_id m) (h_x m) (h_y m)
    (h_variance m) (h_flag m) None None.

(** A calibration model object (a subclass of [XErrorsModel]). *)
Record CalibrationModel := mkCalibrationModel {
  c_class : string;
  c_pixel : Z * Z;
  c_res_id : Z;
  c_x : option (list Q);
  c_y : option (list Q);
  c_variance : option (list Q);
  c_min_x : option Q;
  c_max_x : option Q;
  c_flag : Z;
  c_best_fit_result : option FitResult
}.

Definition c_set_flag (flag : Z) (m : CalibrationModel) : CalibrationModel :=
  mkCalibrationModel (c_class m) (c_pixel m) (c_res_id m) (c_x m) (c_y m)
    (c_variance m) (c_min_x m) (c_max_x m) flag (c_best_fit_result m).

Definition c_set_data (x y variance : option (list Q)) (m : CalibrationModel)
  : CalibrationModel :=
  mkCalibrationModel (c_class m) (c_pixel m) (c_res_id m) x y variance
    (c_min_x m) (c_max_x m) (c_flag m) (c_best_fit_result m).

Definition c_set_domain (min_x max_x : option Q) (m : CalibrationModel)
  : CalibrationModel :=
  mkCalibrationModel (c_class m) (c_pixel m) (c_res_id m) (c_x m) (c_y m)
    (c_variance m) min_x max_x (c_flag m) (c_best_fit_result m).

(** The part of [Configuration] the fit engine reads. *)
Record Configuration := mkConfiguration {
  wavelengths : list Q;
  histogram_model_names : list string;
  bin_width : Q;
  histogram_fit_attempts : nat;
  calibration_model_names : list string;
  dt : Q;
  out_directory : string;
  solution_name : string;
  configuration_path : string;
  class_module : string   (* [cfg.__class__.__module__] *)
}.

(** A configuration for the examples: three wavelengths, one histogram
    model class, one calibration model class. *)
Definition demo_cfg : Configuration :=
  mkConfiguration [400; 500; 600]%Q ["GaussianAndExponential"%string] 1 2
    ["Quadratic"%string] 200 "/out" "solution.npz" "/cfg/wavecal.cfg"
    "mkidpipeline.calibration.wavecal".

(** A histogram model as [Solution.__getitem__] creates it, with no
    histogram attached; 9 stands for the model layer's initial flag. *)
Definition demo_model : HistogramModel :=
  mkHistogramModel "GaussianAndExponential" (3, 4) 10007 None None None 9
    None None.

(** ** [Calibrator.make_histograms] *)

Module MakeHistograms.

(** The debug message each branch of the loop body logs. *)
Inductive message :=
| NoPhotons               (* "there are no photons" *)
| TooHot                  (* "removed for being too hot" *)
| ArrivalTimeCut          (* "all the photons were removed after the arrival time cut" *)
| NegativePhaseCut        (* "... after the negative phase only cut" *)
| HistogramComputed.      (* "histogram successfully computed" *)

Definition max_time (photon_list : list photon) : Z :=
  match map Time photon_list with
  | [] => 0
  | t :: r => fold_left Z.max r t
  end.

Definition min_time (photon_list : list photon) : Z :=
  match map Time photon_list with
  | [] => 0
  | t :: r => fold_left Z.min r t
  end.

(** [rate > 2000] for
    [rate = len(photon_list) * 1e6 / (max(Time) - min(Time))]; NumPy's
    division by a zero span yields [inf], which exceeds the threshold. *)
Definition rate_above_2000 (photon_list : list photon) : bool :=
  let span := max_time photon_list - min_time photon_list in
  if span =? 0 then true
  else Qltb 2000 (inject_Z (Z.of_nat (length photon_list) * 1000000)
                  / inject_Z span).

Section WithConfig.
Variable cfg : Configuration.
Variable np_sqrt : Q -> Q.

(** Body of the loop over wavelengths for one pixel: the model after
    it and the message logged, or [None] when an exception escapes. *)
Definition make_histogram (model : HistogramModel)
    (photon_list : list photon) : option (HistogramModel * message) :=
  if (length photon_list <? 2)%nat then
    Some (h_set_flag 1 model, NoPhotons)
  else if rate_above_2000 photon_list then
    Some (h_set_flag 2 model, TooHot)
  else
    photon_list ← _remove_tail_riding_photons (dt cfg) photon_list;
    if (length photon_list =? 0)%nat then
      Some (h_set_flag 3 model, ArrivalTimeCut)
    else
      let phase_list := map Wavelength photon_list in
      let phase_list := filter (fun v => Qltb v 0 = true) phase_list in
      if (length phase_list =? 0)%nat then
        Some (h_set_flag 4 model, NegativePhaseCut)
      else
        match Histogram._histogram (bin_width cfg) phase_list with
        | Histogram.Returned (Some centers) (Some counts) =>
            let variance :=
              map (fun c => (np_sqrt (inject_Z c ^ 2 + (1 # 4)) - (1 # 2))%Q)
                  counts in
            Some (h_set_data (Some centers) (Some counts) (Some variance) model,
                  HistogramComputed)
        | _ => None
        end.

(** The loop over the wavelengths of one pixel: [models[index]] is
    updated in place from [obs_files[index]]'s photon list. *)
Fixpoint make_histograms_pixel (models : list HistogramModel)
    (photon_lists : list (list photon))
    : option (list (HistogramModel * message)) :=
  match models, photon_lists with
  | model :: models', photon_list :: photon_lists' =>
      r ← make_histogram model photon_list;
      rs ← make_histograms_pixel models' photon_lists';
      Some (r :: rs)
  | [], _ => Some []
  | _ :: _, [] => None
  end.

(** [Calibrator.make_histograms]: the loop over the pixels, each with its
    histogram models and its photon lists in the order of the wavelengths;
    an exception in one pixel ends the run. *)
Definition make_histograms
    (pixels : list (list HistogramModel * list (list photon)))
    : option (list (list (HistogramModel * message))) :=
  mapM (fun '(models, photon_lists) => make_histograms_pixel models photon_lists)
       pixels.
End WithConfig.

End MakeHistograms.

(** ** Model selection by AIC

    The loop shared, word for word, by [_assign_best_histogram_model] and
    [_assign_best_calibration_model]: it runs over [tried_models[1:]] with
    [best_model] and [lowest_aic_model] both started at [tried_models[0]].
    A model without a [best_fit_result] is an attribute error. *)

Module Selection.
Section Choose.
Context {T : Type}.
Variable best_fit_result : T -> option FitResult.
Variable has_good_solution : T -> bool.

Fixpoint choose (rest : list T) (best_model lowest_aic_model : T)
    : option (T * T) :=
  match rest with
  | [] => Some (best_model, lowest_aic_model)
  | model :: rest' =>
      r ← best_fit_result model;
      b ← best_fit_result best_model;
      let lower_aic := Qltb (aic r) (aic b) in
      let good_fit := has_good_solution model in
      let best_model' := if lower_aic && good_fit then model else best_model in
      let lowest_aic_model' := if lower_aic then model else lowest_aic_model in
      choose rest' best_model' lowest_aic_model'
  end.
End Choose.
End Selection.

(** ** The histogram fits of one pixel: [Calibrator.fit_histograms]

    Model objects are mutable and shared: [fit] changes an object in place,
    [copy] makes a new one, [Solution.set_histogram_models] rebinds an entry
    of the pixel's [histograms] array, and [Solution.histogram_models]
    returns a fresh array (boolean-mask indexing copies) of references to
    the objects stored at the time of the call. The store below keeps the
    objects apart from the array of references to them. *)

Module FitHistograms.

Definition ref := nat.
Definition Guess := list Param.

(** The debug messages of [fit_histograms] and
    [_assign_best_histogram_model]; [index] is the wavelength's index. *)
Inductive message :=
| NoData (index : nat)
| TooFewBins (index : nat)
| BeginFitting (index : nat)
| SuccessfulComputedGuess (index : nat) (class : string)
| SuccessfulGuessNumber (index fit_index : nat) (class : string)
| ChosenBest (index : nat) (class : string)
| FailedAllModels (index : nat)
| Recomputed (index : nat) (class : string).

Record store := mkStore {
  objects : list HistogramModel;  (* every model object, by reference *)
  histograms : list ref;          (* solution[pixel]['histograms'] *)
  log : list message
}.

(** State and exceptions. *)
Definition M (A : Type) : Type := store -> option (A * store).

Definition ret {A} (a : A) : M A := fun s => Some (a, s).
Definition raise {A} : M A := fun _ => None.
Definition bind {A B} (c : M A) (k : A -> M B) : M B :=
  fun s => match c s with Some (a, s') => k a s' | None => None end.

#[global] Instance M_ret : MRet M := @ret.
#[global] Instance M_bind : MBind M := fun A B k c => bind c k.

Definition of_option {A} (o : option A) : M A :=
  match o with Some a => ret a | None => raise end.

Definition read (r : ref) : M HistogramModel :=
  fun s => of_option (objects s !! r) s.

Definition modify (r : ref) (f : HistogramModel -> HistogramModel) : M unit :=
  fun s =>
    match objects s !! r with
    | Some m => Some (tt, mkStore (<[r := f m]> (objects s)) (histograms s) (log s))
    | None => None
    end.

Definition alloc (m : HistogramModel) : M ref :=
  fun s => Some (length (objects s),
                 mkStore (objects s ++ [m]) (histograms s) (log s)).

Definition stored (index : nat) : M ref :=
  fun s => of_option (histograms s !! index) s.

Definition all_stored : M (list ref) := fun s => Some (histograms s, s).

Definition set_stored (index : nat) (r : ref) : M unit :=
  fun s =>
    if decide (index < length (histograms s))%nat
    then Some (tt, mkStore (objects s) (<[index := r]> (histograms s)) (log s))
    else None.

Definition debug (msg : message) : M unit :=
  fun s => Some (tt, mkStore (objects s) (histograms s) (log s ++ [msg])).

Fixpoint map_store {A B} (f : A -> M B) (l : list A) : M (list B) :=
  match l with
  | [] => ret []
  | a :: l' => b ← f a; bs ← map_store f l'; ret (b :: bs)
  end.

(** [model.copy()] *)
Definition copy (r : ref) : M ref := m ← read r; alloc m.

(** A [dict] from parameter names to values; a later entry for a name
    replaces an earlier one. *)
Fixpoint dict_get (name : string) (d : list (string * Q)) : option Q :=
  match d with
  | [] => None
  | (n, v) :: d' =>
      match dict_get name d' with
      | Some w => Some w
      | None => if String.eqb n name then Some v else None
      end
  end.

(** [guess[name].set(value=v)]; a missing name is a [KeyError]. *)
Fixpoint set_value (name : string) (v : Q) (guess : Guess) : option Guess :=
  match guess with
  | [] => None
  | p :: guess' =>
      if String.eqb (p_name p) name
      then Some (mkParam (p_name p) v (p_stderr p) :: guess')
      else cons p <$> set_value name v guess'
  end.

Definition mean2 (a b : Q) : Q := ((a + b) / 2)%Q.

(** Index of the last [True] of [good_solutions[:wavelength_index]]. *)
Definition closest_shorter (good_solutions : list bool) (wavelength_index : nat)
  : option nat :=
  fold_left (fun acc '(index, good) => if good : bool then Some index else acc)
            (imap (fun i g => (i, g)) (take wavelength_index good_solutions)) None.

(** Index of the first [True] of [good_solutions[wavelength_index + 1:]]. *)
Definition closest_longer (good_solutions : list bool) (wavelength_index : nat)
  : option nat :=
  (fun i => wavelength_index + 1 + i)%nat <$>
    list_find (fun g => g = true) (drop (wavelength_index + 1) good_solutions)
    ≫= (fun '(i, _) => Some i).

Section WithModelLayer.
Variable cfg : Configuration.

(** The model layer, [wavecal_models], as [fit_histograms] uses it. *)
Variable new_model : string -> Z * Z -> Z -> HistogramModel.
    (* [histogram_model_class(pixel=..., res_id=...)] *)
Variable issubclass : string -> string -> bool.
Variable max_parameters : HistogramModel -> nat.
Variable model_guess : HistogramModel -> option nat -> Guess.
    (* [model.guess(fit_index)], [model.guess()] *)
Variable model_fit : HistogramModel -> Guess -> HistogramModel.
    (* the state of the object after [model.fit(guess)] *)
Variable has_good_solution : HistogramModel -> bool.
Variable signal_center : HistogramModel -> Param.

Definition isinstance (m : HistogramModel) (class : string) : bool :=
  issubclass (h_class m) class.

(** [self.solution.has_good_histogram_solutions(pixel=pixel)] *)
Definition has_good_histogram_solutions : M (list bool) :=
  refs ← all_stored;
  models ← map_store read refs;
  ret (map has_good_solution models).

(** [Calibrator._update_histogram_model] *)
Definition _update_histogram_model (index : nat) (class : string) : M ref :=
  old ← stored index;
  model ← read old;
  new ← alloc (new_model class (h_pixel model) (h_res_id model));
  set_stored index new;;
  modify new (h_set_data (h_x model) (h_y model) (h_variance model));;
  ret new.

(** The data [_guess] takes from a neighbouring good fit. *)
Definition neighbour_data (models : list HistogramModel)
    (model : HistogramModel) (wavelength_index : nat)
    (neighbour_index : option nat)
    : option (option Q * list (string * Q)) :=
  match neighbour_index with
  | None => Some (None, [])
  | Some i =>
      neighbour ← models !! i;
      w_i ← wavelengths cfg !! i;
      w ← wavelengths cfg !! wavelength_index;
      let center :=
        (p_value (signal_center neighbour) * w_i / w)%Q in
      if isinstance neighbour (h_class model) then
        result ← h_best_fit_result neighbour;
        let others :=
          filter (fun p => negb (String.eqb (p_name p)
                                   (p_name (signal_center neighbour))) = true)
                 (params result) in
        Some (Some center, map (fun p => (p_name p, p_value p)) others)
      else Some (Some center, [])
  end.

Definition set_other_parameters (shorter_guesses longer_guesses : list (string * Q))
    (guess : Guess) : Guess :=
  map (fun p =>
         match dict_get (p_name p) shorter_guesses,
               dict_get (p_name p) longer_guesses with
         | Some s, Some l => mkParam (p_name p) (mean2 l s) (p_stderr p)
         | Some s, None => mkParam (p_name p) s (p_stderr p)
         | None, Some l => mkParam (p_name p) l (p_stderr p)
         | None, None => p
         end) guess.

(** [Calibrator._guess] *)
Definition _guess (wavelength_index : nat) (good_solutions : list bool)
  : M Guess :=
  refs ← all_stored;
  histogram_models ← map_store read refs;
  model ← of_option (histogram_models !! wavelength_index);
  let guess := model_guess model None in
  let shorter_index := closest_shorter good_solutions wavelength_index in
  let longer_index := closest_longer good_solutions wavelength_index in
  '(shorter_center, shorter_guesses) ←
    of_option (neighbour_data histogram_models model wavelength_index
                 shorter_index);
  '(longer_center, longer_guesses) ←
    of_option (neighbour_data histogram_models model wavelength_index
                 longer_index);
  guess ←
    match shorter_center, longer_center with
    | None, None => raise   (* RuntimeError *)
    | Some s, Some l =>
        of_option (set_value (p_name (signal_center model)) (mean2 s l) guess)
    | Some s, None =>
        of_option (set_value (p_name (signal_center model)) s guess)
    | None, Some l =>
        of_option (set_value (p_name (signal_center model)) l guess)
    end;
  ret (set_other_parameters shorter_guesses longer_guesses guess).

(** Which of the tried models is stored, and with which flag. *)
Definition assigned {A} (tried_models : list (A * HistogramModel))
    : option (A * HistogramModel) :=
  match tried_models with
  | [] => None   (* IndexError *)
  | first :: rest =>
      '(best_model, lowest_aic_model) ←
        Selection.choose (fun t => h_best_fit_result (snd t))
          (fun t => has_good_solution (snd t)) rest first first;
      if has_good_solution (snd best_model) then
        Some (fst best_model, h_set_flag 0 (snd best_model))
      else
        r ← h_best_fit_result (snd lowest_aic_model);
        if negb (success r)
        then Some (fst lowest_aic_model, h_set_flag 6 (snd lowest_aic_model))
        else Some (fst lowest_aic_model, h_set_flag 7 (snd lowest_aic_model))
  end.

(** [Calibrator._assign_best_histogram_model] *)
Definition _assign_best_histogram_model (tried_models : list ref)
    (index : nat) : M unit :=
  models ← map_store (fun r => m ← read r; ret (r, m)) tried_models;
  '(r, m) ← of_option (assigned models);
  modify r (fun _ => m);;
  set_stored index r;;
  (if (h_flag m =? 0)%Z then debug (ChosenBest index (h_class m))
   else debug (FailedAllModels index)).

(** The loop over [fit_index]: the model's own guesses, until one
    gives a good fit. *)
Fixpoint own_guesses (index : nat) (model : ref) (fit_indices : list nat)
    : M unit :=
  match fit_indices with
  | [] => ret tt
  | fit_index :: rest =>
      modify model (fun m => model_fit m (model_guess m (Some fit_index)));;
      m ← read model;
      if has_good_solution m
      then debug (SuccessfulGuessNumber index fit_index (h_class m))
      else own_guesses index model rest
  end.

(** First pass, the loop over [self.solution.histogram_model_list];
    every path through its body appends one copy of [model] to
    [tried_models]. *)
Fixpoint first_pass_classes (index : nat) (classes : list string)
    (model : ref) (tried_models : list ref) : M (list ref) :=
  match classes with
  | [] => ret tried_models
  | class :: rest =>
      m ← read model;
      model ← (if isinstance m class then ret model
               else _update_histogram_model index class);
      modify model h_clear_fit;;
      good_solutions ← has_good_histogram_solutions;
      fitted ←
        (if existsb id good_solutions then
           guess ← _guess index good_solutions;
           modify model (fun m => model_fit m guess);;
           m ← read model;
           if has_good_solution m
           then debug (SuccessfulComputedGuess index (h_class m));; ret true
           else ret false
         else ret false);
      (if fitted : bool then ret tt
       else own_guesses index model (seq 0 (histogram_fit_attempts cfg)));;
      c ← copy model;
      first_pass_classes index rest model (tried_models ++ [c])
  end.

Definition first_pass (models : list ref) (index : nat) : M unit :=
  model ← of_option (models !! index);
  m ← read model;
  match h_x m, h_y m with
  | Some x, Some _ =>
      if (length x <? max_parameters m * 2)%nat then
        modify model (h_set_flag 5);; debug (TooFewBins index)
      else
        debug (BeginFitting index);;
        tried_models ←
          first_pass_classes index (histogram_model_names cfg) model [];
        _assign_best_histogram_model tried_models index
  | _, _ => debug (NoData index)
  end.

(** Second pass, the loop over the classes: a good fit breaks out of
    it, and its [else] stores the best of the failed fits. *)
Fixpoint second_pass_classes (index : nat) (good_solutions : list bool)
    (classes : list string) (model : ref) (tried_models : list ref)
    : M unit :=
  match classes with
  | [] => _assign_best_histogram_model tried_models index
  | class :: rest =>
      m ← read model;
      model ← (if isinstance m class then ret model
               else _update_histogram_model index class);
      guess ← _guess index good_solutions;
      modify model (fun m => model_fit m guess);;
      m ← read model;
      if has_good_solution m then debug (Recomputed index (h_class m))
      else
        c ← copy model;
        second_pass_classes index good_solutions rest model
          (tried_models ++ [c])
  end.

(** Whether the second pass fits [models[index]] again. *)
Definition retried (m : HistogramModel) (good_solutions : list bool)
    (index : nat) : bool :=
  match h_x m, h_y m with
  | Some _, Some _ =>
      negb (has_good_solution m) &&
      existsb id (drop (index + 1) good_solutions)
  | _, _ => false
  end.

Definition second_pass (models : list ref) (good_solutions : list bool)
    (index : nat) : M unit :=
  model ← of_option (models !! index);
  m ← read model;
  if retried m good_solutions index then
    second_pass_classes index good_solutions (histogram_model_names cfg)
      model []
  else ret tt.

(** [Calibrator.fit_histograms] for one pixel and all the configured
    wavelengths. [models] is read once, before the first pass. *)
Definition fit_histograms_pixel : M unit :=
  models ← all_stored;
  let indices := seq 0 (length (wavelengths cfg)) in
  map_store (first_pass models) indices;;
  good_solutions ← has_good_histogram_solutions;
  map_store (second_pass models good_solutions) indices;;
  ret tt.

(** [Calibrator.fit_histograms]: the loop over the pixels, each with its
    own objects; an exception in one pixel ends the run. *)
Definition fit_histograms (pixels : list store) : option (list store) :=
  mapM (M := option) (fun s => snd <$> fit_histograms_pixel s) pixels.
End WithModelLayer.

End FitHistograms.

(** ** The calibration fit of one pixel: [Calibrator.fit_calibrations] *)

Module FitCalibrations.
Local Open Scope Q_scope.

Inductive message :=
| NotEnoughData (points : nat)
| NotMonotonic
| BeginFitting
| FitSuccessful (class : string)
| ChosenBest (class : string)
| FailedAllModels.

(** The four lists filled from the good histogram fits. *)
Record points := mkPoints {
  phases : list Q;
  variance : list Q;
  energies : list Q;
  sigmas : list Q
}.

(** [np.argmin], [np.argmax]: the first index of the extreme value. *)
Fixpoint argmin_from (i best_i : nat) (best : Q) (a : list Q) : nat :=
  match a with
  | [] => best_i
  | v :: a' =>
      if Qltb v best then argmin_from (S i) i v a'
      else argmin_from (S i) best_i best a'
  end.

Definition argmin (a : list Q) : nat :=
  match a with
  | [] => 0%nat
  | v :: a' => argmin_from 1 0 v a'
  end.

Fixpoint argmax_from (i best_i : nat) (best : Q) (a : list Q) : nat :=
  match a with
  | [] => best_i
  | v :: a' =>
      if Qltb best v then argmax_from (S i) i v a'
      else argmax_from (S i) best_i best a'
  end.

Definition argmax (a : list Q) : nat :=
  match a with
  | [] => 0%nat
  | v :: a' => argmax_from 1 0 v a'
  end.

(** [(diff < -4 * (sigma[:-1] + sigma[1:])).any()] *)
Definition any_below (diff sigma : list Q) : bool :=
  existsb id
    (zip_with (fun d bound => Qltb d bound) diff
       (zip_with (fun s s' => -4 * (s + s'))
          (take (length sigma - 1) sigma) (tail sigma))).

Section WithModelLayer.
Variable cfg : Configuration.
Variable np_sqrt : Q -> Q.
Variable hc : Q.
    (* [h.to('eV s').value * c.to('nm/s').value] *)

(** The model layer, as [fit_calibrations] uses it. *)
Variable histogram_has_good_solution : HistogramModel -> bool.
Variable signal_center : HistogramModel -> Param.
Variable signal_sigma : HistogramModel -> Param.
Variable new_model : string -> Z * Z -> Z -> CalibrationModel.
Variable issubclass : string -> string -> bool.
Variable model_guess : CalibrationModel -> list Param.
Variable model_fit : CalibrationModel -> list Param -> CalibrationModel.
Variable has_good_solution : CalibrationModel -> bool.

(** The loop that collects the data of the good histogram fits. *)
Fixpoint collect (wavelengths : list Q) (histogram_models : list HistogramModel)
    : points :=
  match wavelengths, histogram_models with
  | wavelength :: wavelengths', histogram_model :: histogram_models' =>
      let rest := collect wavelengths' histogram_models' in
      if histogram_has_good_solution histogram_model then
        mkPoints
          (p_value (signal_center histogram_model) :: phases rest)
          (p_stderr (signal_center histogram_model) ^ 2 :: variance rest)
          (hc / wavelength :: energies rest)
          (p_value (signal_sigma histogram_model) :: sigmas rest)
      else rest
  | _, _ => mkPoints [] [] [] []
  end.

(** "give data to model" *)
Definition give_data (data : points) (model : CalibrationModel)
    : option CalibrationModel :=
  match variance data with
  | [] => Some model
  | _ :: _ =>
      let model :=
        c_set_data (Some (phases data)) (Some (energies data))
          (Some (variance data)) model in
      let arg_min := argmin (phases data) in
      let arg_max := argmax (phases data) in
      x_min ← phases data !! arg_min;
      s_min ← sigmas data !! arg_min;
      x_max ← phases data !! arg_max;
      s_max ← sigmas data !! arg_max;
      Some (c_set_domain (Some (x_min - 3 * np_sqrt s_min))
                         (Some (x_max + 3 * np_sqrt s_max)) model)
  end.

(** The monotonicity test on the collected phases. *)
Definition not_monotonic (data : points) : bool :=
  let diff := Np.diffQ (phases data) in
  let sigma := map np_sqrt (variance data) in
  any_below diff sigma.

Definition check_monotonic (data : points) (model : CalibrationModel)
    : CalibrationModel * list message :=
  if not_monotonic data then (c_set_flag 12 model, [NotMonotonic])
  else (model, []).

(** [Calibrator._update_calibration_model]: the new object is stored in
    place of the old one and gets its data and domain, not its flag. *)
Definition _update_calibration_model (class : string)
    (model : CalibrationModel) : CalibrationModel :=
  c_set_domain (c_min_x model) (c_max_x model)
    (c_set_data (c_x model) (c_y model) (c_variance model)
       (new_model class (c_pixel model) (c_res_id model))).

(** The loop over [self.solution.calibration_model_list]; [model] is
    the stored object all along. *)
Fixpoint fit_classes (classes : list string) (model : CalibrationModel)
    (tried_models : list CalibrationModel) (log : list message)
    : list CalibrationModel * list message :=
  match classes with
  | [] => (tried_models, log)
  | class :: rest =>
      let model :=
        if issubclass (c_class model) class then model
        else _update_calibration_model class model in
      let model := model_fit model (model_guess model) in
      let log :=
        if has_good_solution model
        then log ++ [FitSuccessful (c_class model)] else log in
      fit_classes rest model (tried_models ++ [model]) log
  end.

(** [Calibrator._assign_best_calibration_model]: the model that ends up
    stored for the pixel. *)
Definition _assign_best_calibration_model
    (tried_models : list CalibrationModel)
    : option (CalibrationModel * list message) :=
  match tried_models with
  | [] => None   (* IndexError *)
  | first :: rest =>
      '(best_model, lowest_aic_model) ←
        Selection.choose c_best_fit_result has_good_solution rest first first;
      if has_good_solution best_model then
        Some (c_set_flag 10 best_model, [ChosenBest (c_class best_model)])
      else
        r ← c_best_fit_result lowest_aic_model;
        if negb (success r)
        then Some (c_set_flag 13 lowest_aic_model, [FailedAllModels])
        else Some (c_set_flag 14 lowest_aic_model, [FailedAllModels])
  end.

(** What the body of the loop over pixels goes through. *)
Record run := mkRun {
  collected : points;
  checked : option CalibrationModel;
      (* the stored model after the monotonicity test, when reached *)
  fitted : list CalibrationModel;      (* [tried_models] *)
  final : CalibrationModel;            (* the stored model at the end *)
  messages : list message
}.

(** The body of the loop over pixels; [None] when an exception
    escapes it. *)
Definition fit_calibrations_pixel (model : CalibrationModel)
    (histogram_models : list HistogramModel) : option run :=
  let data := collect (wavelengths cfg) histogram_models in
  model ← give_data data model;
  if (length (variance data) <? 3)%nat then
    Some (mkRun data None [] (c_set_flag 11 model)
            [NotEnoughData (length (variance data))])
  else
    let '(model, log) := check_monotonic data model in
    let log := log ++ [BeginFitting] in
    let '(tried_models, log) :=
      fit_classes (calibration_model_names cfg) model [] log in
    '(stored, log') ← _assign_best_calibration_model tried_models;
    Some (mkRun data (Some model) tried_models stored (log ++ log')).

(** [Calibrator.fit_calibrations]: the loop over the pixels, each with its
    calibration model and its histogram models. *)
Definition fit_calibrations
    (pixels : list (CalibrationModel * list HistogramModel))
    : option (list run) :=
  mapM (M := option)
       (fun '(model, histogram_models) =>
          fit_calibrations_pixel model histogram_models)
       pixels.
End WithModelLayer.

End FitCalibrations.

(** A square root for running examples: exact on the squares of rationals
    (written in lowest terms), rounded down component-wise elsewhere. *)
Definition sqrt_exact (q : Q) : Q := Z.sqrt (Qnum q) # Pos.sqrt (Qden q).

(** ** Saving and loading a [Solution] *)

Module Persistence.




(** An archive is a map from entry names to arrays, [gmap string array];
    a file system is a map from paths to archives. *)






Section WithDisk.
(** [Configuration(configuration_path, solution_name=...)]: the
    configuration file parsed again. *)
Variable Configuration_init : string -> string -> Configuration.



End WithDisk.

End Persistence.

(** ** A stand-in model layer for running the engine on examples

    One parameter to fit, the centre of the peak. A fit always converges;
    it finds the peak of the histogram, and so is good, exactly when the
    guessed centre is within 10 of it. The model's own guess is -80. *)

Module Demo.
Local Open Scope Q_scope.

Definition new_model (class : string) (pixel : Z * Z) (res_id : Z)
  : HistogramModel :=
  mkHistogramModel class pixel res_id None None None 9 None None.

Definition issubclass (a b : string) : bool := String.eqb a b.

Definition max_parameters (_ : HistogramModel) : nat := 1.

(** The bin centre with the largest count. *)
Fixpoint peak_of (x : list Q) (y : list Z) (best : Q) (best_count : Z) : Q :=
  match x, y with
  | c :: x', n :: y' =>
      if (best_count <? n)%Z then peak_of x' y' c n
      else peak_of x' y' best best_count
  | _, _ => best
  end.

Definition peak (m : HistogramModel) : Q :=
  match h_x m, h_y m with
  | Some x, Some y => peak_of x y 0 (-1)
  | _, _ => 0
  end.

Definition model_guess (_ : HistogramModel) (_ : option nat) : list Param :=
  [mkParam "signal_center" (-80) 0; mkParam "signal_sigma" 4 0].

Definition center_of (guess : list Param) : Q :=
  match guess with
  | p :: _ => p_value p
  | [] => 0
  end.

Definition model_fit (m : HistogramModel) (guess : list Param) : HistogramModel :=
  let miss := Qabs (center_of guess - peak m) in
  let found := Qle_bool miss 10 in
  let center := if found then peak m else center_of guess in
  mkHistogramModel (h_class m) (h_pixel m) (h_res_id m) (h_x m) (h_y m)
    (h_variance m) (h_flag m)
    (Some (mkFitResult miss true
             [mkParam "signal_center" center 1; mkParam "signal_sigma" 4 1]))
    (Some found).

Definition has_good_solution (m : HistogramModel) : bool :=
  match h_best_fit_result_good m with
  | Some good => good
  | None => false
  end.

Definition signal_center (m : HistogramModel) : Param :=
  match h_best_fit_result m with
  | Some r => default (mkParam "signal_center" 0 0) (head (params r))
  | None => mkParam "signal_center" 0 0
  end.

Definition signal_sigma (m : HistogramModel) : Param :=
  match h_best_fit_result m with
  | Some r => default (mkParam "signal_sigma" 0 0) (params r !! 1%nat)
  | None => mkParam "signal_sigma" 0 0
  end.

(** A pixel with histograms at 400 nm (peak at -100), 500 nm (peak at
    -80) and 600 nm (peak at -67), before any fit. *)
Definition with_histogram (x : list Q) (y : list Z) : HistogramModel :=
  mkHistogramModel "GaussianAndExponential" (3, 4)%Z 10007 (Some x) (Some y)
    (Some (map inject_Z y)) 9 None None.

Definition pixel_store : FitHistograms.store :=
  FitHistograms.mkStore
    [with_histogram [-110; -100; -90] [1; 9; 2]%Z;
     with_histogram [-90; -80; -70] [2; 8; 1]%Z;
     with_histogram [-77; -67; -57] [1; 7; 2]%Z]
    [0%nat; 1%nat; 2%nat] [].

Definition fit_histograms_pixel : FitHistograms.M unit :=
  FitHistograms.fit_histograms_pixel demo_cfg new_model issubclass
    max_parameters model_guess model_fit has_good_solution signal_center.

(** The calibration side: a fit always converges and validates. *)
Definition hc : Q := 123984193 # 100000.

Definition new_calibration_model (class : string) (pixel : Z * Z) (res_id : Z)
  : CalibrationModel :=
  mkCalibrationModel class pixel res_id None None None None None 9 None.

Definition calibration_guess (_ : CalibrationModel) : list Param :=
  [mkParam "c0" 0 0; mkParam "c1" 1 0].

Definition calibration_fit (m : CalibrationModel) (guess : list Param)
  : CalibrationModel :=
  mkCalibrationModel (c_class m) (c_pixel m) (c_res_id m) (c_x m) (c_y m)
    (c_variance m) (c_min_x m) (c_max_x m) (c_flag m)
    (Some (mkFitResult 1 true guess)).

Definition calibration_has_good_solution (m : CalibrationModel) : bool :=
  match c_best_fit_result m with
  | Some r => success r
  | None => false
  end.

(** The three histograms above, each fitted from a guess at its peak. *)
Definition fitted_histograms : list HistogramModel :=
  map (fun m => model_fit m [mkParam "signal_center" (peak m) 0])
      (FitHistograms.objects pixel_store).

Definition fit_calibrations_pixel
  : CalibrationModel -> list HistogramModel -> option FitCalibrations.run :=
  FitCalibrations.fit_calibrations_pixel demo_cfg sqrt_exact hc
    has_good_solution signal_center signal_sigma new_calibration_model
    issubclass calibration_guess calibration_fit calibration_has_good_solution.
End Demo.

(** ** Predicates for the properties of the selection *)

(** [best], at position [i] of [l], has a good fit, and its AIC is the
    lowest among the models of [l] with a good fit and strictly lower than
    that of every such model before it. *)
Definition first_lowest_good {T : Type}
    (best_fit_result : T -> option FitResult) (has_good_solution : T -> bool)
    (l : list T) (i : nat) (best : T) : Prop :=
  l !! i = Some best /\
  has_good_solution best = true /\
  exists rb, best_fit_result best = Some rb /\
    forall j t r,
      l !! j = Some t -> has_good_solution t = true ->
      best_fit_result t = Some r ->
      (aic rb <= aic r)%Q /\ ((j < i)%nat -> (aic rb < aic r)%Q).

(** ** The configuration's consistency step

    [Configuration.enforce_consistency], [_compute_hdf_names] and
    [_sort_wavelengths] work on four attributes of the configuration that
    are read from the file as parallel lists: entry [i] of each belongs to
    the same laser exposure. *)

Module ConfigFile.

Record attributes := mkAttributes {
  wavelengths : list Q;
  exposure_times : list Z;
  start_times : list Z;
  h5_file_names : option (list string);   (* [None] is Python's [None] *)
  _config_changed : bool
}.

(** [['%d' % st + '.h5' for st in self.start_times]] *)
Definition _compute_hdf_names (self : attributes) : list string :=
  (fun st => String.append (pretty st) ".h5") <$> start_times self.

(** [np.array(a)[indices]] for an array of non-negative indices: an index
    past the end raises [IndexError]. *)
Definition index_with {A : Type} (a : list A) (indices : list nat)
    : option (list A) :=
  mapM (fun i => a !! i) indices.

#[global] Instance Qle_dec (a b : Q) : Decision (a <= b)%Q.
Proof.
  unfold Decision. destruct (Qle_bool a b) eqn:E.
  - left. apply Qle_bool_iff, E.
  - right. intros H. apply Qle_bool_iff in H. congruence.
Defined.

(** [sorted(a)] *)
Definition sorted (a : list Q) : list Q := merge_sort Qle a.

(** [(a != b).all()] for a list [a] and an array [b] of the same length:
    the comparison is made position by position. *)
Definition all_differ (a b : list Q) : bool :=
  forallb id (zip_with (fun x y => negb (Qeq_bool x y)) a b).

(** What NumPy promises of [np.argsort]: the indices of the array, in an
    order that puts its values in ascending order.  The order of equal
    values is left open (the default sort kind is not stable). *)
Definition argsort_contract (argsort : list Q -> list nat) : Prop :=
  forall a,
    argsort a ≡ₚ seq 0 (length a) /\
    forall s, index_with a (argsort a) = Some s -> StronglySorted Qle s.

(** One [argsort] that keeps the contract: a stable merge sort of the
    values paired with their positions. *)
Definition value_le (p q : nat * Q) : Prop := (snd p <= snd q)%Q.

#[global] Instance value_le_dec (p q : nat * Q) : Decision (value_le p q).
Proof. unfold value_le. apply _. Defined.

Definition argsort_stable (a : list Q) : list nat :=
  fst <$> merge_sort value_le (imap pair a).

Section WithArgsort.
Variable argsort : list Q -> list nat.

Definition _sort_wavelengths (self : attributes) : option attributes :=
  let indices := argsort (wavelengths self) in
  w ← index_with (wavelengths self) indices;
  e ← index_with (exposure_times self) indices;
  s ← index_with (start_times self) indices;
  (* [np.array(None)] has no axis to index: [IndexError] *)
  names ← h5_file_names self;
  n ← index_with names indices;
  Some (mkAttributes w e s (Some n) (_config_changed self)).

Definition enforce_consistency (self : attributes) : option attributes :=
  let self :=
    match h5_file_names self with
    | None =>
        mkAttributes (wavelengths self) (exposure_times self)
          (start_times self) (Some (_compute_hdf_names self)) true
    | Some _ => self
    end in
  if all_differ (sorted (wavelengths self)) (wavelengths self)
  then
    _sort_wavelengths
      (mkAttributes (wavelengths self) (exposure_times self)
         (start_times self) (h5_file_names self) true)
  else Some self.

End WithArgsort.


End ConfigFile.

(** ** The reverse beam map

    [Solution.__init__] builds, from the beam map ([beam_map[x, y]] is the
    resonator id at pixel [(x, y)]), the table that [_parse_resonators]
    uses to find the pixel of a resonator id. *)

Module BeamMap.

(** The columns of [np.array([beam_map.ravel(), x_pixels, y_pixels])]: the
    beam map is a list of rows, all of one length; [np.indices] numbers the
    cells of a row-major [ravel]. *)
Definition lookup_table (beam_map : list (list Z))
    : list (Z * (nat * nat)) :=
  mjoin (imap (fun x row => imap (fun y res_id => (res_id, (x, y))) row)
           beam_map).

(** [np.searchsorted(a, v)] for an ascending [a]: the first position whose
    value is not below [v], which is the number of values below [v]. *)
Definition searchsorted (a : list Z) (v : Z) : nat :=
  length (filter (fun k => k < v) a).

(** [a[:, indices] = values], column by column, a later column replacing
    an earlier one at the same index; an index past the end raises
    [IndexError]. *)
Fixpoint assign_columns {A : Type} (a : list A) (columns : list (nat * A))
    : option (list A) :=
  match columns with
  | [] => Some a
  | (i, v) :: columns' =>
      if decide (i < length a)%nat
      then assign_columns (<[i := v]> a) columns'
      else None
  end.

(** What NumPy promises of [argsort] on integers. *)
Definition argsort_contract (argsort : list Z -> list nat) : Prop :=
  forall a,
    argsort a ≡ₚ seq 0 (length a) /\
    forall s,
      ConfigFile.index_with a (argsort a) = Some s -> StronglySorted Z.le s.

Definition id_le (p q : nat * Z) : Prop := snd p <= snd q.

#[global] Instance id_le_dec (p q : nat * Z) : Decision (id_le p q).
Proof. unfold id_le. apply _. Defined.

Definition argsort_stable (a : list Z) : list nat :=
  fst <$> merge_sort id_le (imap pair a).

Section WithArgsort.
Variable argsort : list Z -> list nat.

(** [self._reverse_beam_map], a list of columns [(x, y)] *)
Definition _reverse_beam_map (beam_map : list (list Z))
    : option (list (nat * nat)) :=
  let lookup_table := lookup_table beam_map in
  lookup_table ←
    ConfigFile.index_with lookup_table (argsort (fst <$> lookup_table));
  (* [.max()] of an empty array raises [ValueError] *)
  max ← Histogram.np_maxZ (fst <$> lookup_table);
  let res_ids := seqZ 0 (max + 1) in
  let reverse := replicate (length res_ids) (0%nat, 0%nat) in
  let indices := searchsorted res_ids <$> (fst <$> lookup_table) in
  assign_columns reverse (zip indices (snd <$> lookup_table)).

End WithArgsort.

End BeamMap.

(** ** Collecting the workers' results

    [Calibrator._acquire_data] takes one result from the output queue of
    the workers and puts it into the solution; the queue is the list of
    results in the order in which they arrive. *)

Module Acquire.

(** An entry of [Solution._fit_array] *)
Record fit_element := mkFitElement {
  histograms : list HistogramModel;
  calibration : CalibrationModel
}.

(** What [Worker.run] puts on the output queue *)
Record result := mkResult {
  r_pixel : Z * Z;
  r_wavelengths : list Q;
  r_fit_element : fit_element
}.

(** The calibrator's counter and the fit array of its solution; a pixel
    without an entry holds [None].  Pixels are taken inside the array. *)
Record calibrator := mkCalibrator {
  _acquired : nat;
  _fit_array : gmap (Z * Z) fit_element
}.

Inductive outcome (A : Type) :=
| Returned (a : A)
| Raised           (* an exception *)
| Blocked          (* [output_queue.get()] waits and nothing arrives *)
| OutOfFuel.
Arguments Returned {A} a.
Arguments Raised {A}.
Arguments Blocked {A}.
Arguments OutOfFuel {A}.

(** [a[logic] = v] for a boolean array [logic]; an index error when the
    two lengths differ. *)
Definition assign_mask {A} (a : list A) (logic : list bool) (v : A)
    : option (list A) :=
  if decide (length a = length logic)
  then Some (zip_with (fun old (b : bool) => if b then v else old) a logic)
  else None.

Section WithSolution.
Variable cfg : Configuration.
(** [histogram_model_list[0](pixel=pixel, res_id=res_id)] and
    [calibration_model_list[0](pixel=pixel, res_id=res_id)], the id read
    from the beam map *)
Variable new_histogram_model : Z * Z -> HistogramModel.
Variable new_calibration_model : Z * Z -> CalibrationModel.

(** [Solution.__getitem__] at one pixel: an empty entry is filled with new
    models, one histogram model per wavelength. *)
Definition __getitem__ (pixel : Z * Z)
    (fit_array : gmap (Z * Z) fit_element)
    : fit_element * gmap (Z * Z) fit_element :=
  match fit_array !! pixel with
  | Some results => (results, fit_array)
  | None =>
      let results :=
        mkFitElement
          (replicate (length (wavelengths cfg)) (new_histogram_model pixel))
          (new_calibration_model pixel) in
      (results, <[pixel := results]> fit_array)
  end.

(** One round of the loop over [computed_wavelengths] *)
Definition merge_wavelength (fit_histograms : list HistogramModel)
    (histogram_models : list HistogramModel) (wavelength : Q)
    : option (list HistogramModel) :=
  let logic := map (Qeq_bool wavelength) (wavelengths cfg) in
  selected ← Np.mask fit_histograms logic;
  model ← head selected;
  assign_mask histogram_models logic model.

Fixpoint merge_wavelengths (fit_histograms : list HistogramModel)
    (histogram_models : list HistogramModel) (computed_wavelengths : list Q)
    : option (list HistogramModel) :=
  match computed_wavelengths with
  | [] => Some histogram_models
  | wavelength :: rest =>
      histogram_models ←
        merge_wavelength fit_histograms histogram_models wavelength;
      merge_wavelengths fit_histograms histogram_models rest
  end.

(** What [_acquire_data] does with the result it has taken *)
Definition store_result (h5_safe : bool) (r : result)
    (fit_array : gmap (Z * Z) fit_element)
    : option (gmap (Z * Z) fit_element) :=
  if h5_safe then
    let '(dictionary, fit_array) := __getitem__ (r_pixel r) fit_array in
    histogram_models ←
      merge_wavelengths (histograms (r_fit_element r))
        (histograms dictionary) (r_wavelengths r);
    Some (<[r_pixel r :=
              mkFitElement histogram_models (calibration dictionary)]>
            fit_array)
  else Some (<[r_pixel r := r_fit_element r]> fit_array).

(** [Calibrator._acquire_data]: the value returned, the calibrator and
    the queue afterwards *)
Definition _acquire_data (h5_safe : bool) (n_data : nat)
    (self : calibrator) (output_queue : list result)
    : outcome (bool * calibrator * list result) :=
  if decide (_acquired self = n_data) then
    Returned (false, mkCalibrator 0 (_fit_array self), output_queue)
  else
    match output_queue with
    | [] => Blocked
    | r :: output_queue =>
        match store_result h5_safe r (_fit_array self) with
        | None => Raised
        | Some fit_array =>
            Returned (true, mkCalibrator (S (_acquired self)) fit_array,
                      output_queue)
        end
    end.

(** [while self._acquire_data(h5_safe, n_data, output_queue): pass] *)
Fixpoint collect (fuel : nat) (h5_safe : bool) (n_data : nat)
    (self : calibrator) (output_queue : list result)
    : outcome (calibrator * list result) :=
  match fuel with
  | O => OutOfFuel
  | S fuel =>
      match _acquire_data h5_safe n_data self output_queue with
      | Returned (true, self, output_queue) =>
          collect fuel h5_safe n_data self output_queue
      | Returned (false, self, output_queue) =>
          Returned (self, output_queue)
      | Raised => Raised
      | Blocked => Blocked
      | OutOfFuel => OutOfFuel
      end
  end.

(** The results of the list, received one after the other *)
Fixpoint store_results (h5_safe : bool) (rs : list result)
    (fit_array : gmap (Z * Z) fit_element)
    : option (gmap (Z * Z) fit_element) :=
  match rs with
  | [] => Some fit_array
  | r :: rs' =>
      fit_array ← store_result h5_safe r fit_array;
      store_results h5_safe rs' fit_array
  end.

End WithSolution.

End Acquire.

(** ** Steps that may raise, and their order *)

Module Steps.
Section Steps.
Context {State : Type}.

(** The steps of a list, one after the other *)
Fixpoint run (steps : list (State -> option State)) (s : State) : option State :=
  match steps with
  | [] => Some s
  | a :: steps' => s' ← a s; run steps' s'
  end.

(** Two steps give the same result, or both raise, in either order. *)
Definition commute (a b : State -> option State) : Prop :=
  forall s, (s1 ← a s; b s1) = (s2 ← b s; a s2).

End Steps.
End Steps.

(** Two results of the workers that are not for the same place of the
    solution: they are for different pixels or, where results are merged
    by wavelength, have no wavelength in common. *)
Definition independent_results (h5_safe : bool)
    (r1 r2 : Acquire.result) : Prop :=
  Acquire.r_pixel r1 <> Acquire.r_pixel r2 \/
  (h5_safe = true /\
   forall w1 w2,
     w1 ∈ Acquire.r_wavelengths r1 -> w2 ∈ Acquire.r_wavelengths r2 ->
     ~ (w1 == w2)%Q).

(** Values for the examples: a new calibration model, and the results of
    two workers for pixel [(3, 4)] of [demo_cfg], one for 400 nm and one
    for 500 nm, each with its fitted model (flag 0) at the place of its
    wavelength. *)
Definition demo_calibration_model : CalibrationModel :=
  mkCalibrationModel "Quadratic" (3, 4) 10007 None None None None None 9
    None.

Definition demo_result_400 : Acquire.result :=
  Acquire.mkResult (3, 4) [400%Q]
    (Acquire.mkFitElement [h_set_flag 0 demo_model; demo_model; demo_model]
       demo_calibration_model).

Definition demo_result_500 : Acquire.result :=
  Acquire.mkResult (3, 4) [500%Q]
    (Acquire.mkFitElement [demo_model; h_set_flag 0 demo_model; demo_model]
       demo_calibration_model).

(** * Properties *)

(** ** Rational comparisons *)

Lemma Qltb_lt (a b : Q) : Qltb a b = true <-> (a < b)%Q.
Proof.
  unfold Qltb. rewrite negb_true_iff.
  split; intros Hab.
  - apply Qnot_le_lt. intros Hle. apply Qle_bool_iff in Hle. congruence.
  - destruct (Qle_bool b a) eqn:E; [|reflexivity].
    apply Qle_bool_iff in E. exfalso. exact (Qlt_not_le _ _ Hab E).
Qed.

Lemma Qltb_ge (a b : Q) : Qltb a b = false <-> (b <= a)%Q.
Proof.
  unfold Qltb. rewrite negb_false_iff. apply Qle_bool_iff.
Qed.

(** ** The arrival-time cut *)

Section TailRiding.
Variable dt : Q.

Lemma sort_by_time_perm (l : list photon) : sort_by_time l ≡ₚ l.
Proof. apply merge_sort_Permutation. Qed.

Lemma sort_by_time_sorted (l : list photon) :
  StronglySorted time_le (sort_by_time l).
Proof. apply StronglySorted_merge_sort; apply _. Qed.

Lemma sort_by_time_nil_inv (l : list photon) : sort_by_time l = [] -> l = [].
Proof.
  intros E. apply Permutation_nil_r. rewrite <- E. symmetry. apply sort_by_time_perm.
Qed.

Lemma diff_cons2 (a b : Z) (r : list Z) :
  Np.diff (a :: b :: r) = (b - a) :: Np.diff (b :: r).
Proof. reflexivity. Qed.

Lemma diff_length (a : Z) (r : list Z) : length (Np.diff (a :: r)) = length r.
Proof.
  revert a. induction r as [|b r IH]; intros a; [reflexivity|].
  rewrite diff_cons2. simpl. f_equal. apply IH.
Qed.

(** The mask built from [np.diff] selects by the gap to the predecessor. *)
Lemma select_diff_gap (prev : Z) (r : list photon) :
  Np.select r (map (fun d => Qltb dt (inject_Z d))
                   (Np.diff (prev :: map Time r)))
  = keep_after_gap dt prev r.
Proof.
  revert prev. induction r as [|p r IH]; intros prev; [reflexivity|].
  cbn [map]. rewrite diff_cons2. cbn [map Np.select keep_after_gap].
  rewrite IH. reflexivity.
Qed.

Lemma remove_tail_riding_cons (l s : list photon) (p : photon) :
  sort_by_time l = p :: s ->
  _remove_tail_riding_photons dt l = Some (p :: keep_after_gap dt (Time p) s).
Proof.
  intros E. unfold _remove_tail_riding_photons, Np.mask. rewrite E.
  cbn [map]. rewrite decide_True.
  - cbn [Np.select]. rewrite select_diff_gap. reflexivity.
  - cbn [length]. rewrite length_map, diff_length, length_map. reflexivity.
Qed.

Lemma remove_tail_riding_eq (l : list photon) :
  _remove_tail_riding_photons dt l =
  match l with
  | [] => None
  | _ :: _ => Some (tail_riding_by_predecessor dt l)
  end.
Proof.
  destruct l as [|q l]; [reflexivity|].
  unfold tail_riding_by_predecessor.
  destruct (sort_by_time (q :: l)) as [|p s] eqn:E.
  - apply sort_by_time_nil_inv in E. discriminate.
  - apply remove_tail_riding_cons. exact E.
Qed.

Lemma keep_after_gap_sublist (prev : Z) (r : list photon) :
  sublist (keep_after_gap dt prev r) r.
Proof.
  revert prev. induction r as [|p r IH]; intros prev; cbn.
  - constructor.
  - destruct (Qltb dt _); [apply sublist_skip | apply sublist_cons]; apply IH.
Qed.
End TailRiding.

(** C2, as the code has it. For every non-empty photon list the tail-riding
    removal sorts the events by arrival time and keeps the first event
    together with exactly those events whose time gap from the event just
    before them in time order (whether that one was kept or not) exceeds
    [dt]; on an empty list the boolean index does not fit and the call
    raises. *)
Theorem remove_tail_riding_by_predecessor (dt : Q) (photon_list : list photon) :
  StronglySorted time_le (sort_by_time photon_list) /\
  sort_by_time photon_list ≡ₚ photon_list /\
  _remove_tail_riding_photons dt photon_list =
    match photon_list with
    | [] => None
    | _ :: _ =>
        match sort_by_time photon_list with
        | [] => Some []
        | p :: r => Some (p :: keep_after_gap dt (Time p) r)
        end
    end.
Proof.
  split; [apply sort_by_time_sorted|].
  split; [apply sort_by_time_perm|].
  rewrite remove_tail_riding_eq. unfold tail_riding_by_predecessor.
  destruct photon_list; [reflexivity|].
  destruct (sort_by_time _); reflexivity.
Qed.

(** C2, as worded, fails: with [dt = 7] and arrival times 0, 5, 10, 15 the
    event at 10 is 10 > 7 after the last kept event (the one at 0), yet the
    code drops it because it is only 5 after the dropped event at 5. *)
Lemma tail_riding_previous_kept_counterexample :
  let photon_list :=
    [mkPhoton 0 (-50); mkPhoton 5 (-50); mkPhoton 10 (-50); mkPhoton 15 (-50)] in
  _remove_tail_riding_photons 7 photon_list = Some [mkPhoton 0 (-50)] /\
  tail_riding_as_specified 7 photon_list = [mkPhoton 0 (-50); mkPhoton 10 (-50)] /\
  _remove_tail_riding_photons 7 photon_list
    <> Some (tail_riding_as_specified 7 photon_list).
Proof.
  cbv zeta. split; [vm_compute; reflexivity|].
  split; [vm_compute; reflexivity|].
  vm_compute. discriminate.
Qed.

(** ** Histogram construction *)

Section HistogramLoop.
Import Histogram.
Variable cfg_bin_width : Q.
Variables (min_phase max_phase : Q) (phase_list : list Q).

Lemma loop_body_attempt (st : locals) (a : attempt) (st' : locals) :
  loop_body cfg_bin_width min_phase max_phase phase_list st = Some (a, st') ->
  (update st < 3)%nat ->
  attempt_ok cfg_bin_width max_phase phase_list (update st) a /\
  update st' = S (update st) /\ max_count st' = a_max_count a /\
  centers st' = Some (a_centers a) /\ counts st' = Some (a_counts a).
Proof.
  unfold loop_body, arange, np_histogram. intros H Hlt.
  destruct (Qeq_bool _ 0); [discriminate|]. cbn [mbind option_bind] in H.
  destruct (monotonic _); [|discriminate]. cbn [mbind option_bind] in H.
  destruct (np_maxZ _) as [m|] eqn:Em; [|discriminate].
  cbn [mbind option_bind] in H. injection H as <- <-. cbn.
  repeat split; eauto.
Qed.

Lemma loop_spec (fuel : nat) (st : locals) :
  (3 <= fuel + update st)%nat ->
  forall tr out,
    loop cfg_bin_width fuel min_phase max_phase phase_list st = (tr, out) ->
    out <> OutOfFuel /\
    (length tr + update st <= 3 \/ tr = [])%nat /\
    (forall k a, tr !! k = Some a -> attempt_ok cfg_bin_width max_phase phase_list (update st + k) a) /\
    (forall a, tr !! 0%nat = Some a -> max_count st < 400) /\
    (forall k a b, tr !! k = Some a -> tr !! S k = Some b ->
                   a_max_count a < 400).
Proof.
  revert st. induction fuel as [|fuel IH]; intros st Hfuel tr out.
  - cbn. unfold loop_condition.
    destruct (update st <? 3)%nat eqn:E.
    + apply Nat.ltb_lt in E. lia.
    + rewrite andb_false_r. intros [= <- <-].
      repeat split; try discriminate; auto.
  - cbn [loop]. unfold loop_condition.
    destruct (max_count st <? 400) eqn:Ec; cbn [andb];
      [destruct (update st <? 3)%nat eqn:Eu|]; cbn [andb].
    + apply Nat.ltb_lt in Eu. apply Z.ltb_lt in Ec.
      destruct (loop_body _ _ _ _ st) as [[a st']|] eqn:Eb.
      * destruct (loop_body_attempt _ _ _ Eb Eu) as (Ha & Hu & Hm & _ & _).
        destruct (loop _ fuel _ _ _ st') as [tr' out'] eqn:El.
        intros [= <- <-].
        destruct (IH st' ltac:(lia) _ _ El) as (Ho & Hlen & Hat & Hhd & Hnx).
        split; [exact Ho|].
        split.
        { left. cbn [length]. destruct Hlen as [Hlen| ->]; cbn; lia. }
        split.
        { intros [|k] b Hk; cbn in Hk.
          - injection Hk as <-. rewrite Nat.add_0_r. exact Ha.
          - apply Hat in Hk. rewrite Hu in Hk.
            replace (update st + S k)%nat with (S (update st) + k)%nat by lia.
            exact Hk. }
        split; [intros _ _; exact Ec|].
        intros [|k] b c Hk Hk'; cbn in Hk, Hk'.
        { injection Hk as <-. rewrite <- Hm. eapply Hhd. exact Hk'. }
        { eapply Hnx; eassumption. }
      * intros [= <- <-]. repeat split; try discriminate; auto.
    + intros [= <- <-]. repeat split; try discriminate; auto.
    + intros [= <- <-]. repeat split; try discriminate; auto.
Qed.

(** More fuel than three rounds changes nothing. *)
Lemma loop_fuel_irrelevant (fuel : nat) (st : locals) :
  (3 <= fuel + update st)%nat ->
  loop cfg_bin_width fuel min_phase max_phase phase_list st =
  loop cfg_bin_width (3 - update st) min_phase max_phase phase_list st.
Proof.
  revert st. induction fuel as [|fuel IH]; intros st Hfuel.
  - replace (3 - update st)%nat with 0%nat by lia. reflexivity.
  - destruct (3 - update st)%nat as [|g] eqn:Eg.
    + cbn [loop]. unfold loop_condition.
      replace (update st <? 3)%nat with false
        by (symmetry; apply Nat.ltb_ge; lia).
      rewrite andb_false_r. reflexivity.
    + cbn [loop]. destruct (loop_condition st); [|reflexivity].
      destruct (loop_body _ _ _ _ st) as [[a st']|] eqn:Eb; [|reflexivity].
      assert (update st < 3)%nat as Hlt by lia.
      destruct (loop_body_attempt _ _ _ Eb Hlt) as (_ & Hu & _).
      rewrite (IH st') by lia.
      replace g with (3 - update st')%nat by lia. reflexivity.
Qed.
End HistogramLoop.

(** C6. For every phase list (and so for every non-empty one), once the
    loop of [_histogram] is given room for three rounds it stops: it makes
    at most 3 binning attempts; attempt [k] uses the bin width
    [bin_width * 2^k] and bin edges that start at the maximum phase and
    step backward by that width; and attempt [k+1] is made only if the peak
    count of attempt [k] was below 400 and [k+1 < 3]. *)
Theorem histogram_at_most_three_attempts
    (cfg_bin_width : Q) (fuel : nat) (phase_list : list Q) :
  (3 <= fuel)%nat ->
  let run := Histogram._histogram_trace cfg_bin_width fuel phase_list in
  snd run <> Histogram.OutOfFuel /\
  run = Histogram._histogram_trace cfg_bin_width 3 phase_list /\
  (length (fst run) <= 3)%nat /\
  (forall k a, fst run !! k = Some a ->
     (k < 3)%nat /\
     Histogram.a_bin_width a = (cfg_bin_width * 2 ^ Z.of_nat k)%Q /\
     exists max_phase (n : nat),
       Histogram.np_maxQ phase_list = Some max_phase /\
       Histogram.a_bin_edges a =
       rev (map (fun i : nat =>
                   (max_phase + inject_Z (Z.of_nat i) * - Histogram.a_bin_width a)%Q)
                (seq 0 n))) /\
  (forall k a b, fst run !! k = Some a -> fst run !! S k = Some b ->
     Histogram.a_max_count a < 400 /\ (S k < 3)%nat).
Proof.
  intros Hfuel run. subst run. unfold Histogram._histogram_trace.
  destruct (Histogram.np_minQ phase_list) as [mn|];
    [destruct (Histogram.np_maxQ phase_list) as [mx|]|].
  2,3: cbn; repeat split; try discriminate; try lia.
  set (st0 := Histogram.mkLocals 0 0 None None).
  destruct (Histogram.loop cfg_bin_width fuel mn mx phase_list st0)
    as [tr out] eqn:El.
  destruct (loop_spec cfg_bin_width mn mx phase_list fuel st0
              ltac:(cbn; lia) tr out El) as (Ho & Hlen & Hat & _ & Hnx).
  cbn [fst snd].
  split; [exact Ho|].
  split.
  { rewrite <- El. apply (loop_fuel_irrelevant _ _ _ _ fuel st0). cbn. lia. }
  split.
  { destruct Hlen as [Hlen| ->]; cbn in *; lia. }
  split.
  - intros k a Hk. destruct (Hat k a Hk) as (Hw & He & _ & _ & _ & Hk3).
    cbn in Hw, Hk3. repeat split; auto.
    destruct He as [n He]. exists mx, n. split; auto.
  - intros k a b Hk Hk'. split; [eapply Hnx; eassumption|].
    destruct (Hat (S k) b Hk') as (_ & _ & _ & _ & _ & Hk3). exact Hk3.
Qed.

Lemma histogram_at_most_three_attempts_witness :
  (3 <= 3)%nat /\
  let run := Histogram._histogram_trace 1 3 [-50; -42; -43; -60]%Q in
  snd run <> Histogram.OutOfFuel /\ (length (fst run) <= 3)%nat.
Proof.
  split; [lia|].
  pose proof (histogram_at_most_three_attempts 1 3 [-50; -42; -43; -60]%Q
                ltac:(lia)) as H.
  cbv zeta in *. destruct H as (Ho & _ & Hl & _). split; assumption.
Defined.

(** ** [make_histograms] *)

Section MakeHistogramsFacts.
Import MakeHistograms.
Variable cfg : Configuration.
Variable np_sqrt : Q -> Q.

Lemma make_histogram_few_photons (model : HistogramModel) (l : list photon) :
  (length l < 2)%nat ->
  make_histogram cfg np_sqrt model l = Some (h_set_flag 1 model, NoPhotons).
Proof.
  intros H. unfold make_histogram.
  replace (length l <? 2)%nat with true; [reflexivity|].
  symmetry. apply Nat.ltb_lt. exact H.
Qed.

Lemma remove_tail_riding_nonempty (l : list photon) :
  l <> [] ->
  exists p rest,
    _remove_tail_riding_photons (dt cfg) l = Some (p :: rest) /\
    p ∈ l /\ (forall q, q ∈ l -> Time p <= Time q) /\
    sublist rest (tail (sort_by_time l)).
Proof.
  intros Hne.
  destruct (sort_by_time l) as [|p s] eqn:E.
  { apply sort_by_time_nil_inv in E. contradiction. }
  exists p, (keep_after_gap (dt cfg) (Time p) s).
  split; [apply remove_tail_riding_cons; exact E|].
  pose proof (sort_by_time_perm l) as Hp. rewrite E in Hp.
  pose proof (sort_by_time_sorted l) as Hs. rewrite E in Hs.
  split; [rewrite <- Hp; left|].
  split; [|apply keep_after_gap_sublist].
  intros q Hq. rewrite <- Hp in Hq.
  apply elem_of_cons in Hq as [->|Hq]; [lia|].
  apply StronglySorted_inv in Hs as [_ Hall].
  rewrite Forall_forall in Hall. apply (Hall q Hq).
Qed.

Lemma make_histogram_never_arrival_cut (model : HistogramModel)
    (l : list photon) :
  match make_histogram cfg np_sqrt model l with
  | Some (model', msg) =>
      msg <> ArrivalTimeCut /\
      (h_flag model' = h_flag model \/ h_flag model' = 1 \/
       h_flag model' = 2 \/ h_flag model' = 4)
  | None => True
  end.
Proof.
  unfold make_histogram.
  destruct (length l <? 2)%nat eqn:E2; [cbn; split; [discriminate|auto]|].
  destruct (rate_above_2000 l); [cbn; split; [discriminate|auto]|].
  assert (l <> []) as Hne.
  { intros ->. cbn in E2. discriminate. }
  destruct (remove_tail_riding_nonempty l Hne) as (p & rest & -> & _).
  cbn [mbind option_bind length Nat.eqb].
  destruct (length (filter _ _) =? 0)%nat; [cbn; split; [discriminate|auto]|].
  destruct (Histogram._histogram _ _) as [[c|] [n|]| |]; try exact I.
  cbn. split; [discriminate|auto].
Qed.
End MakeHistogramsFacts.

(** C7. When the photon list of a pixel at a wavelength has fewer than 2
    events, the loop body of [make_histograms] sets the model's flag to 1,
    logs "there are no photons" and leaves [x], [y] and [variance] as they
    were: null for a model to which no histogram was attached before. *)
Theorem few_photons_flag_no_photons
    (cfg : Configuration) (np_sqrt : Q -> Q)
    (model : HistogramModel) (photon_list : list photon) :
  (length photon_list < 2)%nat ->
  exists model',
    MakeHistograms.make_histogram cfg np_sqrt model photon_list
      = Some (model', MakeHistograms.NoPhotons) /\
    h_flag model' = 1 /\
    h_x model' = h_x model /\ h_y model' = h_y model /\
    h_variance model' = h_variance model /\
    (h_x model = None -> h_y model = None ->
     h_x model' = None /\ h_y model' = None).
Proof.
  intros H. exists (h_set_flag 1 model).
  split; [apply make_histogram_few_photons; exact H|].
  cbn. repeat split; auto.
Qed.

Lemma few_photons_flag_no_photons_witness :
  let model := demo_model in
  let photon_list := [mkPhoton 120 (-75)] in
  (length photon_list < 2)%nat /\
  exists model',
    MakeHistograms.make_histogram demo_cfg sqrt_exact model photon_list
      = Some (model', MakeHistograms.NoPhotons) /\
    h_flag model' = 1 /\ h_x model' = None /\ h_y model' = None.
Proof.
  cbv zeta. split; [cbn; lia|].
  destruct (few_photons_flag_no_photons demo_cfg sqrt_exact demo_model
              [mkPhoton 120 (-75)] ltac:(cbn; lia))
    as (m & Hm & Hf & Hx & Hy & _).
  exists m. cbn in Hx, Hy. repeat split; assumption.
Defined.

(** C10. For every non-empty photon list the tail-riding removal returns
    a non-empty list whose first entry is an event of the input with the
    earliest arrival time; hence the loop body of [make_histograms], which
    reaches the arrival-time cut only with at least 2 events, never takes
    the branch that sets flag 3. *)
Theorem tail_riding_keeps_earliest_event
    (cfg : Configuration) (np_sqrt : Q -> Q)
    (model : HistogramModel) (photon_list : list photon) :
  photon_list <> [] ->
  (exists p rest,
      _remove_tail_riding_photons (dt cfg) photon_list = Some (p :: rest) /\
      p ∈ photon_list /\
      (forall q, q ∈ photon_list -> Time p <= Time q)) /\
  match MakeHistograms.make_histogram cfg np_sqrt model photon_list with
  | Some (model', msg) =>
      msg <> MakeHistograms.ArrivalTimeCut /\
      (h_flag model' = h_flag model \/ h_flag model' = 1 \/
       h_flag model' = 2 \/ h_flag model' = 4)
  | None => True
  end.
Proof.
  intros Hne. split.
  - destruct (remove_tail_riding_nonempty cfg photon_list Hne)
      as (p & rest & H1 & H2 & H3 & _).
    exists p, rest. auto.
  - apply make_histogram_never_arrival_cut.
Qed.

Lemma tail_riding_keeps_earliest_event_witness :
  let photon_list := [mkPhoton 900 (-40); mkPhoton 100 (-55); mkPhoton 150 5] in
  photon_list <> [] /\
  exists p rest,
    _remove_tail_riding_photons 200 photon_list = Some (p :: rest) /\
    p ∈ photon_list.
Proof.
  cbv zeta. split; [discriminate|].
  destruct (tail_riding_keeps_earliest_event
              demo_cfg sqrt_exact demo_model
              [mkPhoton 900 (-40); mkPhoton 100 (-55); mkPhoton 150 5]
              ltac:(discriminate)) as [(p & rest & H1 & H2 & _) _].
  exists p, rest. split; assumption.
Defined.

(** ** Model selection *)

Section SelectionFacts.
Context {T : Type}.
Variable best_fit_result : T -> option FitResult.
Variable has_good_solution : T -> bool.

(** While no later model has an AIC below that of [best_model], the loop
    changes neither [best_model] nor [lowest_aic_model]: later models are
    only ever compared with [best_model]. *)
Lemma choose_none_lower (rest : list T) (best_model lowest_aic_model : T)
    (b : FitResult) :
  best_fit_result best_model = Some b ->
  Forall (fun t => exists r, best_fit_result t = Some r /\ (aic b <= aic r)%Q)
         rest ->
  Selection.choose best_fit_result has_good_solution rest best_model
    lowest_aic_model = Some (best_model, lowest_aic_model).
Proof.
  intros Hb Hall. induction Hall as [|t rest (r & Hr & Hle) _ IH];
    [reflexivity|].
  cbn [Selection.choose]. rewrite Hr, Hb. cbn [mbind option_bind].
  apply Qltb_ge in Hle. rewrite Hle. cbn [andb]. exact IH.
Qed.
End SelectionFacts.

(** C1, at the inputs where the code departs from it. When the model tried
    first has no good fit and no other tried model has a lower AIC, the
    model stored is that first model, flagged 7 (or 6 when its fit did not
    converge), whether or not another tried model has a good fit. *)
Theorem assign_best_keeps_bad_first_model {A : Type}
    (has_good_solution : HistogramModel -> bool)
    (first : A * HistogramModel) (rest : list (A * HistogramModel))
    (r0 : FitResult) :
  h_best_fit_result (snd first) = Some r0 ->
  has_good_solution (snd first) = false ->
  Forall (fun t => exists r, h_best_fit_result (snd t) = Some r /\
                             (aic r0 <= aic r)%Q) rest ->
  FitHistograms.assigned has_good_solution (first :: rest) =
  Some (fst first, h_set_flag (if success r0 then 7 else 6) (snd first)).
Proof.
  intros H0 Hbad Hall. unfold FitHistograms.assigned.
  rewrite (choose_none_lower (fun t => h_best_fit_result (snd t))
             (fun t => has_good_solution (snd t)) rest first first r0 H0 Hall).
  cbn [mbind option_bind]. rewrite Hbad, H0. cbn [mbind option_bind].
  destruct (success r0); reflexivity.
Qed.

Lemma assign_best_keeps_bad_first_model_witness :
  let fit good a :=
    mkHistogramModel "GaussianAndExponential" (3, 4) 10007 None None None 9
      (Some (mkFitResult a true [])) (Some good) in
  let first := (0%nat, fit false 5%Q) in
  let rest := [(1%nat, fit true 10%Q)] in
  Exists (fun t => Demo.has_good_solution (snd t) = true) rest /\
  FitHistograms.assigned Demo.has_good_solution (first :: rest) =
  Some (0%nat, h_set_flag 7 (snd first)).
Proof.
  cbv zeta. split; [left; reflexivity|].
  apply (assign_best_keeps_bad_first_model Demo.has_good_solution
           (0%nat, _) [(1%nat, _)] (mkFitResult 5 true [])).
  - reflexivity.
  - reflexivity.
  - repeat constructor. eexists. split; [reflexivity|]. cbn. discriminate.
Defined.

(** The other slip of the same loop: each model is compared with
    [best_model], not with [lowest_aic_model], so with three failed fits
    of AIC 10, 3 and 5 the one stored has AIC 5, not the lowest. *)
Lemma assign_best_not_lowest_aic :
  let fit a :=
    mkHistogramModel "GaussianAndExponential" (3, 4) 10007 None None None 9
      (Some (mkFitResult a true [])) (Some false) in
  fst <$> FitHistograms.assigned Demo.has_good_solution
            [(0%nat, fit 10%Q); (1%nat, fit 3%Q); (2%nat, fit 5%Q)]
  = Some 2%nat.
Proof. reflexivity. Qed.

(** ** The second pass of [fit_histograms] *)

(** C3, at an input where the code departs from it. A pixel with
    histograms at 400, 500 and 600 nm and one configured model class: the
    first pass fails at 400 nm and succeeds at 500 and 600 nm; the second
    pass fits 400 nm again from the 500 nm fit and succeeds ("histogram fit
    recomputed and successful"), but it fits object 0, the object that
    [models[0]] still refers to, while the pixel's array holds object 3,
    the copy stored by the first pass: the stored model for 400 nm keeps
    its failed fit and flag 7. *)
Theorem second_pass_good_refit_not_stored :
  match Demo.fit_histograms_pixel Demo.pixel_store with
  | Some (_, s) =>
      FitHistograms.log s =
        [FitHistograms.BeginFitting 0; FitHistograms.FailedAllModels 0;
         FitHistograms.BeginFitting 1;
         FitHistograms.SuccessfulGuessNumber 1 0 "GaussianAndExponential";
         FitHistograms.ChosenBest 1 "GaussianAndExponential";
         FitHistograms.BeginFitting 2;
         FitHistograms.SuccessfulComputedGuess 2 "GaussianAndExponential";
         FitHistograms.ChosenBest 2 "GaussianAndExponential";
         FitHistograms.Recomputed 0 "GaussianAndExponential"] /\
      FitHistograms.histograms s = [3; 4; 5]%nat /\
      Demo.has_good_solution <$> FitHistograms.objects s !! 0%nat = Some true /\
      Demo.has_good_solution <$> FitHistograms.objects s !! 3%nat = Some false /\
      h_flag <$> FitHistograms.objects s !! 3%nat = Some 7
  | None => False
  end.
Proof. vm_compute. repeat split. Qed.

(** ** The valid domain of the calibration *)

Section DomainFacts.
Import FitCalibrations.
Variable np_sqrt : Q -> Q.

Lemma argmin_from_lt (a : list Q) (i best_i : nat) (best : Q) :
  (best_i < i)%nat -> (argmin_from i best_i best a < i + length a)%nat.
Proof.
  revert i best_i best. induction a as [|v a IH]; intros i best_i best Hlt;
    cbn; [lia|].
  destruct (Qltb v best).
  - specialize (IH (S i) i v ltac:(lia)). lia.
  - specialize (IH (S i) best_i best ltac:(lia)). lia.
Qed.

Lemma argmax_from_lt (a : list Q) (i best_i : nat) (best : Q) :
  (best_i < i)%nat -> (argmax_from i best_i best a < i + length a)%nat.
Proof.
  revert i best_i best. induction a as [|v a IH]; intros i best_i best Hlt;
    cbn; [lia|].
  destruct (Qltb best v).
  - specialize (IH (S i) i v ltac:(lia)). lia.
  - specialize (IH (S i) best_i best ltac:(lia)). lia.
Qed.

Lemma argmin_lt (a : list Q) : a <> [] -> (argmin a < length a)%nat.
Proof.
  destruct a as [|v a]; [congruence|]. intros _. cbn [argmin length].
  pose proof (argmin_from_lt a 1 0 v ltac:(lia)). lia.
Qed.

Lemma argmax_lt (a : list Q) : a <> [] -> (argmax a < length a)%nat.
Proof.
  destruct a as [|v a]; [congruence|]. intros _. cbn [argmax length].
  pose proof (argmax_from_lt a 1 0 v ltac:(lia)). lia.
Qed.

(** The domain the code sets: three times the square ROOT of the
    histogram sigma beyond the extreme phases. *)
Lemma give_data_domain (data : points) (model : CalibrationModel) :
  variance data <> [] ->
  length (phases data) = length (variance data) ->
  length (sigmas data) = length (variance data) ->
  exists x_min s_min x_max s_max,
    phases data !! argmin (phases data) = Some x_min /\
    sigmas data !! argmin (phases data) = Some s_min /\
    phases data !! argmax (phases data) = Some x_max /\
    sigmas data !! argmax (phases data) = Some s_max /\
    give_data np_sqrt data model =
    Some (c_set_domain (Some (x_min - 3 * np_sqrt s_min)%Q)
                       (Some (x_max + 3 * np_sqrt s_max)%Q)
            (c_set_data (Some (phases data)) (Some (energies data))
               (Some (variance data)) model)).
Proof.
  intros Hne Hp Hs.
  assert (phases data <> []) as Hpne.
  { intros E. rewrite E in Hp. destruct (variance data); [congruence|discriminate]. }
  pose proof (argmin_lt _ Hpne) as Hmin.
  pose proof (argmax_lt _ Hpne) as Hmax.
  destruct (lookup_lt_is_Some_2 (phases data) _ Hmin) as [x_min Exmin].
  destruct (lookup_lt_is_Some_2 (phases data) _ Hmax) as [x_max Exmax].
  destruct (lookup_lt_is_Some_2 (sigmas data) (argmin (phases data))
              ltac:(lia)) as [s_min Esmin].
  destruct (lookup_lt_is_Some_2 (sigmas data) (argmax (phases data))
              ltac:(lia)) as [s_max Esmax].
  exists x_min, s_min, x_max, s_max. repeat split; auto.
  unfold give_data. destruct (variance data) eqn:Ev; [congruence|].
  rewrite Exmin, Esmin, Exmax, Esmax. reflexivity.
Qed.
End DomainFacts.

(** C5, at an input where the code departs from it. Three good histogram
    fits with centres -100, -80, -67 and sigma 4 each: the domain the code
    sets is [-100 - 3*sqrt 4, -67 + 3*sqrt 4] = [-106, -61], where 3 sigma
    beyond the extreme points is [-112, -55]. *)
Theorem calibration_domain_takes_root_of_sigma :
  match Demo.fit_calibrations_pixel
          (Demo.new_calibration_model "Quadratic" (3, 4) 10007)
          Demo.fitted_histograms with
  | Some r =>
      FitCalibrations.phases (FitCalibrations.collected r) = [-100; -80; -67]%Q /\
      FitCalibrations.sigmas (FitCalibrations.collected r) = [4; 4; 4]%Q /\
      c_min_x (FitCalibrations.final r) = Some (-106)%Q /\
      c_max_x (FitCalibrations.final r) = Some (-61)%Q /\
      ~ (-106 == -100 - 3 * 4)%Q /\ ~ (-61 == -67 + 3 * 4)%Q
  | None => False
  end.
Proof. vm_compute. repeat split; discriminate. Qed.

(** The same holds whatever the model layer does: when the second pass
    fits [models[index]] again with the first configured class and the fit
    is good, only that object changes. The pixel's array is left as it
    was, so if it no longer refers to that object (the first pass stored a
    copy in its place) the stored model is not the one that was fitted. *)
Section SecondPassFacts.
Import FitHistograms.
Variable cfg : Configuration.
Variable new_model : string -> Z * Z -> Z -> HistogramModel.
Variable issubclass : string -> string -> bool.
Variable max_parameters : HistogramModel -> nat.
Variable model_guess : HistogramModel -> option nat -> Guess.
Variable model_fit : HistogramModel -> Guess -> HistogramModel.
Variable has_good_solution : HistogramModel -> bool.
Variable signal_center : HistogramModel -> Param.

Lemma read_inv (r : ref) (s s' : store) (m : HistogramModel) :
  read r s = Some (m, s') -> s' = s /\ objects s !! r = Some m.
Proof.
  unfold read, of_option. destruct (objects s !! r); cbn; [|discriminate].
  intros [= <- <-]. auto.
Qed.

Lemma map_store_read_inv (refs : list ref) (s s' : store)
  (ms : list HistogramModel) :
  map_store read refs s = Some (ms, s') -> s' = s.
Proof.
  revert ms s'. induction refs as [|r refs IH]; intros ms s'; cbn.
  - intros [= <- <-]. reflexivity.
  - unfold mbind, M_bind, bind.
  destruct (read r s) as [[m s1]|] eqn:Er; [|discriminate].
  apply read_inv in Er as [-> _].
  destruct (map_store read refs s) as [[ms' s2]|] eqn:Em; [|discriminate].
  specialize (IH _ _ eq_refl). subst s2. intros [= <- <-]. reflexivity.
Qed.

(** [_guess] reads the store and leaves it as it is. *)
Lemma _guess_inv (index : nat) (good_solutions : list bool) (s s' : store)
  (guess : Guess) :
  _guess cfg issubclass model_guess signal_center index good_solutions s
  = Some (guess, s') -> s' = s.
Proof.
  unfold _guess, all_stored, mbind, M_bind, bind.
  destruct (map_store read (histograms s) s) as [[ms s1]|] eqn:Em;
  [|discriminate].
  apply map_store_read_inv in Em. subst s1.
  unfold of_option, ret, raise.
  destruct (ms !! index); [|discriminate].
  destruct (neighbour_data _ _ _ _ _ _ _) as [[sc sg]|]; [|discriminate].
  destruct (neighbour_data _ _ _ _ _ _ _) as [[lc lg]|]; [|discriminate].
  destruct sc, lc; try discriminate;
  (destruct (set_value _ _ _); [|discriminate]); intros [= <- <-];
  reflexivity.
Qed.

Lemma second_pass_refit_in_place (models : list ref)
  (good_solutions : list bool) (index : nat) (s : store) (r : ref)
  (m : HistogramModel) (class : string) (rest : list string)
  (guess : Guess) :
  models !! index = Some r ->
  objects s !! r = Some m ->
  retried has_good_solution m good_solutions index = true ->
  histogram_model_names cfg = class :: rest ->
  isinstance issubclass m class = true ->
  _guess cfg issubclass model_guess signal_center index good_solutions s
  = Some (guess, s) ->
  has_good_solution (model_fit m guess) = true ->
  second_pass cfg new_model issubclass model_guess model_fit
  has_good_solution signal_center models good_solutions index s
  = Some (tt, mkStore (<[r := model_fit m guess]> (objects s)) (histograms s)
              (log s ++ [Recomputed index (h_class (model_fit m guess))])).
Proof.
  intros Hr Hm Hretry Hnames Hinst Hguess Hgood.
  unfold second_pass, mbind, M_bind, bind. rewrite Hr. cbn [of_option ret].
  unfold read at 1. rewrite Hm. cbn [of_option ret]. rewrite Hretry, Hnames.
  cbn [second_pass_classes]. unfold mbind, M_bind, bind.
  unfold read at 1. rewrite Hm. cbn [of_option ret]. rewrite Hinst.
  cbn [ret]. rewrite Hguess.
  unfold modify at 1. rewrite Hm.
  unfold read. cbn [objects].
  rewrite list_lookup_insert_eq by (eapply lookup_lt_Some; exact Hm).
  cbn [of_option ret]. rewrite Hgood. reflexivity.
Qed.
End SecondPassFacts.

(** ** The monotonicity test *)

Section MonotonicFacts.
Import FitCalibrations.

Lemma diffQ_lookup (a : list Q) (i : nat) (d : Q) :
  Np.diffQ a !! i = Some d <->
  exists p p', a !! i = Some p /\ a !! S i = Some p' /\ d = (p' - p)%Q.
Proof.
  unfold Np.diffQ. rewrite lookup_zip_with_Some. split.
  - intros (p & p' & -> & Hp & Hp'). rewrite lookup_tail in Hp'. eauto.
  - intros (p & p' & Hp & Hp' & ->). exists p, p'.
    rewrite lookup_tail. auto.
Qed.

Lemma any_below_iff (diff sigma : list Q) :
  any_below diff sigma = true <->
  exists i d s s',
    diff !! i = Some d /\ sigma !! i = Some s /\ sigma !! S i = Some s' /\
    (d < -4 * (s + s'))%Q.
Proof.
  unfold any_below. rewrite existsb_exists. split.
  - intros (b & Hin & Hb). unfold id in Hb. subst b.
    apply list_elem_of_In, list_elem_of_lookup in Hin as [i Hi].
    apply lookup_zip_with_Some in Hi as (d & bound & Hlt & Hd & Hbound).
    apply lookup_zip_with_Some in Hbound as (s & s' & -> & Hs & Hs').
    apply lookup_take_Some in Hs as [Hs _]. rewrite lookup_tail in Hs'.
    exists i, d, s, s'. repeat split; auto. apply Qltb_lt. auto.
  - intros (i & d & s & s' & Hd & Hs & Hs' & Hlt). exists true.
    split; [|reflexivity].
    apply list_elem_of_In, list_elem_of_lookup. exists i.
    apply lookup_zip_with_Some. exists d, (-4 * (s + s'))%Q.
    split; [symmetry; apply Qltb_lt; exact Hlt|]. split; [exact Hd|].
    apply lookup_zip_with_Some. exists s, s'. split; [reflexivity|].
    split; [|rewrite lookup_tail; exact Hs'].
    apply lookup_take_Some. split; [exact Hs|].
    apply lookup_lt_Some in Hs'. lia.
Qed.

Variable np_sqrt : Q -> Q.

Lemma not_monotonic_iff (data : points) :
  not_monotonic np_sqrt data = true <->
  exists i p p' v v',
    phases data !! i = Some p /\ phases data !! S i = Some p' /\
    variance data !! i = Some v /\ variance data !! S i = Some v' /\
    (p' - p < -4 * (np_sqrt v + np_sqrt v'))%Q.
Proof.
  unfold not_monotonic. rewrite any_below_iff. split.
  - intros (i & d & s & s' & Hd & Hs & Hs' & Hlt).
    apply diffQ_lookup in Hd as (p & p' & Hp & Hp' & ->).
    rewrite list_lookup_fmap in Hs, Hs'.
    destruct (variance data !! i) as [v|] eqn:Ev; [|discriminate].
    destruct (variance data !! S i) as [v'|] eqn:Ev'; [|discriminate].
    cbn in Hs, Hs'. injection Hs as <-. injection Hs' as <-.
    exists i, p, p', v, v'. auto.
  - intros (i & p & p' & v & v' & Hp & Hp' & Hv & Hv' & Hlt).
    exists i, (p' - p)%Q, (np_sqrt v), (np_sqrt v').
    split; [apply diffQ_lookup; eauto|].
    rewrite !list_lookup_fmap, Hv, Hv'. auto.
Qed.


Variable hc : Q.
Variable histogram_has_good_solution : HistogramModel -> bool.
Variables signal_center signal_sigma : HistogramModel -> Param.

Lemma collect_lengths (wavelengths : list Q) (models : list HistogramModel) :
  let data := collect hc histogram_has_good_solution signal_center
                signal_sigma wavelengths models in
  length (phases data) = length (variance data) /\
  length (sigmas data) = length (variance data).
Proof.
  revert models. induction wavelengths as [|w ws IH]; intros [|m ms]; cbn;
    auto.
  destruct (histogram_has_good_solution m); cbn.
  - destruct (IH ms) as [H1 H2]. cbn in H1, H2. rewrite H1, H2. auto.
  - apply IH.
Qed.

Variable new_model : string -> Z * Z -> Z -> CalibrationModel.
Variable issubclass : string -> string -> bool.
Variable model_guess : CalibrationModel -> list Param.
Variable model_fit : CalibrationModel -> list Param -> CalibrationModel.
Variable has_good_solution : CalibrationModel -> bool.

(** Every configured class is fitted once. *)
Lemma fit_classes_length (classes : list string) (model : CalibrationModel)
    (tried : list CalibrationModel) (log : list message) :
  length (fst (fit_classes new_model issubclass model_guess model_fit
                 has_good_solution classes model tried log))
  = (length tried + length classes)%nat.
Proof.
  revert model tried log. induction classes as [|c cs IH];
    intros model tried log; cbn [fit_classes].
  - cbn. lia.
  - rewrite IH, length_app. cbn. lia.
Qed.
End MonotonicFacts.




(** ** Saving and loading *)


(** ** More on the selection by AIC *)

Section SelectionMore.
Context {T : Type}.
Variable best_fit_result : T -> option FitResult.
Variable has_good_solution : T -> bool.

Lemma first_lowest_good_snoc_keep (done : list T) (i : nat) (best m : T)
    (rb r : FitResult) :
  first_lowest_good best_fit_result has_good_solution done i best ->
  best_fit_result best = Some rb -> best_fit_result m = Some r ->
  Qltb (aic r) (aic rb) && has_good_solution m = false ->
  first_lowest_good best_fit_result has_good_solution (done ++ [m]) i best.
Proof.
  intros (Hi & Hg & rb' & Hrb' & Hall) Hrb Hr Hno.
  rewrite Hrb in Hrb'. injection Hrb' as <-.
  split; [apply lookup_app_l_Some; exact Hi|]. split; [exact Hg|].
  exists rb. split; [exact Hrb|].
  intros j t rt Hj Hgt Hrt.
  apply lookup_app_Some in Hj as [Hj|[Hlen Hj]].
  - eapply Hall; eassumption.
  - apply list_lookup_singleton_Some in Hj as [_ ->].
    rewrite Hr in Hrt. injection Hrt as <-. rewrite Hgt, andb_true_r in Hno.
    apply Qltb_ge in Hno. split; [exact Hno|].
    intros Hlt. apply lookup_lt_Some in Hi. lia.
Qed.

Lemma first_lowest_good_snoc_new (done : list T) (i : nat) (best m : T)
    (rb r : FitResult) :
  first_lowest_good best_fit_result has_good_solution done i best ->
  best_fit_result best = Some rb -> best_fit_result m = Some r ->
  Qltb (aic r) (aic rb) && has_good_solution m = true ->
  first_lowest_good best_fit_result has_good_solution (done ++ [m])
    (length done) m.
Proof.
  intros (Hi & Hg & rb' & Hrb' & Hall) Hrb Hr Hyes.
  rewrite Hrb in Hrb'. injection Hrb' as <-.
  apply andb_true_iff in Hyes as [Hlt Hgm]. apply Qltb_lt in Hlt.
  split.
  { rewrite lookup_app_r by lia. rewrite Nat.sub_diag. reflexivity. }
  split; [exact Hgm|]. exists r. split; [exact Hr|].
  intros j t rt Hj Hgt Hrt.
  apply lookup_app_Some in Hj as [Hj|[Hlen Hj]].
  - destruct (Hall j t rt Hj Hgt Hrt) as [Hle _].
    assert (aic r < aic rt)%Q by (eapply Qlt_le_trans; eassumption).
    split; [apply Qlt_le_weak|]; auto.
  - apply list_lookup_singleton_Some in Hj as [Hj ->].
    rewrite Hr in Hrt. injection Hrt as <-.
    split; [apply Qle_refl|]. lia.
Qed.

(** Started from a good model, the loop ends on the first of the
    lowest-AIC good models. *)
Lemma choose_first_lowest_good (rest done : list T) (i : nat)
    (best lowest : T) :
  first_lowest_good best_fit_result has_good_solution done i best ->
  Forall (fun t => is_Some (best_fit_result t)) rest ->
  exists best' lowest' i',
    Selection.choose best_fit_result has_good_solution rest best lowest
      = Some (best', lowest') /\
    first_lowest_good best_fit_result has_good_solution (done ++ rest) i' best'.
Proof.
  intros Hinv Hall. revert done i best lowest Hinv.
  induction Hall as [|m rest [r Hr] _ IH]; intros done i best lowest Hinv.
  - exists best, lowest, i. rewrite app_nil_r. auto.
  - cbn [Selection.choose]. rewrite Hr.
    pose proof Hinv as (_ & _ & rb & Hrb & _). rewrite Hrb.
    cbn [mbind option_bind].
    replace (done ++ m :: rest) with ((done ++ [m]) ++ rest)
      by (rewrite <- app_assoc; reflexivity).
    destruct (Qltb (aic r) (aic rb) && has_good_solution m) eqn:E.
    + eapply IH. eapply first_lowest_good_snoc_new; eassumption.
    + eapply IH. eapply first_lowest_good_snoc_keep; eassumption.
Qed.

(** Whatever the first model is, the loop ends on two of the tried
    models, and [lowest_aic_model] has a good fit only if [best_model]
    has one. *)
Lemma choose_members (rest : list T) (best lowest : T) :
  is_Some (best_fit_result best) ->
  is_Some (best_fit_result lowest) ->
  Forall (fun t => is_Some (best_fit_result t)) rest ->
  (has_good_solution lowest = true -> has_good_solution best = true) ->
  exists best' lowest',
    Selection.choose best_fit_result has_good_solution rest best lowest
      = Some (best', lowest') /\
    best' ∈ best :: rest /\ lowest' ∈ lowest :: rest /\
    is_Some (best_fit_result lowest') /\
    (has_good_solution lowest' = true -> has_good_solution best' = true).
Proof.
  intros Hb Hl Hall. revert best lowest Hb Hl.
  induction Hall as [|m rest [r Hr] _ IH]; intros best lowest [rb Hrb] Hl Hgl.
  - exists best, lowest. cbn. repeat split; auto; apply list_elem_of_here.
  - cbn [Selection.choose]. rewrite Hr, Hrb. cbn [mbind option_bind].
    destruct (Qltb (aic r) (aic rb)) eqn:Elow; cbn [andb].
    + destruct (has_good_solution m) eqn:Egm.
      * destruct (IH m m) as (b' & l' & Hc & Hb' & Hl' & Hr' & Hg'); eauto.
        exists b', l'. split; [exact Hc|].
        split; [apply list_elem_of_further; exact Hb'|].
        split; [apply list_elem_of_further; exact Hl'|]. auto.
      * destruct (IH best m) as (b' & l' & Hc & Hb' & Hl' & Hr' & Hg'); eauto.
        { rewrite Egm. discriminate. }
        exists b', l'. split; [exact Hc|].
        split.
        { apply elem_of_cons in Hb' as [->|Hb'];
            [apply list_elem_of_here|do 2 apply list_elem_of_further; exact Hb']. }
        split; [apply list_elem_of_further; exact Hl'|]. auto.
    + destruct (IH best lowest) as (b' & l' & Hc & Hb' & Hl' & Hr' & Hg'); eauto.
      exists b', l'. split; [exact Hc|].
      split.
      { apply elem_of_cons in Hb' as [->|Hb'];
          [apply list_elem_of_here|do 2 apply list_elem_of_further; exact Hb']. }
      split.
      { apply elem_of_cons in Hl' as [->|Hl'];
          [apply list_elem_of_here|do 2 apply list_elem_of_further; exact Hl']. }
      auto.
Qed.
End SelectionMore.

(** X1. [_assign_best_histogram_model], when the model tried first has a
    good fit and every tried model carries a fit result: the model stored
    has a good fit, gets flag 0, has the lowest AIC among the tried models
    with a good fit, and is the first of them in the order tried. *)
Theorem assigned_first_lowest_good {A : Type}
    (has_good_solution : HistogramModel -> bool)
    (first : A * HistogramModel) (rest : list (A * HistogramModel)) :
  has_good_solution (snd first) = true ->
  Forall (fun t => is_Some (h_best_fit_result (snd t))) (first :: rest) ->
  exists i best,
    FitHistograms.assigned has_good_solution (first :: rest)
      = Some (fst best, h_set_flag 0 (snd best)) /\
    first_lowest_good (fun t => h_best_fit_result (snd t))
      (fun t => has_good_solution (snd t)) (first :: rest) i best.
Proof.
  intros Hgood Hall. apply Forall_cons in Hall as [[r0 Hr0] Hall].
  assert (first_lowest_good (fun t : A * HistogramModel => h_best_fit_result (snd t))
            (fun t => has_good_solution (snd t)) [first] 0 first) as Hinit.
  { split; [reflexivity|]. split; [exact Hgood|]. exists r0. split; [exact Hr0|].
    intros j t r Hj _ Hr. apply list_lookup_singleton_Some in Hj as [-> <-].
    rewrite Hr0 in Hr. injection Hr as <-. split; [apply Qle_refl|lia]. }
  destruct (choose_first_lowest_good _ _ rest [first] 0%nat first first Hinit Hall)
    as (best & lowest & i & Hc & Hbest).
  exists i, best. split; [|exact Hbest].
  unfold FitHistograms.assigned. rewrite Hc. cbn [mbind option_bind].
  destruct Hbest as (_ & -> & _). reflexivity.
Qed.

Lemma assigned_first_lowest_good_witness :
  let fit good a :=
    mkHistogramModel "GaussianAndExponential" (3, 4) 10007 None None None 9
      (Some (mkFitResult a true [])) (Some good) in
  let tried :=
    [(0%nat, fit true 10%Q); (1%nat, fit true 5%Q); (2%nat, fit false 1%Q);
     (3%nat, fit true 5%Q)] in
  exists i best,
    FitHistograms.assigned Demo.has_good_solution tried
      = Some (fst best, h_set_flag 0 (snd best)) /\
    tried !! i = Some best.
Proof.
  cbv zeta.
  destruct (assigned_first_lowest_good Demo.has_good_solution
              (0%nat, mkHistogramModel "GaussianAndExponential" (3, 4) 10007
                        None None None 9 (Some (mkFitResult 10 true []))
                        (Some true))
              [(1%nat, mkHistogramModel "GaussianAndExponential" (3, 4) 10007
                         None None None 9 (Some (mkFitResult 5 true []))
                         (Some true));
               (2%nat, mkHistogramModel "GaussianAndExponential" (3, 4) 10007
                         None None None 9 (Some (mkFitResult 1 true []))
                         (Some false));
               (3%nat, mkHistogramModel "GaussianAndExponential" (3, 4) 10007
                         None None None 9 (Some (mkFitResult 5 true []))
                         (Some true))]
              eq_refl ltac:(repeat constructor; eexists; reflexivity))
    as (i & best & Ha & Hi & _).
  exists i, best. split; assumption.
Defined.

(** X2. [_assign_best_histogram_model], for at least one tried model and
    fit results on all of them: the selection does not fail; the model
    stored is one of the tried models, changed in its flag only; the flag
    is 0 exactly when that model has a good fit, and otherwise 6 when its
    fit did not converge and 7 when it did. *)
Theorem assigned_is_tried_model {A : Type}
    (has_good_solution : HistogramModel -> bool)
    (first : A * HistogramModel) (rest : list (A * HistogramModel)) :
  Forall (fun t => is_Some (h_best_fit_result (snd t))) (first :: rest) ->
  exists a m flag,
    FitHistograms.assigned has_good_solution (first :: rest)
      = Some (a, h_set_flag flag m) /\
    (a, m) ∈ first :: rest /\
    ((flag = 0 /\ has_good_solution m = true) \/
     (has_good_solution m = false /\
      exists r, h_best_fit_result m = Some r /\
                flag = if success r then 7 else 6)).
Proof.
  intros Hall. apply Forall_cons in Hall as [H0 Hall].
  destruct (choose_members (fun t : A * HistogramModel => h_best_fit_result (snd t))
              (fun t => has_good_solution (snd t)) rest first first H0 H0 Hall
              (fun H => H))
    as (best & lowest & Hc & Hb & Hl & [r Hr] & Hg).
  unfold FitHistograms.assigned. rewrite Hc. cbn [mbind option_bind].
  destruct (has_good_solution (snd best)) eqn:Eg.
  - exists (fst best), (snd best), 0. split; [reflexivity|].
    split; [destruct best; exact Hb|]. left. auto.
  - rewrite Hr. cbn [mbind option_bind].
    assert (has_good_solution (snd lowest) = false) as Egl.
    { destruct (has_good_solution (snd lowest)) eqn:E; [|reflexivity].
      specialize (Hg eq_refl). cbn in Hg. congruence. }
    exists (fst lowest), (snd lowest), (if success r then 7 else 6).
    split; [destruct (success r); reflexivity|].
    split; [destruct lowest; exact Hl|]. right. eauto.
Qed.

Lemma assigned_is_tried_model_witness :
  let fit good a :=
    mkHistogramModel "GaussianAndExponential" (3, 4) 10007 None None None 9
      (Some (mkFitResult a false [])) (Some good) in
  let tried := [(0%nat, fit false 10%Q); (1%nat, fit false 5%Q)] in
  exists a m flag,
    FitHistograms.assigned Demo.has_good_solution tried
      = Some (a, h_set_flag flag m) /\
    (a, m) ∈ tried.
Proof.
  cbv zeta.
  destruct (assigned_is_tried_model Demo.has_good_solution
              (0%nat, mkHistogramModel "GaussianAndExponential" (3, 4) 10007
                        None None None 9 (Some (mkFitResult 10 false []))
                        (Some false))
              [(1%nat, mkHistogramModel "GaussianAndExponential" (3, 4) 10007
                         None None None 9 (Some (mkFitResult 5 false []))
                         (Some false))]
              ltac:(repeat constructor; eexists; reflexivity))
    as (a & m & flag & Ha & Hin & _).
  exists a, m, flag. split; assumption.
Defined.

(** ** The flag left by [fit_calibrations] *)

Section CalibrationFlag.
Import FitCalibrations.
Variable new_model : string -> Z * Z -> Z -> CalibrationModel.
Variable issubclass : string -> string -> bool.
Variable model_guess : CalibrationModel -> list Param.
Variable model_fit : CalibrationModel -> list Param -> CalibrationModel.
Variable has_good_solution : CalibrationModel -> bool.
Hypothesis fit_leaves_result :
  forall m guess, is_Some (c_best_fit_result (model_fit m guess)).

Lemma fit_classes_results (classes : list string) (model : CalibrationModel)
    (tried : list CalibrationModel) (log : list message) :
  Forall (fun m => is_Some (c_best_fit_result m)) tried ->
  Forall (fun m => is_Some (c_best_fit_result m))
    (fst (fit_classes new_model issubclass model_guess model_fit
            has_good_solution classes model tried log)).
Proof.
  revert model tried log. induction classes as [|c cs IH];
    intros model tried log Hall; cbn [fit_classes]; [exact Hall|].
  apply IH. apply Forall_app. split; [exact Hall|].
  constructor; [apply fit_leaves_result|constructor].
Qed.

Lemma assign_best_calibration_flag (tried : list CalibrationModel) :
  tried <> [] ->
  Forall (fun m => is_Some (c_best_fit_result m)) tried ->
  exists m flag log,
    _assign_best_calibration_model has_good_solution tried
      = Some (c_set_flag flag m, log) /\
    m ∈ tried /\
    ((flag = 10 /\ has_good_solution m = true) \/
     (has_good_solution m = false /\
      exists r, c_best_fit_result m = Some r /\
                flag = if success r then 14 else 13)).
Proof.
  intros Hne Hall. destruct tried as [|first rest]; [congruence|].
  apply Forall_cons in Hall as [H0 Hall].
  destruct (choose_members c_best_fit_result has_good_solution rest first
              first H0 H0 Hall (fun H => H))
    as (best & lowest & Hc & Hb & Hl & [r Hr] & Hg).
  unfold _assign_best_calibration_model. rewrite Hc. cbn [mbind option_bind].
  destruct (has_good_solution best) eqn:Eg.
  - exists best, 10, [ChosenBest (c_class best)]. auto.
  - rewrite Hr. cbn [mbind option_bind].
    assert (has_good_solution lowest = false) as Egl.
    { destruct (has_good_solution lowest) eqn:E; [|reflexivity].
      specialize (Hg eq_refl). congruence. }
    exists lowest, (if success r then 14 else 13), [FailedAllModels].
    split; [destruct (success r); reflexivity|]. split; [exact Hl|].
    right. eauto.
Qed.
End CalibrationFlag.

(** X3. [fit_calibrations], for a pixel, with at least one calibration
    model class configured and a model layer whose [fit] always leaves a
    fit result: the body of the loop does not raise; with fewer than 3
    good histogram fits no model is fitted and the flag is 11; otherwise
    every configured class is fitted and the model stored is one of those
    fits with flag 10 when it has a good solution, 13 or 14 when not. The
    flag 12 set by the monotonicity test is never the one left. *)
Theorem fit_calibrations_final_flag
    (cfg : Configuration) (np_sqrt : Q -> Q) (hc : Q)
    (histogram_has_good_solution : HistogramModel -> bool)
    (signal_center signal_sigma : HistogramModel -> Param)
    (new_model : string -> Z * Z -> Z -> CalibrationModel)
    (issubclass : string -> string -> bool)
    (model_guess : CalibrationModel -> list Param)
    (model_fit : CalibrationModel -> list Param -> CalibrationModel)
    (has_good_solution : CalibrationModel -> bool)
    (model : CalibrationModel) (histogram_models : list HistogramModel) :
  calibration_model_names cfg <> [] ->
  (forall m guess, is_Some (c_best_fit_result (model_fit m guess))) ->
  exists r,
    FitCalibrations.fit_calibrations_pixel cfg np_sqrt hc
      histogram_has_good_solution signal_center signal_sigma new_model
      issubclass model_guess model_fit has_good_solution model
      histogram_models = Some r /\
    (((length (FitCalibrations.variance (FitCalibrations.collected r)) < 3)%nat /\
      FitCalibrations.fitted r = [] /\
      c_flag (FitCalibrations.final r) = 11) \/
     ((3 <= length (FitCalibrations.variance (FitCalibrations.collected r)))%nat /\
      length (FitCalibrations.fitted r) = length (calibration_model_names cfg) /\
      exists m flag,
        m ∈ FitCalibrations.fitted r /\
        FitCalibrations.final r = c_set_flag flag m /\
        ((flag = 10 /\ has_good_solution m = true) \/
         (has_good_solution m = false /\ (flag = 13 \/ flag = 14))))).
Proof.
  intros Hnames Hfit.
  unfold FitCalibrations.fit_calibrations_pixel.
  set (data := FitCalibrations.collect _ _ _ _ _ _).
  destruct (collect_lengths hc histogram_has_good_solution signal_center
              signal_sigma (wavelengths cfg) histogram_models) as [Hp Hs].
  fold data in Hp, Hs.
  assert (exists given, FitCalibrations.give_data np_sqrt data model = Some given)
    as [given Hgiven].
  { assert (FitCalibrations.variance data = [] \/
            FitCalibrations.variance data <> []) as [Ev|Ev]
      by (destruct (FitCalibrations.variance data); [left|right]; congruence).
    - exists model. unfold FitCalibrations.give_data. rewrite Ev. reflexivity.
    - destruct (give_data_domain np_sqrt data model Ev Hp Hs)
        as (? & ? & ? & ? & _ & _ & _ & _ & H). eauto. }
  rewrite Hgiven. cbn [mbind option_bind].
  destruct (length (FitCalibrations.variance data) <? 3)%nat eqn:E3.
  - eexists. split; [reflexivity|]. left. cbn.
    apply Nat.ltb_lt in E3. auto.
  - apply Nat.ltb_ge in E3.
    destruct (FitCalibrations.check_monotonic np_sqrt data given)
      as [checked log0].
    pose proof (fit_classes_length new_model issubclass model_guess model_fit
                  has_good_solution (calibration_model_names cfg) checked []
                  (log0 ++ [FitCalibrations.BeginFitting])) as Hlen.
    pose proof (fit_classes_results new_model issubclass model_guess model_fit
                  has_good_solution Hfit (calibration_model_names cfg) checked
                  [] (log0 ++ [FitCalibrations.BeginFitting])
                  ltac:(constructor)) as Hres.
    destruct (FitCalibrations.fit_classes _ _ _ _ _ _ _ _ _) as [tried log].
    cbn [fst] in Hlen, Hres. cbn [length Nat.add] in Hlen.
    assert (tried <> []) as Hne.
    { intros ->. cbn in Hlen. destruct (calibration_model_names cfg);
        [congruence|discriminate]. }
    destruct (assign_best_calibration_flag has_good_solution tried Hne Hres)
      as (m & flag & log' & Ha & Hin & Hflag).
    rewrite Ha. cbn [mbind option_bind].
    eexists. split; [reflexivity|]. right. cbn.
    split; [exact E3|]. split; [exact Hlen|].
    exists m, flag. split; [exact Hin|]. split; [reflexivity|].
    destruct Hflag as [[-> Hg]|(Hg & r & _ & ->)]; [left; auto|].
    right. split; [exact Hg|]. destruct (success r); auto.
Qed.

Lemma fit_calibrations_final_flag_witness :
  calibration_model_names demo_cfg <> [] /\
  exists r,
    Demo.fit_calibrations_pixel
      (Demo.new_calibration_model "Quadratic" (3, 4) 10007)
      Demo.fitted_histograms = Some r /\
    c_flag (FitCalibrations.final r) <> 12.
Proof.
  split; [discriminate|].
  destruct (fit_calibrations_final_flag demo_cfg sqrt_exact Demo.hc
              Demo.has_good_solution Demo.signal_center Demo.signal_sigma
              Demo.new_calibration_model Demo.issubclass
              Demo.calibration_guess Demo.calibration_fit
              Demo.calibration_has_good_solution
              (Demo.new_calibration_model "Quadratic" (3, 4) 10007)
              Demo.fitted_histograms ltac:(discriminate)
              ltac:(intros; eexists; reflexivity))
    as (r & Hr & Hflag).
  exists r. split; [exact Hr|].
  destruct Hflag as [(_ & _ & ->)|(_ & _ & m & flag & _ & -> & Hf)];
    [discriminate|].
  destruct Hf as [[-> _]|[_ [->| ->]]]; discriminate.
Defined.

(** ** The extreme phases and the domain *)

Section ArgExtreme.
Import FitCalibrations.

Lemma argmin_from_spec (a pre : list Q) (best_i : nat) (best : Q) :
  pre !! best_i = Some best ->
  (forall p, p ∈ pre -> (best <= p)%Q) ->
  exists v,
    (pre ++ a) !! argmin_from (length pre) best_i best a = Some v /\
    forall p, p ∈ pre ++ a -> (v <= p)%Q.
Proof.
  revert pre best_i best. induction a as [|w a IH]; intros pre best_i best Hi Hall.
  - cbn. exists best. rewrite app_nil_r. auto.
  - cbn [argmin_from].
    replace (pre ++ w :: a) with ((pre ++ [w]) ++ a)
      by (rewrite <- app_assoc; reflexivity).
    replace (S (length pre)) with (length (pre ++ [w]))
      by (rewrite length_app; cbn; lia).
    destruct (Qltb w best) eqn:E.
    + apply Qltb_lt in E. apply IH.
      * rewrite lookup_app_r by lia. rewrite Nat.sub_diag. reflexivity.
      * intros p Hp. apply elem_of_app in Hp as [Hp|Hp].
        -- apply Qlt_le_weak. eapply Qlt_le_trans; [exact E|]. auto.
        -- apply list_elem_of_singleton in Hp as ->. apply Qle_refl.
    + apply Qltb_ge in E. apply IH.
      * apply lookup_app_l_Some. exact Hi.
      * intros p Hp. apply elem_of_app in Hp as [Hp|Hp]; [auto|].
        apply list_elem_of_singleton in Hp as ->. exact E.
Qed.

Lemma argmax_from_spec (a pre : list Q) (best_i : nat) (best : Q) :
  pre !! best_i = Some best ->
  (forall p, p ∈ pre -> (p <= best)%Q) ->
  exists v,
    (pre ++ a) !! argmax_from (length pre) best_i best a = Some v /\
    forall p, p ∈ pre ++ a -> (p <= v)%Q.
Proof.
  revert pre best_i best. induction a as [|w a IH]; intros pre best_i best Hi Hall.
  - cbn. exists best. rewrite app_nil_r. auto.
  - cbn [argmax_from].
    replace (pre ++ w :: a) with ((pre ++ [w]) ++ a)
      by (rewrite <- app_assoc; reflexivity).
    replace (S (length pre)) with (length (pre ++ [w]))
      by (rewrite length_app; cbn; lia).
    destruct (Qltb best w) eqn:E.
    + apply Qltb_lt in E. apply IH.
      * rewrite lookup_app_r by lia. rewrite Nat.sub_diag. reflexivity.
      * intros p Hp. apply elem_of_app in Hp as [Hp|Hp].
        -- apply Qlt_le_weak. eapply Qle_lt_trans; [|exact E]. auto.
        -- apply list_elem_of_singleton in Hp as ->. apply Qle_refl.
    + apply Qltb_ge in E. apply IH.
      * apply lookup_app_l_Some. exact Hi.
      * intros p Hp. apply elem_of_app in Hp as [Hp|Hp]; [auto|].
        apply list_elem_of_singleton in Hp as ->. exact E.
Qed.

(** [np.argmin] and [np.argmax] point at a smallest and a largest entry. *)
Lemma argmin_spec (a : list Q) (v : Q) :
  a !! argmin a = Some v -> forall p, p ∈ a -> (v <= p)%Q.
Proof.
  destruct a as [|w a]; [discriminate|]. cbn [argmin].
  destruct (argmin_from_spec a [w] 0 w eq_refl) as (v' & Hv' & Hall).
  { intros p Hp. apply list_elem_of_singleton in Hp as ->. apply Qle_refl. }
  cbn [length app] in Hv', Hall. intros Hv. rewrite Hv in Hv'.
  injection Hv' as <-. exact Hall.
Qed.

Lemma argmax_spec (a : list Q) (v : Q) :
  a !! argmax a = Some v -> forall p, p ∈ a -> (p <= v)%Q.
Proof.
  destruct a as [|w a]; [discriminate|]. cbn [argmax].
  destruct (argmax_from_spec a [w] 0 w eq_refl) as (v' & Hv' & Hall).
  { intros p Hp. apply list_elem_of_singleton in Hp as ->. apply Qle_refl. }
  cbn [length app] in Hv', Hall. intros Hv. rewrite Hv in Hv'.
  injection Hv' as <-. exact Hall.
Qed.
End ArgExtreme.

Lemma sqrt_exact_nonneg (v : Q) : (0 <= sqrt_exact v)%Q.
Proof.
  unfold sqrt_exact, Qle. cbn. pose proof (Z.sqrt_nonneg (Qnum v)). lia.
Qed.

(** X4. "give data to model" in [fit_calibrations]: when there is at least
    one good histogram fit, the sigmas of the fits are not negative and the
    square root is not negative on them, the domain set on the calibration
    model contains every phase given to it as [x]. *)
Theorem calibration_domain_contains_data
    (np_sqrt : Q -> Q) (data : FitCalibrations.points)
    (model : CalibrationModel) :
  (forall s, (0 <= s)%Q -> (0 <= np_sqrt s)%Q) ->
  (forall s, s ∈ FitCalibrations.sigmas data -> (0 <= s)%Q) ->
  FitCalibrations.variance data <> [] ->
  length (FitCalibrations.phases data) = length (FitCalibrations.variance data) ->
  length (FitCalibrations.sigmas data) = length (FitCalibrations.variance data) ->
  exists given min_x max_x,
    FitCalibrations.give_data np_sqrt data model = Some given /\
    c_x given = Some (FitCalibrations.phases data) /\
    c_min_x given = Some min_x /\ c_max_x given = Some max_x /\
    forall p, p ∈ FitCalibrations.phases data -> (min_x <= p <= max_x)%Q.
Proof.
  intros Hsqrt Hsig Hne Hp Hs.
  destruct (give_data_domain np_sqrt data model Hne Hp Hs)
    as (x_min & s_min & x_max & s_max & Hxmin & Hsmin & Hxmax & Hsmax & Hg).
  eexists _, _, _. split; [exact Hg|]. cbn.
  split; [reflexivity|]. split; [reflexivity|]. split; [reflexivity|].
  intros p Hin.
  pose proof (argmin_spec _ _ Hxmin p Hin) as Hlo.
  pose proof (argmax_spec _ _ Hxmax p Hin) as Hhi.
  pose proof (Hsqrt s_min (Hsig s_min (list_elem_of_lookup_2 _ _ _ Hsmin))).
  pose proof (Hsqrt s_max (Hsig s_max (list_elem_of_lookup_2 _ _ _ Hsmax))).
  split; lra.
Qed.

Lemma calibration_domain_contains_data_witness :
  let data :=
    FitCalibrations.mkPoints [-100; -80; -67]%Q [1; 1; 1]%Q [3; 2; 1]%Q
      [4; 4; 4]%Q in
  exists given min_x max_x,
    FitCalibrations.give_data sqrt_exact data
      (Demo.new_calibration_model "Quadratic" (3, 4) 10007) = Some given /\
    c_min_x given = Some min_x /\ c_max_x given = Some max_x /\
    (min_x <= -100)%Q /\ (-67 <= max_x)%Q.
Proof.
  cbv zeta.
  destruct (calibration_domain_contains_data sqrt_exact
              (FitCalibrations.mkPoints [-100; -80; -67]%Q [1; 1; 1]%Q
                 [3; 2; 1]%Q [4; 4; 4]%Q)
              (Demo.new_calibration_model "Quadratic" (3, 4) 10007)
              (fun s _ => sqrt_exact_nonneg s))
    as (given & lo & hi & Hg & _ & Hlo & Hhi & Hall).
  - intros s Hs. cbn in Hs.
    repeat (apply elem_of_cons in Hs as [->|Hs]; [discriminate|]).
    inversion Hs.
  - discriminate.
  - reflexivity.
  - reflexivity.
  - exists given, lo, hi. repeat split; try assumption.
    + apply (Hall (-100)%Q). cbn. apply list_elem_of_here.
    + apply (Hall (-67)%Q). cbn. do 2 apply list_elem_of_further.
      apply list_elem_of_here.
Defined.

(** X5. The monotonicity test of [fit_calibrations]: when the square root
    is not negative and the phase centres of the good histogram fits do not
    decrease from one wavelength to the next, flag 12 is not set. *)
Theorem nondecreasing_phases_not_flagged
    (np_sqrt : Q -> Q) (data : FitCalibrations.points) :
  (forall v, (0 <= np_sqrt v)%Q) ->
  (forall i p p',
      FitCalibrations.phases data !! i = Some p ->
      FitCalibrations.phases data !! S i = Some p' -> (p <= p')%Q) ->
  FitCalibrations.not_monotonic np_sqrt data = false /\
  forall model,
    FitCalibrations.check_monotonic np_sqrt data model = (model, []).
Proof.
  intros Hsqrt Hinc.
  assert (FitCalibrations.not_monotonic np_sqrt data = false) as Hno.
  { destruct (FitCalibrations.not_monotonic np_sqrt data) eqn:E; [|reflexivity].
    apply not_monotonic_iff in E as (i & p & p' & v & v' & Hp & Hp' & _ & _ & Hlt).
    pose proof (Hinc i p p' Hp Hp'). pose proof (Hsqrt v). pose proof (Hsqrt v').
    exfalso. lra. }
  split; [exact Hno|]. intros model.
  unfold FitCalibrations.check_monotonic. rewrite Hno. reflexivity.
Qed.

Lemma nondecreasing_phases_not_flagged_witness :
  FitCalibrations.not_monotonic sqrt_exact
    (FitCalibrations.mkPoints [-100; -80; -80; -67]%Q [1; 4; 1; 1]%Q [] [])
  = false.
Proof.
  apply (nondecreasing_phases_not_flagged sqrt_exact
           (FitCalibrations.mkPoints [-100; -80; -80; -67]%Q [1; 4; 1; 1]%Q
              [] []) sqrt_exact_nonneg).
  intros i p p' Hp Hp'.
  destruct i as [|[|[|[|i]]]]; cbn in Hp, Hp';
    try discriminate; injection Hp as <-; injection Hp' as <-; discriminate.
Defined.

(** ** What a histogram counts *)

Section HistogramCounts.
Import Histogram.
Local Open Scope Q_scope.














End HistogramCounts.

Section HistogramEdges.
Import Histogram.
Local Open Scope Q_scope.
Variables (mx w : Q).
Hypothesis w_pos : 0 < w.






End HistogramEdges.

Section HistogramReturns.
Import Histogram.
Local Open Scope Q_scope.
Variable cfg_bin_width : Q.
Variables (min_phase max_phase : Q) (phase_list : list Q).
Hypothesis bin_width_pos : 0 < cfg_bin_width.
Hypothesis min_phase_ok : np_minQ phase_list = Some min_phase.
Hypothesis max_phase_ok : np_maxQ phase_list = Some max_phase.
Hypothesis spread : min_phase < max_phase.


End HistogramReturns.



Section HistogramRaises.
Import Histogram.
Local Open Scope Q_scope.


End HistogramRaises.



(** ** More on [make_histograms] *)

Section MakeHistogramsMore.
Import MakeHistograms.

Lemma fold_min_max_times (r : list Z) (lo hi : Z) :
  lo <= hi -> fold_left Z.min r lo <= fold_left Z.max r hi.
Proof.
  revert lo hi. induction r as [|t r IH]; intros lo hi H; cbn [fold_left];
    [exact H|]. apply IH. lia.
Qed.

Lemma min_time_le_max_time (l : list photon) : min_time l <= max_time l.
Proof.
  unfold min_time, max_time. destruct (map Time l) as [|t r]; [lia|].
  apply fold_min_max_times. lia.
Qed.

(** The rate test without the division: with a time span of [span]
    microseconds, [n] photons are too many when [span < 500 * n]. *)
Lemma rate_above_2000_iff (l : list photon) :
  l <> [] ->
  rate_above_2000 l = true <->
  max_time l - min_time l < 500 * Z.of_nat (length l).
Proof.
  intros Hne. unfold rate_above_2000.
  pose proof (min_time_le_max_time l) as Hspan.
  assert (0 < Z.of_nat (length l)) as Hn by (destruct l; [congruence|cbn; lia]).
  set (span := max_time l - min_time l) in *.
  set (n := Z.of_nat (length l)) in *.
  destruct (span =? 0) eqn:E0.
  - apply Z.eqb_eq in E0. split; [lia|reflexivity].
  - apply Z.eqb_neq in E0. assert (0 < span) as Hpos by lia.
    assert (0 < inject_Z span)%Q as HposQ
      by (change 0%Q with (inject_Z 0); rewrite <- Zlt_Qlt; exact Hpos).
    rewrite Qltb_lt. split.
    + intros H.
      destruct (Z_lt_le_dec span (500 * n)) as [Hlt|Hge]; [exact Hlt|].
      exfalso. apply (Qlt_not_le _ _ H). apply Qle_shift_div_r; [exact HposQ|].
      change 2000%Q with (inject_Z 2000). rewrite <- inject_Z_mult.
      rewrite <- Zle_Qle. lia.
    + intros H. apply Qlt_shift_div_l; [exact HposQ|].
      change 2000%Q with (inject_Z 2000). rewrite <- inject_Z_mult.
      rewrite <- Zlt_Qlt. lia.
Qed.

Variable cfg : Configuration.
Variable np_sqrt : Q -> Q.


Lemma filter_negative_none (phases : list Q) :
  (forall v, v ∈ phases -> (0 <= v)%Q) ->
  filter (fun v => Qltb v 0 = true) phases = [].
Proof.
  induction phases as [|v phases IH]; intros Hall; [reflexivity|].
  rewrite filter_cons. destruct (decide (Qltb v 0 = true)) as [E|E].
  - apply Qltb_lt in E.
    pose proof (Hall v (list_elem_of_here _ _)). lra.
  - apply IH. intros w Hw. apply Hall, list_elem_of_further, Hw.
Qed.

Lemma remove_tail_riding_elements (l kept : list photon) :
  _remove_tail_riding_photons (dt cfg) l = Some kept ->
  forall p, p ∈ kept -> p ∈ l.
Proof.
  intros Hk p Hp.
  destruct l as [|q l']; [discriminate|].
  destruct (remove_tail_riding_nonempty cfg (q :: l') ltac:(discriminate))
    as (p0 & rest & Hr & Hin & _ & Hsub).
  rewrite Hr in Hk. injection Hk as <-.
  apply elem_of_cons in Hp as [->|Hp]; [exact Hin|].
  rewrite <- (sort_by_time_perm (q :: l')).
  destruct (sort_by_time (q :: l')) as [|s0 srest]; cbn [tail] in Hsub.
  - apply sublist_nil_r in Hsub. subst rest. inversion Hp.
  - apply list_elem_of_further. eapply elem_of_sublist; eassumption.
Qed.
End MakeHistogramsMore.

(** X8. [make_histograms], the hot-pixel test, for a photon list with at
    least 2 events: the pixel is flagged 2 ("too hot") exactly when the
    span between its earliest and latest arrival, in microseconds, is less
    than 500 times the number of events; a span of zero, where the rate is
    a division by zero, is such a case. *)
Theorem too_hot_iff_short_span
    (cfg : Configuration) (np_sqrt : Q -> Q)
    (model : HistogramModel) (photon_list : list photon) :
  (2 <= length photon_list)%nat ->
  (MakeHistograms.make_histogram cfg np_sqrt model photon_list
     = Some (h_set_flag 2 model, MakeHistograms.TooHot)
   <->
   MakeHistograms.max_time photon_list - MakeHistograms.min_time photon_list
     < 500 * Z.of_nat (length photon_list)) /\
  (snd <$> MakeHistograms.make_histogram cfg np_sqrt model photon_list
     = Some MakeHistograms.TooHot
   <->
   MakeHistograms.max_time photon_list - MakeHistograms.min_time photon_list
     < 500 * Z.of_nat (length photon_list)).
Proof.
  intros Hlen.
  assert (photon_list <> []) as Hne by (intros ->; cbn in Hlen; lia).
  pose proof (rate_above_2000_iff photon_list Hne) as Hrate.
  unfold MakeHistograms.make_histogram.
  replace (length photon_list <? 2)%nat with false
    by (symmetry; apply Nat.ltb_ge; exact Hlen).
  destruct (MakeHistograms.rate_above_2000 photon_list) eqn:E.
  - split; (split; [intros _; apply Hrate; reflexivity|reflexivity]).
  - assert (~ MakeHistograms.max_time photon_list
                - MakeHistograms.min_time photon_list
              < 500 * Z.of_nat (length photon_list)) as Hno.
    { intros H. apply Hrate in H. discriminate. }
    destruct (_remove_tail_riding_photons (dt cfg) photon_list) as [kept|];
      cbn [mbind option_bind fmap option_fmap option_map];
      [|split; (split; [discriminate|intros H; contradiction])].
    destruct (length kept =? 0)%nat;
      [split; (split; [discriminate|intros H; contradiction])|].
    destruct (length (filter _ _) =? 0)%nat;
      [split; (split; [discriminate|intros H; contradiction])|].
    destruct (Histogram._histogram _ _) as [[c|] [n|]| |];
      split; (split; [discriminate|intros H; contradiction]).
Qed.

Lemma too_hot_iff_short_span_witness :
  let photon_list := [mkPhoton 100 (-50); mkPhoton 700 (-60)] in
  (2 <= length photon_list)%nat /\
  MakeHistograms.make_histogram demo_cfg sqrt_exact demo_model photon_list
    = Some (h_set_flag 2 demo_model, MakeHistograms.TooHot).
Proof.
  cbv zeta. split; [cbn; lia|].
  apply (too_hot_iff_short_span demo_cfg sqrt_exact demo_model
           [mkPhoton 100 (-50); mkPhoton 700 (-60)] ltac:(cbn; lia)).
  cbn. lia.
Defined.

(** X9. [make_histograms], the negative-phase cut: a photon list with at
    least 2 events that is not too hot and has no negative phase is flagged
    4, and no histogram is attached. *)
Theorem no_negative_phase_flag
    (cfg : Configuration) (np_sqrt : Q -> Q)
    (model : HistogramModel) (photon_list : list photon) :
  (2 <= length photon_list)%nat ->
  MakeHistograms.rate_above_2000 photon_list = false ->
  (forall p, p ∈ photon_list -> (0 <= Wavelength p)%Q) ->
  MakeHistograms.make_histogram cfg np_sqrt model photon_list
    = Some (h_set_flag 4 model, MakeHistograms.NegativePhaseCut) /\
  h_x (h_set_flag 4 model) = h_x model /\
  h_y (h_set_flag 4 model) = h_y model.
Proof.
  intros Hlen Hrate Hpos. split; [|split; reflexivity].
  unfold MakeHistograms.make_histogram.
  replace (length photon_list <? 2)%nat with false
    by (symmetry; apply Nat.ltb_ge; exact Hlen).
  rewrite Hrate.
  assert (photon_list <> []) as Hne by (intros ->; cbn in Hlen; lia).
  destruct (remove_tail_riding_nonempty cfg photon_list Hne)
    as (p0 & rest & Hr & _).
  pose proof (remove_tail_riding_elements cfg photon_list _ Hr) as Hel.
  rewrite Hr. cbn [mbind option_bind length Nat.eqb].
  rewrite filter_negative_none; [reflexivity|].
  intros v Hv. apply list_elem_of_fmap in Hv as (p & -> & Hp).
  apply Hpos, Hel, Hp.
Qed.

Lemma no_negative_phase_flag_witness :
  let photon_list := [mkPhoton 100 5; mkPhoton 9000 0] in
  (2 <= length photon_list)%nat /\
  MakeHistograms.make_histogram demo_cfg sqrt_exact demo_model photon_list
    = Some (h_set_flag 4 demo_model, MakeHistograms.NegativePhaseCut).
Proof.
  cbv zeta. split; [cbn; lia|].
  apply (no_negative_phase_flag demo_cfg sqrt_exact demo_model
           [mkPhoton 100 5; mkPhoton 9000 0] ltac:(cbn; lia) eq_refl).
  intros p Hp. cbn in Hp.
  repeat (apply elem_of_cons in Hp as [->|Hp]; [cbn; discriminate|]).
  inversion Hp.
Defined.



(** ** More on the arrival-time cut *)

Section TailRidingGaps.
Variable dt : Q.

Lemma keep_after_gap_gaps (r : list photon) (a0 : photon) (prev : Z) :
  Time a0 <= prev ->
  (forall q, q ∈ r -> prev <= Time q) ->
  StronglySorted time_le r ->
  forall i a b,
    (a0 :: keep_after_gap dt prev r) !! i = Some a ->
    (a0 :: keep_after_gap dt prev r) !! S i = Some b ->
    (dt < inject_Z (Time b - Time a))%Q.
Proof.
  revert a0 prev. induction r as [|p r IH]; intros a0 prev Ha0 Hprev Hs i a b.
  - cbn. destruct i; discriminate.
  - apply StronglySorted_inv in Hs as [Hs Hall].
    assert (prev <= Time p) as Hp by (apply Hprev, list_elem_of_here).
    assert (forall q, q ∈ r -> Time p <= Time q) as Hr.
    { intros q Hq. rewrite Forall_forall in Hall. apply (Hall q Hq). }
    cbn [keep_after_gap]. destruct (Qltb dt (inject_Z (Time p - prev))) eqn:E.
    + destruct i as [|i]; cbn [lookup list_lookup].
      * intros [= <-] [= <-]. apply Qltb_lt in E.
        eapply Qlt_le_trans; [exact E|]. rewrite <- Zle_Qle. lia.
      * apply (IH p (Time p) ltac:(lia) Hr Hs i a b).
    + apply (IH a0 (Time p) ltac:(lia) Hr Hs i a b).
Qed.
End TailRidingGaps.

Lemma sublist_strongly_sorted {A} (R : A -> A -> Prop) (l k : list A) :
  l `sublist_of` k -> StronglySorted R k -> StronglySorted R l.
Proof.
  induction 1 as [|x l k Hsub IH|x l k Hsub IH]; intros Hs.
  - constructor.
  - apply StronglySorted_inv in Hs as [Hs Hall]. constructor; [auto|].
    rewrite Forall_forall in *. intros y Hy. apply Hall.
    eapply elem_of_sublist; eassumption.
  - apply StronglySorted_inv in Hs as [Hs _]. auto.
Qed.

(** X11. [_remove_tail_riding_photons]: the events returned are in time
    order, they are events of the input (a sublist of the time-sorted
    input), and every two successive ones are more than [dt] apart. *)
Theorem tail_riding_leaves_gaps
    (dt : Q) (photon_list kept : list photon) :
  _remove_tail_riding_photons dt photon_list = Some kept ->
  kept `sublist_of` sort_by_time photon_list /\
  StronglySorted time_le kept /\
  forall i a b,
    kept !! i = Some a -> kept !! S i = Some b ->
    (dt < inject_Z (Time b - Time a))%Q.
Proof.
  intros Hk. destruct photon_list as [|q l]; [discriminate|].
  pose proof (sort_by_time_sorted (q :: l)) as Hs.
  destruct (sort_by_time (q :: l)) as [|p s] eqn:E.
  { apply sort_by_time_nil_inv in E. discriminate. }
  rewrite (remove_tail_riding_cons dt (q :: l) s p E) in Hk.
  injection Hk as <-.
  assert (p :: keep_after_gap dt (Time p) s `sublist_of` p :: s) as Hsub
    by (apply sublist_skip, keep_after_gap_sublist).
  split; [exact Hsub|]. split.
  - eapply sublist_strongly_sorted; eassumption.
  - apply StronglySorted_inv in Hs as [Hs Hall].
    apply keep_after_gap_gaps; [lia| |exact Hs].
    intros x Hx. rewrite Forall_forall in Hall. apply (Hall x Hx).
Qed.

Lemma tail_riding_leaves_gaps_witness :
  exists kept,
    _remove_tail_riding_photons 200
      [mkPhoton 900 (-40); mkPhoton 100 (-55); mkPhoton 150 5;
       mkPhoton 400 (-70)] = Some kept /\
    StronglySorted time_le kept.
Proof.
  exists [mkPhoton 100 (-55); mkPhoton 400 (-70); mkPhoton 900 (-40)].
  split; [reflexivity|].
  exact (proj1 (proj2 (tail_riding_leaves_gaps 200
    [mkPhoton 900 (-40); mkPhoton 100 (-55); mkPhoton 150 5;
     mkPhoton 400 (-70)]
    [mkPhoton 100 (-55); mkPhoton 400 (-70); mkPhoton 900 (-40)]
    eq_refl))).
Defined.

(** ** The configuration's consistency step *)

Section ConfigFileFacts.
Import ConfigFile.

Lemma index_with_nil {A} (a : list A) : index_with a [] = Some [].
Proof. reflexivity. Qed.

Lemma index_with_cons {A} (a : list A) (i : nat) (idx : list nat) :
  index_with a (i :: idx) =
  (x ← a !! i; k ← index_with a idx; Some (x :: k)).
Proof.
  unfold index_with. cbn. destruct (a !! i); reflexivity.
Qed.

Lemma index_with_Some_inv {A} (a : list A) (i : nat) (idx : list nat) k :
  index_with a (i :: idx) = Some k ->
  exists x k', a !! i = Some x /\ index_with a idx = Some k' /\ k = x :: k'.
Proof.
  rewrite index_with_cons. destruct (a !! i) as [x|]; [|discriminate].
  cbn. destruct (index_with a idx) as [k'|]; [|discriminate].
  cbn. intros [= <-]. eauto.
Qed.

Lemma index_with_length {A} (a : list A) (idx : list nat) k :
  index_with a idx = Some k -> length k = length idx.
Proof.
  intros H. symmetry. eapply length_mapM. exact H.
Qed.

Lemma index_with_is_Some {A} (a : list A) (idx : list nat) :
  is_Some (index_with a idx) <-> forall i, i ∈ idx -> (i < length a)%nat.
Proof.
  induction idx as [|i idx IH].
  - split; [intros _ i Hi; inversion Hi | intros _; eexists; reflexivity].
  - rewrite index_with_cons. split.
    + intros [k Hk] j Hj.
      destruct (a !! i) as [x|] eqn:Ei; [|discriminate].
      cbn in Hk. destruct (index_with a idx) as [k'|]; [|discriminate].
      apply elem_of_cons in Hj as [->|Hj].
      * eapply lookup_lt_Some; eassumption.
      * apply IH; [eexists; reflexivity | exact Hj].
    + intros H.
      destruct (lookup_lt_is_Some_2 a i) as [x ->].
      { apply H, list_elem_of_here. }
      destruct (proj2 IH) as [k' ->].
      { intros j Hj. apply H, list_elem_of_further, Hj. }
      eexists; reflexivity.
Qed.



Lemma index_with_seq {A} (a k : list A) :
  index_with (k ++ a) (seq (length k) (length a)) = Some a.
Proof.
  revert k. induction a as [|x a IH]; intros k; [reflexivity|].
  cbn [length seq]. rewrite index_with_cons.
  rewrite lookup_app_r, Nat.sub_diag by lia. cbn.
  specialize (IH (k ++ [x])).
  rewrite <- app_assoc, length_app in IH. cbn in IH.
  rewrite Nat.add_1_r in IH. rewrite IH. reflexivity.
Qed.

Lemma index_with_perm {A} (a : list A) (idx idx' : list nat) k :
  idx ≡ₚ idx' -> index_with a idx = Some k ->
  exists k', index_with a idx' = Some k' /\ k ≡ₚ k'.
Proof.
  intros Hp. revert k.
  induction Hp as [|i idx idx' Hp IH|i j idx|idx1 idx2 idx3 _ IH1 _ IH2];
    intros k Hk.
  - exists k. split; [exact Hk | reflexivity].
  - apply index_with_Some_inv in Hk as (x & k1 & Hx & Hk1 & ->).
    destruct (IH _ Hk1) as (k2 & Hk2 & Hperm).
    exists (x :: k2). rewrite index_with_cons, Hx, Hk2.
    split; [reflexivity | by constructor].
  - apply index_with_Some_inv in Hk as (x & k1 & Hx & Hk1 & ->).
    apply index_with_Some_inv in Hk1 as (y & k2 & Hy & Hk2 & ->).
    exists (y :: x :: k2). rewrite !index_with_cons, Hx, Hy. cbn.
    rewrite Hk2. split; [reflexivity | apply perm_swap].
  - destruct (IH1 _ Hk) as (k2 & Hk2 & Hp12).
    destruct (IH2 _ Hk2) as (k3 & Hk3 & Hp23).
    exists k3. split; [exact Hk3 | etrans; eassumption].
Qed.

(** Indexing by a reordering of all positions reorders the list. *)
Lemma index_with_all_positions {A} (a : list A) (idx : list nat) k :
  idx ≡ₚ seq 0 (length a) -> index_with a idx = Some k -> k ≡ₚ a.
Proof.
  intros Hp Hk.
  destruct (index_with_perm a _ _ k Hp Hk) as (k' & Hk' & Hperm).
  pose proof (index_with_seq a []) as Hseq. cbn in Hseq.
  rewrite Hseq in Hk'. injection Hk' as <-. exact Hperm.
Qed.

Lemma all_differ_inv (a b : list Q) :
  all_differ a b = true ->
  forall i x y, a !! i = Some x -> b !! i = Some y -> ~ (x == y)%Q.
Proof.
  unfold all_differ. revert b.
  induction a as [|x0 a IH]; intros [|y0 b] H i x y Hx Hy;
    try (destruct i; discriminate).
  cbn in H. apply andb_prop in H as [H0 H].
  destruct i as [|i]; cbn in Hx, Hy.
  - injection Hx as <-. injection Hy as <-.
    intros Heq. apply Qeq_bool_iff in Heq. unfold id in H0.
    rewrite Heq in H0. discriminate.
  - eapply IH; eassumption.
Qed.

Lemma sorted_perm (a : list Q) : sorted a ≡ₚ a.
Proof. apply merge_sort_Permutation. Qed.

#[local] Instance Qle_total : Total Qle.
Proof.
  intros x y. destruct (Qlt_le_dec x y) as [H|H]; [left|right]; lra.
Qed.

#[local] Instance Qle_transitive : Transitive Qle.
Proof. intros x y z. apply Qle_trans. Qed.

Lemma sorted_strongly (a : list Q) : StronglySorted Qle (sorted a).
Proof. apply StronglySorted_merge_sort; apply _. Qed.

(** The first entry of [sorted a] is a smallest entry of [a]. *)
Lemma sorted_head_least (w0 : Q) (w : list Q) :
  (forall x, x ∈ w -> (w0 <= x)%Q) ->
  exists x, sorted (w0 :: w) !! 0%nat = Some x /\ (x == w0)%Q.
Proof.
  intros Hleast.
  pose proof (sorted_perm (w0 :: w)) as Hp.
  pose proof (sorted_strongly (w0 :: w)) as Hs.
  destruct (sorted (w0 :: w)) as [|x s] eqn:E.
  { apply Permutation_nil_l in Hp. discriminate. }
  exists x. split; [reflexivity|].
  apply StronglySorted_inv in Hs as [_ Hall]. rewrite Forall_forall in Hall.
  assert (x ∈ w0 :: w) as Hx by (rewrite <- Hp; apply list_elem_of_here).
  assert (w0 ∈ x :: s) as Hw by (rewrite Hp; apply list_elem_of_here).
  apply elem_of_cons in Hx as [->|Hx]; [reflexivity|].
  apply elem_of_cons in Hw as [->|Hw]; [reflexivity|].
  specialize (Hleast x Hx). specialize (Hall w0 Hw). lra.
Qed.

(** *** The stable [argsort] keeps the contract *)

#[local] Instance value_le_total : Total value_le.
Proof. intros p q. unfold value_le. apply Qle_total. Qed.

#[local] Instance value_le_transitive : Transitive value_le.
Proof. intros p q r. unfold value_le. apply Qle_trans. Qed.

Lemma index_with_pairs {A} (a : list A) (ps : list (nat * A)) :
  (forall p, p ∈ ps -> a !! fst p = Some (snd p)) ->
  index_with a (fst <$> ps) = Some (snd <$> ps).
Proof.
  induction ps as [|p ps IH]; intros H; [reflexivity|].
  cbn [fmap list_fmap]. rewrite index_with_cons.
  rewrite (H p) by apply list_elem_of_here. cbn.
  rewrite IH; [reflexivity|].
  intros q Hq. apply H, list_elem_of_further, Hq.
Qed.

Lemma imap_pair_fst {A} (a : list A) :
  fst <$> imap pair a = seq 0 (length a).
Proof.
  apply list_eq. intros i.
  rewrite list_lookup_fmap, list_lookup_imap.
  destruct (a !! i) as [x|] eqn:E; cbn.
  - symmetry. apply lookup_seq. split; [reflexivity|].
    eapply lookup_lt_Some; eassumption.
  - symmetry. apply lookup_seq_ge. apply lookup_ge_None. exact E.
Qed.

Lemma imap_pair_elem {A} (a : list A) (p : nat * A) :
  p ∈ imap pair a -> a !! fst p = Some (snd p).
Proof.
  intros Hp. apply list_elem_of_lookup in Hp as [i Hi].
  rewrite list_lookup_imap in Hi.
  destruct (a !! i) as [x|] eqn:E; [|discriminate].
  cbn in Hi. injection Hi as <-. exact E.
Qed.

Lemma argsort_stable_contract : argsort_contract argsort_stable.
Proof.
  intros a. unfold argsort_stable.
  pose proof (merge_sort_Permutation value_le (imap pair a)) as Hp.
  split.
  - rewrite Hp. rewrite imap_pair_fst. reflexivity.
  - intros s Hs.
    rewrite index_with_pairs in Hs.
    + injection Hs as <-.
      apply (StronglySorted_fmap snd value_le Qle); [auto|].
      apply StronglySorted_merge_sort; apply _.
    + intros p Hin. apply imap_pair_elem. rewrite <- Hp. exact Hin.
Qed.

End ConfigFileFacts.

Section ConfigFileSorting.
Import ConfigFile.

Lemma contract_indices_in_range (argsort : list Q -> list nat)
    {A} (w : list Q) (a : list A) :
  argsort_contract argsort ->
  is_Some (index_with a (argsort w)) <-> (length w <= length a)%nat.
Proof.
  intros Hc. destruct (Hc w) as [Hp _].
  rewrite index_with_is_Some. split.
  - intros H. destruct w as [|x w]; [cbn; lia|].
    assert (length w ∈ argsort (x :: w)) as Hin.
    { rewrite Hp. apply list_elem_of_lookup. exists (length w).
      apply lookup_seq. cbn. lia. }
    specialize (H _ Hin). cbn. lia.
  - intros Hle i Hi. rewrite Hp in Hi.
    apply list_elem_of_lookup in Hi as [j Hj].
    apply lookup_seq in Hj. lia.
Qed.


Lemma all_differ_agree (a b : list Q) i x y :
  a !! i = Some x -> b !! i = Some y -> (x == y)%Q ->
  all_differ a b = false.
Proof.
  intros Hx Hy Heq. destruct (all_differ a b) eqn:E; [|reflexivity].
  destruct (all_differ_inv a b E i x y Hx Hy Heq).
Qed.



End ConfigFileSorting.



(** X13. [Configuration._sort_wavelengths] raises exactly when the file
    names are missing or one of the three companion lists is shorter than
    the wavelength list; a longer list does not raise: the call returns
    with every list cut to the number of wavelengths. *)
Theorem sort_wavelengths_raises_iff_short
    (argsort : list Q -> list nat) (self : ConfigFile.attributes) :
  ConfigFile.argsort_contract argsort ->
  (ConfigFile._sort_wavelengths argsort self = None <->
     ~ exists names,
         ConfigFile.h5_file_names self = Some names /\
         (length (ConfigFile.wavelengths self)
            <= length (ConfigFile.exposure_times self))%nat /\
         (length (ConfigFile.wavelengths self)
            <= length (ConfigFile.start_times self))%nat /\
         (length (ConfigFile.wavelengths self) <= length names)%nat) /\
  forall self',
    ConfigFile._sort_wavelengths argsort self = Some self' ->
    exists names',
      ConfigFile.h5_file_names self' = Some names' /\
      length (ConfigFile.wavelengths self')
        = length (ConfigFile.wavelengths self) /\
      length (ConfigFile.exposure_times self')
        = length (ConfigFile.wavelengths self) /\
      length (ConfigFile.start_times self')
        = length (ConfigFile.wavelengths self) /\
      length names' = length (ConfigFile.wavelengths self).
Proof.
  intros Hc.
  pose proof (contract_indices_in_range argsort
    (ConfigFile.wavelengths self) (ConfigFile.wavelengths self) Hc) as Hw.
  pose proof (contract_indices_in_range argsort
    (ConfigFile.wavelengths self) (ConfigFile.exposure_times self) Hc) as He.
  pose proof (contract_indices_in_range argsort
    (ConfigFile.wavelengths self) (ConfigFile.start_times self) Hc) as Hs.
  assert (length (argsort (ConfigFile.wavelengths self))
            = length (ConfigFile.wavelengths self)) as Hlen.
  { destruct (Hc (ConfigFile.wavelengths self)) as [Hp _].
    rewrite Hp. apply length_seq. }
  unfold ConfigFile._sort_wavelengths.
  destruct (proj2 Hw (le_n _)) as [w Ew]. rewrite Ew. cbn.
  destruct (ConfigFile.index_with (ConfigFile.exposure_times self) _)
    as [e|] eqn:Ee; cbn.
  2:{ split; [|discriminate]. split; [|reflexivity].
      intros _ (names & _ & Hle & _).
      apply He in Hle. destruct Hle; discriminate. }
  destruct (ConfigFile.index_with (ConfigFile.start_times self) _)
    as [s|] eqn:Es; cbn.
  2:{ split; [|discriminate]. split; [|reflexivity].
      intros _ (names & _ & _ & Hle & _).
      apply Hs in Hle. destruct Hle; discriminate. }
  destruct (ConfigFile.h5_file_names self) as [names|] eqn:En; cbn.
  2:{ split; [|discriminate]. split; [|reflexivity].
      intros _ (names & Hn & _). discriminate. }
  pose proof (contract_indices_in_range argsort
    (ConfigFile.wavelengths self) names Hc) as Hn.
  destruct (ConfigFile.index_with names _) as [n|] eqn:En'; cbn.
  2:{ split; [|discriminate]. split; [|reflexivity].
      intros _ (names' & [= <-] & _ & _ & Hle).
      apply Hn in Hle. destruct Hle; discriminate. }
  split.
  - split; [discriminate|]. intros Hno. destruct Hno. exists names.
    split; [reflexivity|].
    split; [apply He; eexists; reflexivity|].
    split; [apply Hs; eexists; reflexivity|].
    apply Hn; eexists; reflexivity.
  - intros self' [= <-]. exists n. cbn. split; [reflexivity|].
    rewrite (index_with_length _ _ _ Ew), (index_with_length _ _ _ Ee),
      (index_with_length _ _ _ Es), (index_with_length _ _ _ En').
    auto.
Qed.

Lemma sort_wavelengths_raises_iff_short_witness :
  exists self' names',
    ConfigFile._sort_wavelengths ConfigFile.argsort_stable
      (ConfigFile.mkAttributes [900%Q; 400%Q] [30; 10; 20]
         [1500; 1000; 1200] (Some ["c.h5"; "a.h5"; "b.h5"]%string) false)
      = Some self' /\
    ConfigFile.h5_file_names self' = Some names' /\
    length names' = 2%nat.
Proof.
  eexists. 
  destruct (proj2 (sort_wavelengths_raises_iff_short
    ConfigFile.argsort_stable
    (ConfigFile.mkAttributes [900%Q; 400%Q] [30; 10; 20]
       [1500; 1000; 1200] (Some ["c.h5"; "a.h5"; "b.h5"]%string) false)
    argsort_stable_contract)
    (ConfigFile.mkAttributes [400%Q; 900%Q] [10; 30]
       [1000; 1500] (Some ["a.h5"; "c.h5"]%string) false) eq_refl)
    as (names' & Hn & _ & _ & _ & Hl).
  exists names'. split; [reflexivity|]. split; assumption.
Defined.

Section ConfigFileNames.
Import ConfigFile.

Lemma string_length_append (s t : string) :
  String.length (String.append s t)
    = (String.length s + String.length t)%nat.
Proof.
  induction s as [|c s IH]; [reflexivity|].
  change (String.append (String c s) t) with (String c (String.append s t)).
  cbn [String.length]. rewrite IH. reflexivity.
Qed.

Lemma string_append_suffix_inj (t s1 s2 : string) :
  String.append s1 t = String.append s2 t -> s1 = s2.
Proof.
  revert s2. induction s1 as [|c s1 IH]; intros [|d s2] H.
  - reflexivity.
  - apply (f_equal String.length) in H.
    rewrite !string_length_append in H. cbn in H. lia.
  - apply (f_equal String.length) in H.
    rewrite !string_length_append in H. cbn in H. lia.
  - change (String c (String.append s1 t) = String d (String.append s2 t))
      in H.
    injection H as -> H. f_equal. apply IH, H.
Qed.

Lemma hdf_name_inj :
  Inj (=) (=) (fun st : Z => String.append (pretty st) ".h5").
Proof.
  intros x y H. apply string_append_suffix_inj in H.
  apply (inj pretty) in H. exact H.
Qed.

End ConfigFileNames.

(** X14. [Configuration._compute_hdf_names] gives one file name per start
    time, in the same order, and two start times get the same name only if
    they are the same number: the names are all different exactly when the
    start times are. *)
Theorem hdf_names_distinct (self : ConfigFile.attributes) :
  length (ConfigFile._compute_hdf_names self)
    = length (ConfigFile.start_times self) /\
  (forall i j st st',
     ConfigFile.start_times self !! i = Some st ->
     ConfigFile.start_times self !! j = Some st' ->
     ConfigFile._compute_hdf_names self !! i
       = ConfigFile._compute_hdf_names self !! j ->
     st = st') /\
  (NoDup (ConfigFile._compute_hdf_names self)
     <-> NoDup (ConfigFile.start_times self)).
Proof.
  unfold ConfigFile._compute_hdf_names. split; [apply length_fmap|]. split.
  - intros i j st st' Hi Hj. rewrite !list_lookup_fmap, Hi, Hj. cbn.
    intros [= H]. apply hdf_name_inj in H. exact H.
  - pose proof hdf_name_inj as Hinj. apply (NoDup_fmap _).
Qed.

(** X15. [Configuration.enforce_consistency] compares the wavelengths with
    their sorted copy position by position and sorts only when they differ
    at every position.  When some position already holds the value it has
    in ascending order, the wavelengths, exposure times and start times are
    left exactly as given, ascending or not; only missing file names are
    filled in. *)
Theorem enforce_consistency_skips_partly_sorted
    (argsort : list Q -> list nat) (self : ConfigFile.attributes)
    (i : nat) (x y : Q) :
  ConfigFile.sorted (ConfigFile.wavelengths self) !! i = Some x ->
  ConfigFile.wavelengths self !! i = Some y ->
  (x == y)%Q ->
  exists self',
    ConfigFile.enforce_consistency argsort self = Some self' /\
    ConfigFile.wavelengths self' = ConfigFile.wavelengths self /\
    ConfigFile.exposure_times self' = ConfigFile.exposure_times self /\
    ConfigFile.start_times self' = ConfigFile.start_times self /\
    ConfigFile.h5_file_names self'
      = Some (default (ConfigFile._compute_hdf_names self)
                (ConfigFile.h5_file_names self)) /\
    ConfigFile._config_changed self'
      = match ConfigFile.h5_file_names self with
        | None => true
        | Some _ => ConfigFile._config_changed self
        end.
Proof.
  intros Hx Hy Heq. unfold ConfigFile.enforce_consistency.
  destruct (ConfigFile.h5_file_names self) as [names|] eqn:En;
    cbn [ConfigFile.wavelengths ConfigFile.exposure_times
         ConfigFile.start_times ConfigFile.h5_file_names
         ConfigFile._config_changed].
  - rewrite (all_differ_agree _ _ i x y Hx Hy Heq).
    eexists. split; [reflexivity|]. rewrite En. auto.
  - rewrite (all_differ_agree _ _ i x y Hx Hy Heq).
    eexists. split; [reflexivity|]. cbn. auto.
Qed.

Lemma enforce_consistency_skips_partly_sorted_witness :
  exists self',
    ConfigFile.enforce_consistency ConfigFile.argsort_stable
      (ConfigFile.mkAttributes [400%Q; 900%Q; 700%Q] [10; 30; 20]
         [1000; 1500; 1200] None false) = Some self' /\
    ConfigFile.wavelengths self' = [400%Q; 900%Q; 700%Q].
Proof.
  destruct (enforce_consistency_skips_partly_sorted
    ConfigFile.argsort_stable
    (ConfigFile.mkAttributes [400%Q; 900%Q; 700%Q] [10; 30; 20]
       [1000; 1500; 1200] None false)
    0%nat 400%Q 400%Q eq_refl eq_refl (Qeq_refl _))
    as (self' & H & Hw & _).
  exists self'. split; assumption.
Defined.



(** ** The neighbours a guess is based on *)

Section GuessNeighbours.
Import FitHistograms.

Lemma last_good_snoc (l : list bool) (g : bool) :
  fold_left (fun acc '(index, good) => if good : bool then Some index else acc)
    (imap (fun i g => (i, g)) (l ++ [g])) None
  = if g then Some (length l)
    else fold_left
           (fun acc '(index, good) => if good : bool then Some index else acc)
           (imap (fun i g => (i, g)) l) None.
Proof.
  rewrite imap_app, fold_left_app. cbn. rewrite Nat.add_0_r. reflexivity.
Qed.

Lemma last_good_spec (l : list bool) :
  match fold_left
          (fun acc '(index, good) => if good : bool then Some index else acc)
          (imap (fun i g => (i, g)) l) None with
  | Some j =>
      l !! j = Some true /\
      forall k, (j < k)%nat -> l !! k <> Some true
  | None => forall k, l !! k <> Some true
  end.
Proof.
  induction l as [|g l IH] using rev_ind.
  - cbn. intros k. discriminate.
  - rewrite last_good_snoc. destruct g.
    + split.
      * rewrite lookup_app_r, Nat.sub_diag by lia. reflexivity.
      * intros k Hk. rewrite lookup_ge_None_2; [discriminate|].
        rewrite length_app. cbn. lia.
    + destruct (fold_left _ _ None) as [j|].
      * destruct IH as [Hj Hlater]. split.
        -- rewrite lookup_app_l; [exact Hj|]. eapply lookup_lt_Some, Hj.
        -- intros k Hk. destruct (decide (k < length l)%nat) as [Hlt|Hge].
           ++ rewrite lookup_app_l by exact Hlt. apply Hlater, Hk.
           ++ rewrite lookup_app_r by lia.
              destruct (k - length l)%nat as [|n]; cbn; discriminate.
      * intros k. destruct (decide (k < length l)%nat) as [Hlt|Hge].
        -- rewrite lookup_app_l by exact Hlt. apply IH.
        -- rewrite lookup_app_r by lia.
           destruct (k - length l)%nat as [|n]; cbn; discriminate.
Qed.

Lemma closest_shorter_spec (good_solutions : list bool) (i : nat) :
  match closest_shorter good_solutions i with
  | Some j =>
      (j < i)%nat /\ good_solutions !! j = Some true /\
      forall k, (j < k < i)%nat -> good_solutions !! k <> Some true
  | None => forall k, (k < i)%nat -> good_solutions !! k <> Some true
  end.
Proof.
  unfold closest_shorter.
  pose proof (last_good_spec (take i good_solutions)) as H.
  destruct (fold_left _ _ None) as [j|].
  - destruct H as [Hj Hlater].
    assert (j < i)%nat as Hji.
    { destruct (decide (j < i)%nat) as [?|Hge]; [assumption|].
      rewrite lookup_take_ge in Hj by lia. discriminate. }
    rewrite lookup_take_lt in Hj by exact Hji.
    split; [exact Hji|]. split; [exact Hj|].
    intros k [Hk1 Hk2]. specialize (Hlater k Hk1).
    rewrite lookup_take_lt in Hlater by exact Hk2. exact Hlater.
  - intros k Hk. specialize (H k).
    rewrite lookup_take_lt in H by exact Hk. exact H.
Qed.

Lemma closest_longer_spec (good_solutions : list bool) (i : nat) :
  match closest_longer good_solutions i with
  | Some j =>
      (i < j)%nat /\ good_solutions !! j = Some true /\
      forall k, (i < k < j)%nat -> good_solutions !! k <> Some true
  | None => forall k, (i < k)%nat -> good_solutions !! k <> Some true
  end.
Proof.
  unfold closest_longer.
  destruct (list_find (fun g => g = true) (drop (i + 1) good_solutions))
    as [[n g]|] eqn:E; cbn.
  - apply list_find_Some in E as (Hn & -> & Hfirst).
    rewrite lookup_drop in Hn.
    split; [lia|]. split; [exact Hn|].
    intros k [Hk1 Hk2] Hk.
    apply (Hfirst (k - (i + 1))%nat true); [|lia|reflexivity].
    rewrite lookup_drop. replace (i + 1 + (k - (i + 1)))%nat with k by lia.
    exact Hk.
  - apply list_find_None in E. rewrite Forall_forall in E.
    intros k Hk Hgood. apply (E true); [|reflexivity].
    apply list_elem_of_lookup. exists (k - (i + 1))%nat.
    rewrite lookup_drop. replace (i + 1 + (k - (i + 1)))%nat with k by lia.
    exact Hgood.
Qed.

Lemma closest_shorter_Some (good_solutions : list bool) (i j : nat) :
  closest_shorter good_solutions i = Some j
  <-> (j < i)%nat /\ good_solutions !! j = Some true /\
      forall k, (j < k < i)%nat -> good_solutions !! k <> Some true.
Proof.
  pose proof (closest_shorter_spec good_solutions i) as H. split.
  - intros E. rewrite E in H. exact H.
  - intros (Hj1 & Hj2 & Hj3).
    destruct (closest_shorter good_solutions i) as [s|].
    + destruct H as (Hs1 & Hs2 & Hs3). f_equal.
      destruct (Nat.lt_trichotomy j s) as [Hlt|[Heq|Hgt]]; [|auto|].
      * destruct (Hj3 s); [lia | assumption].
      * destruct (Hs3 j); [lia | assumption].
    + destruct (H j Hj1 Hj2).
Qed.

Lemma closest_shorter_None (good_solutions : list bool) (i : nat) :
  closest_shorter good_solutions i = None
  <-> forall k, (k < i)%nat -> good_solutions !! k <> Some true.
Proof.
  pose proof (closest_shorter_spec good_solutions i) as H. split.
  - intros E. rewrite E in H. exact H.
  - intros Hnone. destruct (closest_shorter good_solutions i) as [s|];
      [|reflexivity].
    destruct H as (Hs1 & Hs2 & _). destruct (Hnone s Hs1 Hs2).
Qed.

Lemma closest_longer_Some (good_solutions : list bool) (i j : nat) :
  closest_longer good_solutions i = Some j
  <-> (i < j)%nat /\ good_solutions !! j = Some true /\
      forall k, (i < k < j)%nat -> good_solutions !! k <> Some true.
Proof.
  pose proof (closest_longer_spec good_solutions i) as H. split.
  - intros E. rewrite E in H. exact H.
  - intros (Hj1 & Hj2 & Hj3).
    destruct (closest_longer good_solutions i) as [l|].
    + destruct H as (Hl1 & Hl2 & Hl3). f_equal.
      destruct (Nat.lt_trichotomy j l) as [Hlt|[Heq|Hgt]]; [|auto|].
      * destruct (Hl3 j); [lia | assumption].
      * destruct (Hj3 l); [lia | assumption].
    + destruct (H j Hj1 Hj2).
Qed.

Lemma closest_longer_None (good_solutions : list bool) (i : nat) :
  closest_longer good_solutions i = None
  <-> forall k, (i < k)%nat -> good_solutions !! k <> Some true.
Proof.
  pose proof (closest_longer_spec good_solutions i) as H. split.
  - intros E. rewrite E in H. exact H.
  - intros Hnone. destruct (closest_longer good_solutions i) as [l|];
      [|reflexivity].
    destruct H as (Hl1 & Hl2 & _). destruct (Hnone l Hl1 Hl2).
Qed.

End GuessNeighbours.

(** X17. [Calibrator._guess], the two search loops: the shorter-wavelength
    neighbour is the nearest index below [wavelength_index] with a good
    fit, the longer-wavelength neighbour the nearest index above it with a
    good fit, and a neighbour is missing only when no index on that side
    has a good fit. *)
Theorem guess_neighbours_are_closest
    (good_solutions : list bool) (wavelength_index : nat) :
  (forall j,
     FitHistograms.closest_shorter good_solutions wavelength_index = Some j
     <-> (j < wavelength_index)%nat /\ good_solutions !! j = Some true /\
         forall k, (j < k < wavelength_index)%nat ->
                   good_solutions !! k <> Some true) /\
  (FitHistograms.closest_shorter good_solutions wavelength_index = None
     <-> forall k, (k < wavelength_index)%nat ->
                   good_solutions !! k <> Some true) /\
  (forall j,
     FitHistograms.closest_longer good_solutions wavelength_index = Some j
     <-> (wavelength_index < j)%nat /\ good_solutions !! j = Some true /\
         forall k, (wavelength_index < k < j)%nat ->
                   good_solutions !! k <> Some true) /\
  (FitHistograms.closest_longer good_solutions wavelength_index = None
     <-> forall k, (wavelength_index < k)%nat ->
                   good_solutions !! k <> Some true).
Proof.
  split; [intros j; apply closest_shorter_Some|].
  split; [apply closest_shorter_None|].
  split; [intros j; apply closest_longer_Some|].
  apply closest_longer_None.
Qed.

(** ** The reverse beam map *)

Section BeamMapFacts.
Import BeamMap.

Lemma lookup_table_elem (beam_map : list (list Z)) (res_id : Z) (x y : nat) :
  (res_id, (x, y)) ∈ lookup_table beam_map
  <-> exists row, beam_map !! x = Some row /\ row !! y = Some res_id.
Proof.
  unfold lookup_table. rewrite list_elem_of_join. split.
  - intros (l & Hin & Hl).
    apply elem_of_lookup_imap in Hl as (x' & row & -> & Hrow).
    apply elem_of_lookup_imap in Hin as (y' & v & [= -> -> ->] & Hv).
    eauto.
  - intros (row & Hrow & Hv).
    exists (imap (fun y res_id => (res_id, (x, y))) row). split.
    + apply (elem_of_lookup_imap_2
               (fun y res_id => (res_id, (x, y))) row res_id y Hv).
    + apply (elem_of_lookup_imap_2
               (fun x row => imap (fun y res_id => (res_id, (x, y))) row)
               beam_map row x Hrow).
Qed.

Lemma searchsorted_seq (v : Z) (k : nat) :
  length (filter (fun z => z < v)
            ((fun i : nat => Z.of_nat i + 0) <$> seq 0 k))
  = Nat.min (Z.to_nat v) k.
Proof.
  induction k as [|k IH]; [cbn; lia|].
  rewrite seq_S, fmap_app, filter_app, length_app, IH. cbn [fmap list_fmap].
  rewrite filter_cons, filter_nil. cbn [Nat.add].
  case_decide; cbn [length]; lia.
Qed.

Lemma searchsorted_arange (v n : Z) :
  searchsorted (seqZ 0 n) v = Nat.min (Z.to_nat v) (Z.to_nat n).
Proof. unfold searchsorted, seqZ. apply searchsorted_seq. Qed.

Lemma assign_columns_length {A} (columns : list (nat * A)) (a a' : list A) :
  assign_columns a columns = Some a' -> length a' = length a.
Proof.
  revert a. induction columns as [|[i v] columns IH]; intros a H; cbn in H.
  - injection H as <-. reflexivity.
  - case_decide; [|discriminate].
    rewrite (IH _ H). apply length_insert.
Qed.

Lemma assign_columns_is_Some {A} (columns : list (nat * A)) (a : list A) :
  is_Some (assign_columns a columns)
  <-> forall p, p ∈ columns -> (fst p < length a)%nat.
Proof.
  revert a. induction columns as [|[i v] columns IH]; intros a; cbn.
  - split; [intros _ p Hp; inversion Hp | intros _; eexists; reflexivity].
  - case_decide as Hi.
    + rewrite IH. rewrite length_insert. split.
      * intros H p Hp. apply elem_of_cons in Hp as [->|Hp]; [exact Hi|].
        apply H, Hp.
      * intros H p Hp. apply H, list_elem_of_further, Hp.
    + split; [intros [? ?]; discriminate|].
      intros H. destruct Hi. apply (H (i, v)), list_elem_of_here.
Qed.

(** A column that is never assigned keeps its value. *)
Lemma assign_columns_untouched {A} (columns : list (nat * A))
    (a a' : list A) (c : nat) :
  assign_columns a columns = Some a' ->
  (forall p, p ∈ columns -> fst p <> c) ->
  a' !! c = a !! c.
Proof.
  revert a. induction columns as [|[i v] columns IH]; intros a H Hc;
    cbn in H.
  - injection H as <-. reflexivity.
  - case_decide; [|discriminate].
    rewrite (IH _ H).
    + apply list_lookup_insert_ne.
      apply (Hc (i, v)), list_elem_of_here.
    + intros p Hp. apply Hc, list_elem_of_further, Hp.
Qed.

(** A column that is only ever assigned [v] holds [v], in whatever order
    the assignments are made. *)
Lemma assign_columns_single_value {A} (columns : list (nat * A))
    (a a' : list A) (c : nat) (v : A) :
  assign_columns a columns = Some a' ->
  (forall p, p ∈ columns -> fst p = c -> snd p = v) ->
  a !! c = Some v \/ (exists p, p ∈ columns /\ fst p = c) ->
  a' !! c = Some v.
Proof.
  revert a. induction columns as [|[i w] columns IH]; intros a H Hv Hc;
    cbn in H.
  - injection H as <-. destruct Hc as [Hc|(p & Hp & _)]; [exact Hc|].
    inversion Hp.
  - case_decide as Hi; [|discriminate].
    apply (IH _ H).
    + intros p Hp. apply Hv, list_elem_of_further, Hp.
    + destruct (decide (i = c)) as [->|Hne].
      * left. pose proof (Hv (c, w) (list_elem_of_here _ _) eq_refl) as Hw.
        cbn in Hw. subst w. apply list_lookup_insert_eq. exact Hi.
      * rewrite list_lookup_insert_ne by exact Hne.
        destruct Hc as [Hc|(p & Hp & Hpc)]; [left; exact Hc|].
        right. exists p. split; [|exact Hpc].
        apply elem_of_cons in Hp as [->|Hp]; [|exact Hp].
        destruct Hne. exact Hpc.
Qed.

Lemma np_maxZ_spec (a : list Z) :
  match Histogram.np_maxZ a with
  | Some m => m ∈ a /\ forall v, v ∈ a -> v <= m
  | None => a = []
  end.
Proof.
  destruct a as [|v r]; [reflexivity|]. cbn.
  assert (forall r v,
    (fold_left Z.max r v = v \/ fold_left Z.max r v ∈ r) /\
    v <= fold_left Z.max r v /\
    forall u, u ∈ r -> u <= fold_left Z.max r v) as H.
  { clear. induction r as [|u r IH]; intros v; cbn.
    - split; [left; reflexivity|]. split; [lia|].
      intros u Hu. inversion Hu.
    - destruct (IH (Z.max v u)) as (Hin & Hle & Hall).
      split; [|split].
      + destruct Hin as [Heq|Hin].
        * destruct (Z.max_spec v u) as [[_ Hm]|[_ Hm]].
          -- right. rewrite Heq, Hm. apply list_elem_of_here.
          -- left. rewrite Heq. exact Hm.
        * right. apply list_elem_of_further, Hin.
      + lia.
      + intros w Hw. apply elem_of_cons in Hw as [->|Hw]; [lia|].
        apply Hall, Hw. }
  destruct (H r v) as (Hin & Hle & Hall). split.
  - destruct Hin as [->|Hin]; [apply list_elem_of_here|].
    apply list_elem_of_further, Hin.
  - intros u Hu. apply elem_of_cons in Hu as [->|Hu]; [exact Hle|].
    apply Hall, Hu.
Qed.

Lemma zip_fmap_fst_snd {A B C} (f : A -> C) (t : list (A * B)) :
  zip (f <$> (fst <$> t)) (snd <$> t) = (fun p => (f (fst p), snd p)) <$> t.
Proof.
  induction t as [|[a b] t IH]; [reflexivity|]. cbn. rewrite <- IH.
  reflexivity.
Qed.

(** What the construction comes to: the cells of the beam map in some
    order, each written to the column of its id, ids below 0 to column 0. *)
Lemma reverse_beam_map_run (argsort : list Z -> list nat)
    (beam_map : list (list Z)) :
  argsort_contract argsort ->
  exists t,
    t ≡ₚ lookup_table beam_map /\
    _reverse_beam_map argsort beam_map =
      (m ← Histogram.np_maxZ (fst <$> t);
       assign_columns (replicate (Z.to_nat (m + 1)) (0%nat, 0%nat))
         ((fun p => (Nat.min (Z.to_nat (fst p)) (Z.to_nat (m + 1)), snd p))
            <$> t)).
Proof.
  intros Hc. unfold _reverse_beam_map.
  destruct (Hc (fst <$> lookup_table beam_map)) as [Hp _].
  rewrite length_fmap in Hp.
  destruct (proj2 (index_with_is_Some (lookup_table beam_map)
    (argsort (fst <$> lookup_table beam_map)))) as [t Ht].
  { intros i Hi. rewrite Hp in Hi.
    apply list_elem_of_lookup in Hi as [j Hj]. apply lookup_seq in Hj. lia. }
  exists t. split.
  - eapply index_with_all_positions; eassumption.
  - rewrite Ht. cbn.
    destruct (Histogram.np_maxZ (fst <$> t)) as [m|]; [|reflexivity]. cbn.
    rewrite length_seqZ, zip_fmap_fst_snd. f_equal.
    apply list_fmap_ext. intros i p _. cbn.
    rewrite searchsorted_arange. reflexivity.
Qed.

#[local] Instance id_le_total : Total id_le.
Proof. intros p q. unfold id_le. lia. Qed.

#[local] Instance id_le_transitive : Transitive id_le.
Proof. intros p q r. unfold id_le. lia. Qed.

Lemma beam_map_argsort_stable_contract : argsort_contract argsort_stable.
Proof.
  intros a. unfold argsort_stable.
  pose proof (merge_sort_Permutation id_le (imap pair a)) as Hp.
  split.
  - rewrite Hp. rewrite imap_pair_fst. reflexivity.
  - intros s Hs.
    rewrite index_with_pairs in Hs.
    + injection Hs as <-.
      apply (StronglySorted_fmap snd id_le Z.le); [auto|].
      apply StronglySorted_merge_sort; apply _.
    + intros p Hin. apply imap_pair_elem. rewrite <- Hp. exact Hin.
Qed.

End BeamMapFacts.

(** X18. The reverse beam map built by [Solution.__init__] finds the pixel
    of a resonator id: for a pixel [(x, y)] whose id is not negative and
    is carried by no other pixel (a negative id counting as 0), the
    construction does not raise and column [res_id] of the table holds
    [(x, y)]. *)
Theorem reverse_beam_map_finds_pixel
    (argsort : list Z -> list nat) (beam_map : list (list Z))
    (x y : nat) (row : list Z) (res_id : Z) :
  BeamMap.argsort_contract argsort ->
  beam_map !! x = Some row -> row !! y = Some res_id ->
  0 <= res_id ->
  (forall x' y' row' res_id',
     beam_map !! x' = Some row' -> row' !! y' = Some res_id' ->
     Z.max res_id' 0 = res_id -> (x', y') = (x, y)) ->
  exists reverse,
    BeamMap._reverse_beam_map argsort beam_map = Some reverse /\
    reverse !! Z.to_nat res_id = Some (x, y).
Proof.
  intros Hc Hrow Hid Hpos Huniq.
  destruct (reverse_beam_map_run argsort beam_map Hc) as (t & Hperm & ->).
  assert ((res_id, (x, y)) ∈ t) as Hin.
  { rewrite Hperm. apply lookup_table_elem. eauto. }
  pose proof (np_maxZ_spec (fst <$> t)) as Hmax.
  destruct (Histogram.np_maxZ (fst <$> t)) as [m|].
  2:{ apply fmap_nil_inv in Hmax. subst t. inversion Hin. }
  destruct Hmax as [_ Hmax]. cbn.
  assert (forall p, p ∈ t -> fst p <= m) as Hle.
  { intros p Hp. apply Hmax, list_elem_of_fmap. eauto. }
  pose proof (Hle _ Hin) as Hidm. cbn in Hidm.
  destruct (proj2 (assign_columns_is_Some
    ((fun p => (Nat.min (Z.to_nat (fst p)) (Z.to_nat (m + 1)), snd p))
       <$> t)
    (replicate (Z.to_nat (m + 1)) (0%nat, 0%nat)))) as [reverse Hrev].
  { intros q Hq. apply list_elem_of_fmap in Hq as (p & -> & Hp).
    rewrite length_replicate. cbn. specialize (Hle p Hp). lia. }
  exists reverse. split; [exact Hrev|].
  eapply assign_columns_single_value; [exact Hrev| |].
  - intros q Hq Hidx. apply list_elem_of_fmap in Hq as (p & -> & Hp).
    cbn in Hidx |- *. destruct p as [v [x' y']]. cbn in *.
    rewrite Hperm in Hp. apply lookup_table_elem in Hp as (row' & Hr & Hv).
    apply (Huniq x' y' row' v Hr Hv). specialize (Hle (v, (x', y'))).
    assert (v <= m).
    { apply Hmax, list_elem_of_fmap. exists (v, (x', y')). split; [done|].
      rewrite Hperm. apply lookup_table_elem. eauto. }
    lia.
  - right. eexists. split.
    + apply list_elem_of_fmap. exists (res_id, (x, y)). split; [reflexivity|].
      exact Hin.
    + cbn. lia.
Qed.

Lemma reverse_beam_map_finds_pixel_witness :
  exists reverse,
    BeamMap._reverse_beam_map BeamMap.argsort_stable
      [[4; 1]; [0; 2]] = Some reverse /\
    reverse !! 2%nat = Some (1%nat, 1%nat).
Proof.
  apply (reverse_beam_map_finds_pixel BeamMap.argsort_stable
           [[4; 1]; [0; 2]] 1 1 [0; 2] 2).
  - exact beam_map_argsort_stable_contract.
  - reflexivity.
  - reflexivity.
  - lia.
  - intros [|[|x']] [|[|y']] row' res_id' Hr Hv Hm; cbn in Hr, Hv;
      try discriminate; try (destruct x'; discriminate);
      try (destruct y'; discriminate);
      injection Hr as <-; cbn in Hv;
      try discriminate; try (destruct y'; discriminate);
      injection Hv as <-; try reflexivity; discriminate.
Defined.

Section BeamMapShape.
Import BeamMap.

Lemma reverse_columns_in_range (t : list (Z * (nat * nat))) (m : Z) :
  0 <= m -> (forall p, p ∈ t -> fst p <= m) ->
  is_Some
    (assign_columns (replicate (Z.to_nat (m + 1)) (0%nat, 0%nat))
       ((fun p => (Nat.min (Z.to_nat (fst p)) (Z.to_nat (m + 1)), snd p))
          <$> t)).
Proof.
  intros Hm Hle. apply assign_columns_is_Some.
  intros q Hq. apply list_elem_of_fmap in Hq as (p & -> & Hp).
  rewrite length_replicate. cbn. specialize (Hle p Hp). lia.
Qed.

Lemma reverse_columns_negative (t : list (Z * (nat * nat))) (m : Z) :
  m < 0 -> t <> [] ->
  assign_columns (replicate (Z.to_nat (m + 1)) (0%nat, 0%nat))
    ((fun p => (Nat.min (Z.to_nat (fst p)) (Z.to_nat (m + 1)), snd p))
       <$> t) = None.
Proof.
  intros Hm Ht. destruct t as [|p t]; [congruence|].
  replace (Z.to_nat (m + 1)) with 0%nat by lia. cbn.
  case_decide; [lia | reflexivity].
Qed.

End BeamMapShape.

(** X19. The reverse beam map of [Solution.__init__]: the construction
    raises exactly when the beam map has no pixel with an id of 0 or more;
    otherwise the table has one column per id from 0 to the largest id of
    the beam map, and the column of an id that no pixel carries holds
    [(0, 0)], the same as for a resonator at pixel [(0, 0)]. *)
Theorem reverse_beam_map_unused_ids
    (argsort : list Z -> list nat) (beam_map : list (list Z)) :
  BeamMap.argsort_contract argsort ->
  (BeamMap._reverse_beam_map argsort beam_map = None <->
     forall x y row res_id,
       beam_map !! x = Some row -> row !! y = Some res_id -> res_id < 0) /\
  forall reverse,
    BeamMap._reverse_beam_map argsort beam_map = Some reverse ->
    (forall x y row res_id,
       beam_map !! x = Some row -> row !! y = Some res_id ->
       res_id < Z.of_nat (length reverse)) /\
    (exists x y row,
       beam_map !! x = Some row /\
       row !! y = Some (Z.of_nat (length reverse) - 1)) /\
    forall r,
      (r < length reverse)%nat ->
      (forall x y row res_id,
         beam_map !! x = Some row -> row !! y = Some res_id ->
         Z.max res_id 0 <> Z.of_nat r) ->
      reverse !! r = Some (0%nat, 0%nat).
Proof.
  intros Hc.
  destruct (reverse_beam_map_run argsort beam_map Hc) as (t & Hperm & ->).
  assert (forall v x y, (v, (x, y)) ∈ t <->
            exists row, beam_map !! x = Some row /\ row !! y = Some v)
    as Hcells.
  { intros v x y. rewrite Hperm. apply lookup_table_elem. }
  pose proof (np_maxZ_spec (fst <$> t)) as Hmax.
  destruct (Histogram.np_maxZ (fst <$> t)) as [m|]; cbn.
  - destruct Hmax as [Hm Hmax].
    assert (forall p, p ∈ t -> fst p <= m) as Hle.
    { intros p Hp. apply Hmax, list_elem_of_fmap. eauto. }
    apply list_elem_of_fmap in Hm as ([v [mx my]] & Hv & Hm).
    cbn in Hv. subst v.
    destruct (decide (0 <= m)) as [Hpos|Hneg].
    + destruct (reverse_columns_in_range t m Hpos Hle) as [reverse Hrev].
      rewrite Hrev. split.
      * split; [discriminate|]. intros Hall.
        apply Hcells in Hm as (row & Hr & Hv).
        specialize (Hall _ _ _ _ Hr Hv). lia.
      * intros ? [= <-].
        pose proof (assign_columns_length _ _ _ Hrev) as Hlen.
        rewrite length_replicate in Hlen. rewrite Hlen.
        split; [|split].
        -- intros x y row v Hr Hv.
           assert ((v, (x, y)) ∈ t) as Hin by (apply Hcells; eauto).
           specialize (Hle _ Hin). cbn in Hle. lia.
        -- apply Hcells in Hm as (row & Hr & Hv).
           exists mx, my, row. split; [exact Hr|].
           replace (Z.of_nat (Z.to_nat (m + 1)) - 1) with m by lia.
           exact Hv.
        -- intros r Hr Hunused.
           rewrite (assign_columns_untouched _ _ _ r Hrev).
           ++ apply lookup_replicate_2. exact Hr.
           ++ intros q Hq. apply list_elem_of_fmap in Hq as (p & -> & Hp).
              cbn. destruct p as [v [x y]]. cbn.
              pose proof (Hle _ Hp) as Hvm. cbn in Hvm.
              apply Hcells in Hp as (row & Hrow & Hv).
              specialize (Hunused _ _ _ _ Hrow Hv). lia.
    + rewrite reverse_columns_negative; [|lia|].
      2:{ intros ->. inversion Hm. }
      split; [|discriminate]. split; [|reflexivity].
      intros _ x y row v Hr Hv.
      assert ((v, (x, y)) ∈ t) as Hin by (apply Hcells; eauto).
      specialize (Hle _ Hin). cbn in Hle. lia.
  - apply fmap_nil_inv in Hmax. subst t.
    split; [|discriminate]. split; [|reflexivity].
    intros _ x y row v Hr Hv.
    assert ((v, (x, y)) ∈ []) as Hin by (apply Hcells; eauto).
    inversion Hin.
Qed.

Lemma reverse_beam_map_unused_ids_witness :
  exists reverse,
    BeamMap._reverse_beam_map BeamMap.argsort_stable
      [[4; 1]; [0; 2]] = Some reverse /\
    reverse !! 3%nat = Some (0%nat, 0%nat).
Proof.
  exists [(1, 0); (0, 1); (1, 1); (0, 0); (0, 0)]%nat.
  split; [reflexivity|].
  refine (proj2 (proj2 (proj2 (reverse_beam_map_unused_ids
    BeamMap.argsort_stable [[4; 1]; [0; 2]]
    beam_map_argsort_stable_contract)
    [(1, 0); (0, 1); (1, 1); (0, 0); (0, 0)]%nat eq_refl)) 3%nat _ _).
  - cbn. lia.
  - intros [|[|x]] [|[|y]] row res_id Hr Hv; cbn in Hr, Hv;
      try discriminate; try (destruct x; discriminate);
      injection Hr as <-; cbn in Hv;
      try discriminate; try (destruct y; discriminate);
      injection Hv as <-; lia.
Defined.

(** ** Collecting the workers' results *)

Section AcquireFacts.
Import Acquire.
Variable cfg : Configuration.
Variable new_histogram_model : Z * Z -> HistogramModel.
Variable new_calibration_model : Z * Z -> CalibrationModel.

Lemma collect_enough (h5_safe : bool) (n_data : nat)
    (output_queue : list result) :
  forall (fuel : nat) (self : calibrator),
    (length output_queue < fuel)%nat ->
    (_acquired self <= n_data)%nat ->
    (n_data - _acquired self <= length output_queue)%nat ->
    collect cfg new_histogram_model new_calibration_model fuel h5_safe
      n_data self output_queue =
    match store_results cfg new_histogram_model new_calibration_model
            h5_safe (take (n_data - _acquired self) output_queue)
            (_fit_array self) with
    | Some fit_array =>
        Returned (mkCalibrator 0 fit_array,
                  drop (n_data - _acquired self) output_queue)
    | None => Raised
    end.
Proof.
  induction output_queue as [|r q IH]; intros fuel self Hfuel Hle Hmissing.
  - destruct fuel as [|fuel]; [cbn in Hfuel; lia|].
    cbn in Hmissing. cbn [collect]. unfold _acquire_data.
    case_decide as Hd; [|lia].
    replace (n_data - _acquired self)%nat with 0%nat by lia. reflexivity.
  - destruct fuel as [|fuel]; [cbn in Hfuel; lia|].
    cbn [collect]. unfold _acquire_data. case_decide as Hd.
    + replace (n_data - _acquired self)%nat with 0%nat by lia. reflexivity.
    + destruct (n_data - _acquired self)%nat as [|k] eqn:Ek; [lia|].
      cbn [take drop store_results]. cbn in Hfuel, Hmissing.
      destruct (store_result _ _ _ h5_safe r (_fit_array self)) as [fa|];
        [|reflexivity].
      cbn. rewrite IH; cbn; try lia.
      replace (n_data - S (_acquired self))%nat with k by lia. reflexivity.
Qed.

Lemma collect_short (h5_safe : bool) (n_data : nat)
    (output_queue : list result) :
  forall (fuel : nat) (self : calibrator),
    (length output_queue < fuel)%nat ->
    (_acquired self <= n_data)%nat ->
    (length output_queue < n_data - _acquired self)%nat ->
    collect cfg new_histogram_model new_calibration_model fuel h5_safe
      n_data self output_queue =
    match store_results cfg new_histogram_model new_calibration_model
            h5_safe output_queue (_fit_array self) with
    | Some _ => Blocked
    | None => Raised
    end.
Proof.
  induction output_queue as [|r q IH]; intros fuel self Hfuel Hle Hmissing.
  - destruct fuel as [|fuel]; [cbn in Hfuel; lia|].
    cbn in Hmissing. cbn [collect]. unfold _acquire_data.
    case_decide as Hd; [lia|]. reflexivity.
  - destruct fuel as [|fuel]; [cbn in Hfuel; lia|].
    cbn [collect]. unfold _acquire_data. cbn in Hfuel, Hmissing.
    case_decide as Hd; [lia|].
    cbn [store_results].
    destruct (store_result _ _ _ h5_safe r (_fit_array self)) as [fa|];
      [|reflexivity].
    cbn. rewrite IH; cbn; try lia. reflexivity.
Qed.

End AcquireFacts.

(** X20. The collection loop [while self._acquire_data(...): pass] of
    [Calibrator._parallel]: with [_acquired] results already taken, it
    takes exactly the [n_data - _acquired] next results of the queue, puts
    them into the solution in their order of arrival, leaves the rest of
    the queue alone and ends with the counter back at 0.  When fewer
    results arrive it never returns: it waits on the queue after the last
    one (or has raised before). *)
Theorem collect_takes_missing_results
    (cfg : Configuration)
    (new_histogram_model : Z * Z -> HistogramModel)
    (new_calibration_model : Z * Z -> CalibrationModel)
    (h5_safe : bool) (n_data : nat) (self : Acquire.calibrator)
    (output_queue : list Acquire.result) :
  (Acquire._acquired self <= n_data)%nat ->
  Acquire.collect cfg new_histogram_model new_calibration_model
    (S (length output_queue)) h5_safe n_data self output_queue =
  if decide (n_data - Acquire._acquired self <= length output_queue)%nat
  then
    match Acquire.store_results cfg new_histogram_model
            new_calibration_model h5_safe
            (take (n_data - Acquire._acquired self) output_queue)
            (Acquire._fit_array self) with
    | Some fit_array =>
        Acquire.Returned
          (Acquire.mkCalibrator 0 fit_array,
           drop (n_data - Acquire._acquired self) output_queue)
    | None => Acquire.Raised
    end
  else
    match Acquire.store_results cfg new_histogram_model
            new_calibration_model h5_safe output_queue
            (Acquire._fit_array self) with
    | Some _ => Acquire.Blocked
    | None => Acquire.Raised
    end.
Proof.
  intros Hle. case_decide as Hd.
  - apply collect_enough; [lia | exact Hle | exact Hd].
  - apply collect_short; [lia | exact Hle | lia].
Qed.

(** ** Steps in another order *)

Section StepsFacts.
Import Steps.
Context {State : Type}.

Lemma commute_sym (a b : State -> option State) : commute a b -> commute b a.
Proof. intros H s. symmetry. apply H. Qed.

Lemma commute_refl (a : State -> option State) : commute a a.
Proof. intros s. reflexivity. Qed.

Lemma run_app (l1 l2 : list (State -> option State)) (s : State) :
  run (l1 ++ l2) s = (s' ← run l1 s; run l2 s').
Proof.
  revert s. induction l1 as [|a l1 IH]; intros s; [reflexivity|].
  cbn. destruct (a s) as [s1|]; cbn; [apply IH | reflexivity].
Qed.

Lemma run_past (a : State -> option State)
    (l : list (State -> option State)) :
  (forall b, b ∈ l -> commute a b) ->
  forall s, (s1 ← a s; run l s1) = (s2 ← run l s; a s2).
Proof.
  induction l as [|b l IH]; intros Hc s.
  - cbn. destruct (a s); reflexivity.
  - pose proof (Hc b (list_elem_of_here _ _) s) as Hab.
    assert (forall b', b' ∈ l -> commute a b') as Hc'.
    { intros b' Hb'. apply Hc, list_elem_of_further, Hb'. }
    specialize (IH Hc').
    cbn [run].
    transitivity ((s1 ← a s; b s1) ≫= run l).
    { destruct (a s); reflexivity. }
    rewrite Hab.
    destruct (b s) as [s2|]; cbn; [|reflexivity].
    apply IH.
Qed.

Lemma run_blocks (l1 l2 : list (State -> option State)) :
  (forall a b, a ∈ l1 -> b ∈ l2 -> commute a b) ->
  forall s, (s1 ← run l1 s; run l2 s1) = (s2 ← run l2 s; run l1 s2).
Proof.
  induction l1 as [|a l1 IH]; intros Hc s.
  - cbn. destruct (run l2 s); reflexivity.
  - cbn [run].
    assert (forall b, b ∈ l2 -> commute a b) as Ha.
    { intros b Hb. apply Hc; [apply list_elem_of_here | exact Hb]. }
    assert (forall a' b, a' ∈ l1 -> b ∈ l2 -> commute a' b) as Hc'.
    { intros a' b Ha' Hb. apply Hc; [apply list_elem_of_further, Ha'|exact Hb]. }
    specialize (IH Hc').
    transitivity (s1 ← a s; s2 ← run l2 s1; run l1 s2).
    { destruct (a s) as [s1|]; cbn; [apply IH | reflexivity]. }
    transitivity ((s1 ← a s; run l2 s1) ≫= run l1).
    { destruct (a s); reflexivity. }
    rewrite (run_past a l2 Ha s).
    destruct (run l2 s); reflexivity.
Qed.

Lemma run_perm (l l' : list (State -> option State)) :
  l ≡ₚ l' ->
  (forall a b, a ∈ l -> b ∈ l -> commute a b) ->
  forall s, run l s = run l' s.
Proof.
  induction 1 as [|a l l' Hp IH|a b l|l1 l2 l3 Hp1 IH1 Hp2 IH2];
    intros Hc s.
  - reflexivity.
  - cbn. destruct (a s) as [s1|]; cbn; [|reflexivity].
    apply IH. intros x y Hx Hy.
    apply Hc; apply list_elem_of_further; assumption.
  - cbn [run].
    assert (commute b a) as Hba.
    { apply Hc; [apply list_elem_of_here|].
      apply list_elem_of_further, list_elem_of_here. }
    transitivity ((s1 ← b s; a s1) ≫= run l).
    { destruct (b s); reflexivity. }
    rewrite (Hba s). destruct (a s); reflexivity.
  - rewrite (IH1 Hc s). apply IH2.
    intros x y Hx Hy. apply Hc; rewrite Hp1; assumption.
Qed.

End StepsFacts.

(** ** Results of the workers in another order *)

Section AcquireOrder.
Import Acquire.
Variable cfg : Configuration.
Variable new_histogram_model : Z * Z -> HistogramModel.
Variable new_calibration_model : Z * Z -> CalibrationModel.

Lemma assign_mask_length {A} (a a' : list A) (logic : list bool) (v : A) :
  assign_mask a logic v = Some a' -> length a' = length a.
Proof.
  unfold assign_mask. case_decide as Hl; [|discriminate].
  intros [= <-]. rewrite length_zip_with. lia.
Qed.

Lemma zip_with_masks_commute {A} (c : list Q) (P1 P2 : Q -> bool)
    (m1 m2 : A) :
  (forall x, x ∈ c -> P1 x = true -> P2 x = true -> False) ->
  forall h : list A,
    zip_with (fun old (b : bool) => if b then m2 else old)
      (zip_with (fun old (b : bool) => if b then m1 else old) h (map P1 c))
      (map P2 c)
    = zip_with (fun old (b : bool) => if b then m1 else old)
        (zip_with (fun old (b : bool) => if b then m2 else old) h (map P2 c))
        (map P1 c).
Proof.
  induction c as [|x c IH]; intros Hd h.
  - destruct h; reflexivity.
  - destruct h as [|v h]; [reflexivity|]. cbn.
    rewrite IH.
    + f_equal. destruct (P1 x) eqn:E1, (P2 x) eqn:E2; try reflexivity.
      destruct (Hd x (list_elem_of_here _ _) E1 E2).
    + intros y Hy. apply Hd, list_elem_of_further, Hy.
Qed.

Lemma assign_mask_commute {A} (c : list Q) (P1 P2 : Q -> bool)
    (m1 m2 : A) (h : list A) :
  (forall x, x ∈ c -> P1 x = true -> P2 x = true -> False) ->
  (h1 ← assign_mask h (map P1 c) m1; assign_mask h1 (map P2 c) m2)
  = (h2 ← assign_mask h (map P2 c) m2; assign_mask h2 (map P1 c) m1).
Proof.
  intros Hd. unfold assign_mask. rewrite !length_map.
  case_decide as Hl; cbn; [|reflexivity].
  rewrite !length_zip_with, !length_map.
  rewrite !decide_True by lia.
  f_equal. apply zip_with_masks_commute, Hd.
Qed.

Lemma merge_wavelength_commute (f1 f2 : list HistogramModel) (w1 w2 : Q) :
  ~ (w1 == w2)%Q ->
  Steps.commute (fun h => merge_wavelength cfg f1 h w1)
                (fun h => merge_wavelength cfg f2 h w2).
Proof.
  intros Hne h. unfold merge_wavelength.
  destruct (Np.mask f1 _) as [sel1|]; cbn.
  2:{ destruct (Np.mask f2 _) as [sel2|]; cbn; [|reflexivity].
      destruct (head sel2) as [m2|]; cbn; [|reflexivity].
      destruct (assign_mask h _ m2); reflexivity. }
  destruct (head sel1) as [m1|]; cbn.
  2:{ destruct (Np.mask f2 _) as [sel2|]; cbn; [|reflexivity].
      destruct (head sel2) as [m2|]; cbn; [|reflexivity].
      destruct (assign_mask h _ m2); reflexivity. }
  destruct (Np.mask f2 _) as [sel2|]; cbn.
  2:{ destruct (assign_mask h _ m1); reflexivity. }
  destruct (head sel2) as [m2|]; cbn.
  2:{ destruct (assign_mask h _ m1); reflexivity. }
  apply assign_mask_commute.
  intros x _ E1 E2. apply Qeq_bool_iff in E1, E2. apply Hne.
  rewrite E1, E2. reflexivity.
Qed.

Lemma merge_wavelengths_run (f : list HistogramModel) (ws : list Q)
    (h : list HistogramModel) :
  merge_wavelengths cfg f h ws
  = Steps.run (map (fun w h => merge_wavelength cfg f h w) ws) h.
Proof.
  revert h. induction ws as [|w ws IH]; intros h; [reflexivity|].
  cbn. destruct (merge_wavelength cfg f h w); cbn; [apply IH|reflexivity].
Qed.

Lemma merge_wavelengths_commute (f1 f2 : list HistogramModel)
    (ws1 ws2 : list Q) (h : list HistogramModel) :
  (forall w1 w2, w1 ∈ ws1 -> w2 ∈ ws2 -> ~ (w1 == w2)%Q) ->
  (h1 ← merge_wavelengths cfg f1 h ws1; merge_wavelengths cfg f2 h1 ws2)
  = (h2 ← merge_wavelengths cfg f2 h ws2; merge_wavelengths cfg f1 h2 ws1).
Proof.
  intros Hd.
  assert (forall a b,
    a ∈ map (fun w h => merge_wavelength cfg f1 h w) ws1 ->
    b ∈ map (fun w h => merge_wavelength cfg f2 h w) ws2 ->
    Steps.commute a b) as Hc.
  { intros a b Ha Hb.
    apply list_elem_of_fmap in Ha as (w1 & -> & Hw1).
    apply list_elem_of_fmap in Hb as (w2 & -> & Hw2).
    apply merge_wavelength_commute, Hd; assumption. }
  rewrite (merge_wavelengths_run f1 ws1 h).
  rewrite (merge_wavelengths_run f2 ws2 h).
  set (l1 := map (fun w h => merge_wavelength cfg f1 h w) ws1) in *.
  set (l2 := map (fun w h => merge_wavelength cfg f2 h w) ws2) in *.
  transitivity (h1 ← Steps.run l1 h; Steps.run l2 h1).
  { destruct (Steps.run l1 h) as [h1|]; cbn; [|reflexivity].
    apply merge_wavelengths_run. }
  rewrite (run_blocks l1 l2 Hc h).
  destruct (Steps.run l2 h) as [h2|]; cbn; [|reflexivity].
  symmetry. apply merge_wavelengths_run.
Qed.

(** The entry of a pixel as [__getitem__] gives it *)
Lemma store_result_h5 (r : result) (fit_array : gmap (Z * Z) fit_element) :
  store_result cfg new_histogram_model new_calibration_model true r
    fit_array
  = (h ← merge_wavelengths cfg (histograms (r_fit_element r))
           (histograms
              (fst (__getitem__ cfg new_histogram_model
                      new_calibration_model (r_pixel r) fit_array)))
           (r_wavelengths r);
     Some (<[r_pixel r :=
               mkFitElement h
                 (calibration
                    (fst (__getitem__ cfg new_histogram_model
                            new_calibration_model (r_pixel r) fit_array)))]>
             fit_array)).
Proof.
  unfold store_result, __getitem__.
  destruct (fit_array !! r_pixel r) as [d|]; cbn; [reflexivity|].
  destruct (merge_wavelengths _ _ _ _) as [h|]; cbn; [|reflexivity].
  rewrite insert_insert_eq. reflexivity.
Qed.

Lemma getitem_insert_ne (p q : Z * Z) (e : fit_element)
    (fit_array : gmap (Z * Z) fit_element) :
  p <> q ->
  fst (__getitem__ cfg new_histogram_model new_calibration_model q
         (<[p := e]> fit_array))
  = fst (__getitem__ cfg new_histogram_model new_calibration_model q
           fit_array).
Proof.
  intros Hne. unfold __getitem__. rewrite lookup_insert_ne by exact Hne.
  destruct (fit_array !! q); reflexivity.
Qed.

Lemma getitem_insert_eq (p : Z * Z) (e : fit_element)
    (fit_array : gmap (Z * Z) fit_element) :
  fst (__getitem__ cfg new_histogram_model new_calibration_model p
         (<[p := e]> fit_array)) = e.
Proof. unfold __getitem__. rewrite lookup_insert_eq. reflexivity. Qed.

Lemma store_result_commute_pixels (r1 r2 : result) :
  r_pixel r1 <> r_pixel r2 ->
  Steps.commute
    (store_result cfg new_histogram_model new_calibration_model true r1)
    (store_result cfg new_histogram_model new_calibration_model true r2).
Proof.
  intros Hne fa.
  assert (r_pixel r2 <> r_pixel r1) as Hne' by (intros E; apply Hne; auto).
  rewrite (store_result_h5 r1 fa), (store_result_h5 r2 fa).
  destruct (merge_wavelengths cfg (histograms (r_fit_element r1)) _ _)
    as [h1|] eqn:E1;
    destruct (merge_wavelengths cfg (histograms (r_fit_element r2)) _ _)
      as [h2|] eqn:E2; cbn [mbind option_bind].
  - rewrite !store_result_h5.
    rewrite (getitem_insert_ne _ _ _ _ Hne), (getitem_insert_ne _ _ _ _ Hne').
    rewrite E1, E2. cbn [mbind option_bind]. f_equal.
    apply insert_insert_ne. exact Hne'.
  - rewrite store_result_h5, (getitem_insert_ne _ _ _ _ Hne), E2.
    reflexivity.
  - rewrite store_result_h5, (getitem_insert_ne _ _ _ _ Hne'), E1.
    reflexivity.
  - reflexivity.
Qed.

Lemma store_result_commute_wavelengths (r1 r2 : result) :
  r_pixel r1 = r_pixel r2 ->
  (forall w1 w2, w1 ∈ r_wavelengths r1 -> w2 ∈ r_wavelengths r2 ->
     ~ (w1 == w2)%Q) ->
  Steps.commute
    (store_result cfg new_histogram_model new_calibration_model true r1)
    (store_result cfg new_histogram_model new_calibration_model true r2).
Proof.
  intros Heq Hd fa.
  pose proof (merge_wavelengths_commute
    (histograms (r_fit_element r1)) (histograms (r_fit_element r2))
    (r_wavelengths r1) (r_wavelengths r2)
    (histograms (fst (__getitem__ cfg new_histogram_model
       new_calibration_model (r_pixel r1) fa))) Hd) as Hm.
  rewrite (store_result_h5 r1 fa), (store_result_h5 r2 fa).
  rewrite <- Heq.
  destruct (merge_wavelengths cfg (histograms (r_fit_element r1)) _
              (r_wavelengths r1)) as [h1|] eqn:E1;
    destruct (merge_wavelengths cfg (histograms (r_fit_element r2)) _
                (r_wavelengths r2)) as [h2|] eqn:E2;
    cbn [mbind option_bind] in Hm |- *.
  - rewrite ?store_result_h5; rewrite <- ?Heq; rewrite ?getitem_insert_eq.
    cbn [histograms calibration]. rewrite Hm.
    destruct (merge_wavelengths cfg (histograms (r_fit_element r1)) h2
                (r_wavelengths r1)) as [h|]; cbn [mbind option_bind];
      [|reflexivity].
    rewrite !insert_insert_eq. reflexivity.
  - rewrite ?store_result_h5; rewrite <- ?Heq; rewrite ?getitem_insert_eq.
    cbn [histograms calibration]. rewrite Hm. reflexivity.
  - rewrite ?store_result_h5; rewrite <- ?Heq; rewrite ?getitem_insert_eq.
    cbn [histograms calibration]. rewrite <- Hm. reflexivity.
  - reflexivity.
Qed.

Lemma store_result_commute (h5_safe : bool) (r1 r2 : result) :
  independent_results h5_safe r1 r2 ->
  Steps.commute
    (store_result cfg new_histogram_model new_calibration_model h5_safe r1)
    (store_result cfg new_histogram_model new_calibration_model h5_safe r2).
Proof.
  intros Hind. destruct h5_safe.
  - destruct (decide (r_pixel r1 = r_pixel r2)) as [Heq|Hne].
    + destruct Hind as [Hne|[_ Hd]]; [destruct (Hne Heq)|].
      apply store_result_commute_wavelengths; assumption.
    + apply store_result_commute_pixels, Hne.
  - destruct Hind as [Hne|[Hf _]]; [|discriminate].
    intros fa. cbn. f_equal. apply insert_insert_ne.
    intros E. apply Hne. auto.
Qed.

Lemma store_results_run (h5_safe : bool) (rs : list result)
    (fit_array : gmap (Z * Z) fit_element) :
  store_results cfg new_histogram_model new_calibration_model h5_safe rs
    fit_array
  = Steps.run
      (map (store_result cfg new_histogram_model new_calibration_model
              h5_safe) rs) fit_array.
Proof.
  revert fit_array. induction rs as [|r rs IH]; intros fa; [reflexivity|].
  cbn. destruct (store_result _ _ _ h5_safe r fa); cbn;
    [apply IH | reflexivity].
Qed.

End AcquireOrder.

(** X21. [Calibrator._acquire_data]: the solution does not depend on the
    order in which the workers' results arrive, as long as no two of them
    are for the same place: results for different pixels, or (with
    [h5_safe]) for the same pixel and different wavelengths, give the same
    fit array, or raise alike, in any order. *)
Theorem results_in_any_order
    (cfg : Configuration)
    (new_histogram_model : Z * Z -> HistogramModel)
    (new_calibration_model : Z * Z -> CalibrationModel)
    (h5_safe : bool) (rs rs' : list Acquire.result)
    (fit_array : gmap (Z * Z) Acquire.fit_element) :
  rs ≡ₚ rs' ->
  (forall r1 r2, r1 ∈ rs -> r2 ∈ rs ->
     r1 = r2 \/ independent_results h5_safe r1 r2) ->
  Acquire.store_results cfg new_histogram_model new_calibration_model
    h5_safe rs fit_array
  = Acquire.store_results cfg new_histogram_model new_calibration_model
      h5_safe rs' fit_array.
Proof.
  intros Hp Hind. rewrite !store_results_run.
  apply run_perm.
  - apply fmap_Permutation, Hp.
  - intros a b Ha Hb.
    apply list_elem_of_fmap in Ha as (r1 & -> & Hr1).
    apply list_elem_of_fmap in Hb as (r2 & -> & Hr2).
    destruct (Hind r1 r2 Hr1 Hr2) as [->|Hi].
    + apply commute_refl.
    + apply store_result_commute, Hi.
Qed.

Lemma collect_takes_missing_results_witness :
  Acquire.collect demo_cfg (fun _ => demo_model)
    (fun _ => demo_calibration_model) 3 true 2
    (Acquire.mkCalibrator 0 ∅) [demo_result_400; demo_result_500]
  = Acquire.Returned
      (Acquire.mkCalibrator 0
         (<[(3, 4) :=
              Acquire.mkFitElement
                [h_set_flag 0 demo_model; h_set_flag 0 demo_model;
                 demo_model] demo_calibration_model]> ∅),
       []).
Proof.
  rewrite (collect_takes_missing_results demo_cfg (fun _ => demo_model)
    (fun _ => demo_calibration_model) true 2 (Acquire.mkCalibrator 0 ∅)
    [demo_result_400; demo_result_500]); [|cbn; lia].
  vm_compute. reflexivity.
Defined.

Lemma results_in_any_order_witness :
  Acquire.store_results demo_cfg (fun _ => demo_model)
    (fun _ => demo_calibration_model) true
    [demo_result_400; demo_result_500] ∅
  = Acquire.store_results demo_cfg (fun _ => demo_model)
      (fun _ => demo_calibration_model) true
      [demo_result_500; demo_result_400] ∅.
Proof.
  apply results_in_any_order; [apply perm_swap|].
  intros r1 r2 H1 H2.
  apply elem_of_cons in H1 as [->|H1];
    apply elem_of_cons in H2 as [->|H2];
    try apply list_elem_of_singleton in H1 as ->;
    try apply list_elem_of_singleton in H2 as ->;
    try (left; reflexivity);
    right; right; (split; [reflexivity|]);
    intros w1 w2 Hw1 Hw2;
    apply list_elem_of_singleton in Hw1 as ->;
    apply list_elem_of_singleton in Hw2 as ->;
    intros E; discriminate E.
Defined.

(** ** What one result changes *)

Section AcquireEffect.
Import Acquire.
Variable cfg : Configuration.
Variable new_histogram_model : Z * Z -> HistogramModel.
Variable new_calibration_model : Z * Z -> CalibrationModel.

Lemma select_head {A} (P : Q -> bool) (m : A) :
  forall (f : list A) (c : list Q),
    head (Np.select f (map P c)) = Some m ->
    exists j x, f !! j = Some m /\ c !! j = Some x /\ P x = true.
Proof.
  induction f as [|v f IH]; intros [|x c] H; try discriminate.
  cbn in H. destruct (P x) eqn:E.
  - cbn in H. injection H as <-. exists 0%nat, x. auto.
  - destruct (IH c H) as (j & y & Hj & Hy & HP).
    exists (S j), y. auto.
Qed.

Lemma assign_mask_lookup {A} (P : Q -> bool) (c : list Q) (m : A)
    (h h' : list A) (i : nat) (x : Q) :
  assign_mask h (map P c) m = Some h' ->
  c !! i = Some x ->
  h' !! i = if P x then Some m else h !! i.
Proof.
  unfold assign_mask. rewrite length_map.
  case_decide as Hl; [|discriminate]. intros [= <-] Hx.
  rewrite lookup_zip_with, list_lookup_fmap, Hx.
  destruct (lookup_lt_is_Some_2 h i) as [v Hv].
  { rewrite Hl. eapply lookup_lt_Some, Hx. }
  rewrite Hv. cbn. destruct (P x); reflexivity.
Qed.

Lemma merge_wavelength_lookup (f h h' : list HistogramModel) (w : Q) :
  (forall i j wi wj,
     wavelengths cfg !! i = Some wi -> wavelengths cfg !! j = Some wj ->
     (wi == wj)%Q -> i = j) ->
  merge_wavelength cfg f h w = Some h' ->
  length h' = length h /\
  forall i wi,
    wavelengths cfg !! i = Some wi ->
    h' !! i = if Qeq_bool w wi then f !! i else h !! i.
Proof.
  intros Hdistinct. unfold merge_wavelength, Np.mask.
  case_decide as Hl; [|discriminate]. cbn.
  destruct (head _) as [m|] eqn:Em; [|discriminate]. cbn.
  intros Hh'. split; [eapply assign_mask_length, Hh'|].
  intros i wi Hwi.
  rewrite (assign_mask_lookup _ _ _ _ _ i wi Hh' Hwi).
  destruct (Qeq_bool w wi) eqn:E; [|reflexivity].
  apply select_head in Em as (j & wj & Hj & Hwj & HP).
  apply Qeq_bool_iff in E, HP.
  assert (i = j) as ->; [|symmetry; exact Hj].
  apply (Hdistinct i j wi wj Hwi Hwj). rewrite <- E, HP. reflexivity.
Qed.

Lemma merge_wavelengths_lookup (f : list HistogramModel) (ws : list Q) :
  (forall i j wi wj,
     wavelengths cfg !! i = Some wi -> wavelengths cfg !! j = Some wj ->
     (wi == wj)%Q -> i = j) ->
  forall h h',
    merge_wavelengths cfg f h ws = Some h' ->
    length h' = length h /\
    forall i wi,
      wavelengths cfg !! i = Some wi ->
      h' !! i = if existsb (fun w => Qeq_bool w wi) ws
                then f !! i else h !! i.
Proof.
  intros Hdistinct. induction ws as [|w ws IH]; intros h h' H; cbn in H.
  - injection H as <-. split; [reflexivity|]. intros i wi _. reflexivity.
  - destruct (merge_wavelength cfg f h w) as [h1|] eqn:E1; [|discriminate].
    cbn in H.
    destruct (merge_wavelength_lookup f h h1 w Hdistinct E1) as [Hl1 H1].
    destruct (IH h1 h' H) as [Hl Hrest].
    split; [lia|]. intros i wi Hwi. cbn [existsb].
    rewrite (Hrest i wi Hwi), (H1 i wi Hwi).
    destruct (Qeq_bool w wi), (existsb _ ws); reflexivity.
Qed.

End AcquireEffect.

(** X22. [Calibrator._acquire_data] with [h5_safe], for a configuration
    whose wavelengths are all different: a result that is stored changes
    the entry of its own pixel only, and there only the histogram models
    of the wavelengths it was computed for, which become the models at the
    same places of the worker's entry; the other histogram models and the
    calibration model stay those of the solution (new ones where the pixel
    had no entry). *)
Theorem store_result_merges_wavelengths
    (cfg : Configuration)
    (new_histogram_model : Z * Z -> HistogramModel)
    (new_calibration_model : Z * Z -> CalibrationModel)
    (r : Acquire.result)
    (fit_array fit_array' : gmap (Z * Z) Acquire.fit_element) :
  (forall i j wi wj,
     wavelengths cfg !! i = Some wi -> wavelengths cfg !! j = Some wj ->
     (wi == wj)%Q -> i = j) ->
  Acquire.store_result cfg new_histogram_model new_calibration_model true
    r fit_array = Some fit_array' ->
  (forall pixel, pixel <> Acquire.r_pixel r ->
     fit_array' !! pixel = fit_array !! pixel) /\
  exists entry,
    fit_array' !! Acquire.r_pixel r = Some entry /\
    Acquire.calibration entry
      = Acquire.calibration
          (fst (Acquire.__getitem__ cfg new_histogram_model
                  new_calibration_model (Acquire.r_pixel r) fit_array)) /\
    forall i wi,
      wavelengths cfg !! i = Some wi ->
      Acquire.histograms entry !! i =
        if existsb (fun w => Qeq_bool w wi) (Acquire.r_wavelengths r)
        then Acquire.histograms (Acquire.r_fit_element r) !! i
        else Acquire.histograms
               (fst (Acquire.__getitem__ cfg new_histogram_model
                       new_calibration_model (Acquire.r_pixel r)
                       fit_array)) !! i.
Proof.
  intros Hdistinct H. rewrite store_result_h5 in H.
  destruct (Acquire.merge_wavelengths cfg _ _ _) as [h|] eqn:E;
    [|discriminate].
  cbn in H. injection H as <-. split.
  - intros pixel Hne. apply lookup_insert_ne. intros Heq. apply Hne. auto.
  - eexists. split; [apply lookup_insert_eq|]. split; [reflexivity|].
    cbn [Acquire.histograms].
    apply (merge_wavelengths_lookup cfg _ _ Hdistinct _ _ E).
Qed.

Lemma store_result_merges_wavelengths_witness :
  exists fit_array' entry,
    Acquire.store_result demo_cfg (fun _ => demo_model)
      (fun _ => demo_calibration_model) true demo_result_500 ∅
      = Some fit_array' /\
    fit_array' !! (3, 4) = Some entry /\
    Acquire.histograms entry !! 1%nat = Some (h_set_flag 0 demo_model) /\
    Acquire.histograms entry !! 0%nat = Some demo_model.
Proof.
  destruct (Acquire.store_result demo_cfg (fun _ => demo_model)
    (fun _ => demo_calibration_model) true demo_result_500 ∅)
    as [fit_array'|] eqn:E; [|vm_compute in E; discriminate E].
  destruct (store_result_merges_wavelengths demo_cfg (fun _ => demo_model)
    (fun _ => demo_calibration_model) demo_result_500 ∅ fit_array')
    as (_ & entry & Hentry & _ & Hmodels).
  - intros [|[|[|i]]] [|[|[|j]]] wi wj Hi Hj Heq; cbn in Hi, Hj;
      try discriminate Hi; try discriminate Hj; try reflexivity;
      injection Hi as <-; injection Hj as <-; discriminate Heq.
  - exact E.
  - exists fit_array', entry. split; [reflexivity|].
    split; [exact Hentry|]. split.
    + exact (Hmodels 1%nat 500%Q eq_refl).
    + exact (Hmodels 0%nat 400%Q eq_refl).
Defined.

(** ** The file a solution is saved to *)

Section PersistenceFacts.
Import Persistence.


End PersistenceFacts.

